(** * Message Interest Analyzer: a shallow embedding of the scoring engine
      and of the export parsers, with the properties of the design document.

    Source files embedded here: [message_analyzer.py] (class
    [MessageAnalyzer]), [message_parsers.py] (the five parser classes
    and [get_parser]) and [app.py] (the exits of [main]).

    Conventions of the model.
    - Python floats are exact rationals ([Q]); the piecewise curves use
      the decimal constants of the source ([0.8], [0.67], [0.17], ...).
    - A [datetime] is a number of microseconds on the naive local time
      line; a [timedelta] is a difference of two of them.
    - Strings are Stdlib strings holding the bytes of the UTF-8 text;
      [Series.str.len] counts the code points; [lower] and [strip] act
      on the ASCII letters and blanks.
    - What the source takes from third-party libraries is a field of an
      environment record: TextBlob's polarity, [emoji.emoji_list], the
      floating-point square root behind [Series.std], [re.match] with the
      WhatsApp pattern, [datetime.strptime], [datetime.now], the local
      UTC offset, [str()] of a non-string object, the decoded views
      of a file ([json.load], [csv.DictReader], line iteration), and
      [pd.to_datetime] on what is no datetime in its range.
    - The sort of [sort_values] is numpy's default sort, followed loop
      by loop on the list of rows. *)

From Stdlib Require Import QArith Qminmax Qround Lqa Lia ZArith.
From Stdlib Require Import String Ascii List Permutation Sorted.
From stdpp Require Import base option list gmap strings.
Import ListNotations.

Set Default Proof Using "All".

(* ===================================================================== *)
(** ** Rational arithmetic used by the scores *)
(* ===================================================================== *)

Module Num.
Local Open Scope Q_scope.

Definition Qleb (x y : Q) : bool := Qle_bool x y.
Definition Qltb (x y : Q) : bool := negb (Qle_bool y x).

Fixpoint Qsum (l : list Q) : Q :=
  match l with
  | [] => 0
  | x :: l' => x + Qsum l'
  end.

Definition of_nat (n : nat) : Q := inject_Z (Z.of_nat n).

(** [np.mean] of a non-empty list (every call site guards emptiness). *)
Definition mean (l : list Q) : Q := Qsum l / of_nat (length l).

(** Round half to even to the nearest integer, the rule of Python's
    [round]. *)
Definition round_half_even (x : Q) : Z :=
  let n := Qfloor x in
  let frac := x - inject_Z n in
  if Qltb frac (1 # 2) then n
  else if Qltb (1 # 2) frac then (n + 1)%Z
  else if Z.even n then n else (n + 1)%Z.

(** [round(x, 1)]. *)
Definition round1 (x : Q) : Q := inject_Z (round_half_even (x * 10)) / 10.

End Num.
Export Num.

Notation "x <=? y" := (Qleb x y) : Q_scope.
Notation "x <? y" := (Qltb x y) : Q_scope.


(* ===================================================================== *)
(** ** Strings *)
(* ===================================================================== *)

Module Str.

(** [c.lower()] on one character. *)
Definition lower_ascii (c : ascii) : ascii :=
  let n := nat_of_ascii c in
  if (65 <=? n)%nat && (n <=? 90)%nat then ascii_of_nat (n + 32) else c.

(** [s.lower()]. *)
Fixpoint lower (s : string) : string :=
  match s with
  | EmptyString => EmptyString
  | String c s' => String (lower_ascii c) (lower s')
  end.

(** [needle in hay] on strings: [needle] occurs as a substring. *)
Fixpoint contains (needle hay : string) : bool :=
  String.prefix needle hay ||
  match hay with
  | EmptyString => false
  | String _ hay' => contains needle hay'
  end.

(** [s.endswith(suffix)]: [suffix] is one of the tails of [s]. *)
Fixpoint endswith (s suffix : string) : bool :=
  String.eqb s suffix ||
  match s with
  | EmptyString => false
  | String _ s' => endswith s' suffix
  end.

(** The ASCII characters [str.strip()] removes: the space, the controls
    9 to 13 and the separators 28 to 31. *)
Definition is_space (c : ascii) : bool :=
  let n := nat_of_ascii c in
  (n =? 32)%nat || ((9 <=? n)%nat && (n <=? 13)%nat)
  || ((28 <=? n)%nat && (n <=? 31)%nat).

Fixpoint lstrip (s : string) : string :=
  match s with
  | String c s' => if is_space c then lstrip s' else s
  | EmptyString => EmptyString
  end.

Fixpoint rstrip (s : string) : string :=
  match s with
  | EmptyString => EmptyString
  | String c s' =>
      match rstrip s' with
      | EmptyString => if is_space c then EmptyString else String c EmptyString
      | r => String c r
      end
  end.

(** [s.strip()]. *)
Definition strip (s : string) : string := rstrip (lstrip s).

(** [len(s.split(sep))] for a one-character separator: one more than
    the number of its occurrences. *)
Fixpoint split_count (sep : ascii) (s : string) : nat :=
  match s with
  | EmptyString => 1
  | String c s' =>
      if Ascii.eqb c sep then S (split_count sep s') else split_count sep s'
  end.

(** The last character of a string. *)
Fixpoint last_char (s : string) : option ascii :=
  match s with
  | EmptyString => None
  | String c EmptyString => Some c
  | String _ s' => last_char s'
  end.

(** The first character of a string. *)
Definition first_char (s : string) : option ascii :=
  match s with
  | EmptyString => None
  | String c _ => Some c
  end.

(** Neither the first nor the last character is one that [strip]
    removes. *)
Definition trimmed (s : string) : Prop :=
  match first_char s with Some c => is_space c = false | None => True end /\
  match last_char s with Some c => is_space c = false | None => True end.

End Str.

(* ===================================================================== *)
(** ** The canonical message model *)
(* ===================================================================== *)

(** Microseconds on the naive local time line. *)
Definition datetime := Z.

(** [{'text': ..., 'timestamp': ..., 'sender': ...}] *)
Record Message := mkMessage {
  text : string;
  timestamp : datetime;
  sender : string
}.

(** [timedelta.total_seconds()] *)
Definition total_seconds (delta : Z) : Q := (inject_Z delta / 1000000)%Q.

(** [timestamp.dt.date]: the calendar day, as a day number. *)
Definition date (ts : datetime) : Z := (ts / 86400000000)%Z.

(** What the analyzer takes from TextBlob, the emoji package and the
    floating-point square root of [Series.std]. *)
Record Externals := mkExternals {
  polarity : string -> Q;
  emoji_list : string -> list string;
  sqrt : Q -> Q
}.

(** TextBlob documents the polarity as a float within [[-1.0, 1.0]]. *)
Definition polarity_in_range (X : Externals) : Prop :=
  forall s : string, (-1 <= polarity X s /\ polarity X s <= 1)%Q.

(* ===================================================================== *)
(** ** The eight signal computations ([MessageAnalyzer]) *)
(* ===================================================================== *)

Section Signals.
Local Open Scope Q_scope.
Variable X : Externals.

(** [df['sender'] == target_sender], row by row. *)
Definition is_their (target_sender : string) (m : Message) : bool :=
  String.eqb (sender m) target_sender.

(** [df[df['sender'] == target_sender]] *)
Definition their_rows (df : list Message) (target_sender : string) :=
  List.filter (is_their target_sender) df.

(** [df[df['sender'] != target_sender]] *)
Definition your_rows (df : list Message) (target_sender : string) :=
  List.filter (fun m => negb (is_their target_sender m)) df.

(** The list [response_times] built by the loop over [range(len(df) - 1)]. *)
Definition response_times (df : list Message) (target_sender : string)
  : list Q :=
  flat_map
    (fun i =>
       match df !! i, df !! S i with
       | Some a, Some b =>
           if negb (is_their target_sender a) && is_their target_sender b
           then [total_seconds (timestamp b - timestamp a) / 60]
           else []
       | _, _ => []
       end)
    (seq 0 (length df - 1)).

(** The piecewise curve applied to [avg_response], with its final clamp. *)
Definition response_time_curve (avg_response : Q) : Q :=
  let score :=
    if avg_response <? 5 then 100
    else if avg_response <? 30 then 100 - (avg_response - 5) * 0.8
    else if avg_response <? 60 then 80 - (avg_response - 30) * 0.67
    else if avg_response <? 180 then 60 - (avg_response - 60) * 0.17
    else Qmax 20 (40 - (avg_response - 180) / 60) in
  Qmin 100 (Qmax 0 score).

Definition analyze_response_time (df : list Message) (target_sender : string)
  : Q :=
  let response_times := response_times df target_sender in
  match response_times with
  | [] => 50
  | _ => response_time_curve (mean response_times)
  end.

(** A string holds the bytes of its UTF-8 encoding: every byte but the
    continuation bytes, 128 to 191, begins a code point. *)
Definition is_continuation (c : ascii) : bool :=
  let n := nat_of_ascii c in (128 <=? n)%nat && (n <? 192)%nat.

Fixpoint code_points (s : string) : nat :=
  match s with
  | EmptyString => 0%nat
  | String c s' => ((if is_continuation c then 0 else 1) + code_points s')%nat
  end.

(** [Series.str.len()] *)
Definition str_len (s : string) : Q := of_nat (code_points s).

Definition analyze_message_length (df : list Message) (target_sender : string)
  : Q :=
  let their_messages := map text (their_rows df target_sender) in
  let your_messages := map text (your_rows df target_sender) in
  if (length their_messages =? 0)%nat then 0
  else
    let their_avg_length := mean (map str_len their_messages) in
    let your_avg_length :=
      if (0 <? length your_messages)%nat
      then mean (map str_len your_messages) else 50 in
    let ratio := their_avg_length / Qmax your_avg_length 1 in
    let score :=
      if 0.8 <=? ratio then 100
      else if 0.5 <=? ratio then 70 + (ratio - 0.5) * 100
      else Qmax 30 (ratio * 140) in
    Qmin 100 score.

Definition positive_emojis : gset string :=
  list_to_set
    ["❤️"; "💕"; "💖"; "😊"; "😍"; "🥰"; "😘"; "💗"; "💓"; "💝";
     "😄"; "😁"; "🙂"; "😉"; "🥺"; "✨"; "💫"; "⭐"]%string.

(** The two counters of the loop over [their_messages]. *)
Fixpoint count_emojis (their_messages : list string) : nat * nat :=
  match their_messages with
  | [] => (0, 0)%nat
  | msg :: rest =>
      let emojis := emoji_list X msg in
      let '(emoji_count, positive_emoji_count) := count_emojis rest in
      ((length emojis + emoji_count)%nat,
       (length (List.filter (fun e => bool_decide (e ∈ positive_emojis)) emojis)
        + positive_emoji_count)%nat)
  end.

Definition analyze_emoji_usage (df : list Message) (target_sender : string)
  : Q :=
  let their_messages := map text (their_rows df target_sender) in
  if (length their_messages =? 0)%nat then 0
  else
    let '(emoji_count, positive_emoji_count) := count_emojis their_messages in
    let avg_emojis := of_nat emoji_count / of_nat (length their_messages) in
    let positive_ratio :=
      of_nat positive_emoji_count / of_nat (Nat.max emoji_count 1) in
    let base_score :=
      if 0.5 <=? avg_emojis then 90
      else if 0.3 <=? avg_emojis then 70
      else if 0.1 <=? avg_emojis then 50
      else 30 in
    let bonus := positive_ratio * 20 in
    Qmin 100 (base_score + bonus).

Definition analyze_question_asking (df : list Message) (target_sender : string)
  : Q :=
  let their_messages := map text (their_rows df target_sender) in
  if (length their_messages =? 0)%nat then 0
  else
    let question_count :=
      length (List.filter (Str.contains "?") their_messages) in
    let question_ratio := of_nat question_count / of_nat (length their_messages) in
    let score :=
      if (0.2 <=? question_ratio) && (question_ratio <=? 0.4) then 100
      else if (0.1 <=? question_ratio) && (question_ratio <? 0.2)
      then 50 + (question_ratio - 0.1) * 500
      else if (0.4 <? question_ratio) && (question_ratio <=? 0.6)
      then 100 - (question_ratio - 0.4) * 100
      else Qmax 20 (60 * question_ratio) in
    Qmin 100 score.

(** [df['timestamp'].diff().dt.total_seconds() / 3600]: [None] is the NaN
    of the first row. *)
Definition time_gaps (df : list Message) : list (option Q) :=
  match df with
  | [] => []
  | m :: rest =>
      None ::
      map (fun p => Some (total_seconds (timestamp (snd p) - timestamp (fst p)) / 3600))
          (combine df rest)
  end.

(** [df[df['time_gap'] > 4]]: a comparison with NaN is false. *)
Definition rows_with_gap_over (gaps : list (option Q)) (df : list Message)
  : list Message :=
  map fst
    (List.filter
       (fun p => match snd p with Some g => 4 <? g | None => false end)
       (combine df gaps)).

Definition initiation_curve (initiation_ratio : Q) : Q :=
  let score :=
    if (0.4 <=? initiation_ratio) && (initiation_ratio <=? 0.6) then 100
    else if (0.3 <=? initiation_ratio) && (initiation_ratio <? 0.4)
    then 70 + (initiation_ratio - 0.3) * 300
    else if (0.6 <? initiation_ratio) && (initiation_ratio <=? 0.7)
    then 100 - (initiation_ratio - 0.6) * 100
    else Qmax 30 (initiation_ratio * 150) in
  Qmin 100 score.

Definition analyze_conversation_initiation
  (df : list Message) (target_sender : string) : Q :=
  if (length df <? 2)%nat then 50
  else
    let conversation_starts := rows_with_gap_over (time_gaps df) df in
    if (length conversation_starts =? 0)%nat then 50
    else
      let their_initiations :=
        length (List.filter (is_their target_sender) conversation_starts) in
      let initiation_ratio :=
        of_nat their_initiations / of_nat (length conversation_starts) in
      initiation_curve initiation_ratio.

Definition enthusiasm_markers : list string :=
  ["!"; "haha"; "lol"; "omg"; "wow"; "love"; "amazing"; "awesome"]%string.

(** One unit per pair of a message and a marker found in its lowercase
    text. *)
Definition enthusiasm_count (their_messages : list string) : nat :=
  length
    (flat_map
       (fun msg =>
          List.filter (fun marker => Str.contains marker (Str.lower msg))
                      enthusiasm_markers)
       their_messages).

Definition analyze_enthusiasm (df : list Message) (target_sender : string)
  : Q :=
  let their_messages := map text (their_rows df target_sender) in
  if (length their_messages =? 0)%nat then 0
  else
    let sentiments := map (polarity X) their_messages in
    let avg_sentiment := mean sentiments in
    let enthusiasm_ratio :=
      of_nat (enthusiasm_count their_messages) / of_nat (length their_messages) in
    let sentiment_score := (avg_sentiment + 1) / 2 * 60 in
    let enthusiasm_score := Qmin 40 (enthusiasm_ratio * 100) in
    sentiment_score + enthusiasm_score.

(** [groupby('date').size()]: the number of rows of each calendar day. *)
Fixpoint daily_counts (dates : list Z) : gmap Z nat :=
  match dates with
  | [] => ∅
  | d :: rest =>
      let counts := daily_counts rest in
      <[d := S (default 0%nat (counts !! d))]> counts
  end.

(** [Series.std()]: the sample standard deviation (one degree of freedom
    removed). *)
Definition std (l : list Q) : Q :=
  let m := mean l in
  sqrt X (Qsum (map (fun x => (x - m) * (x - m)) l) / of_nat (length l - 1)).

Definition consistency_curve (cv : Q) : Q :=
  if cv <? 0.5 then 100
  else if cv <? 1.0 then 100 - (cv - 0.5) * 60
  else Qmax 30 (70 - cv * 20).

Definition analyze_consistency (df : list Message) (target_sender : string)
  : Q :=
  let their_messages := their_rows df target_sender in
  if (length their_messages <? 5)%nat then 50
  else
    let counts := daily_counts (map (fun m => date (timestamp m)) their_messages) in
    if (size counts <? 2)%nat then 70
    else
      let sizes := map (fun kv => of_nat (snd kv)) (map_to_list counts) in
      let cv := std sizes / mean sizes in
      consistency_curve cv.

Definition reciprocity_curve (ratio : Q) : Q :=
  if (0.8 <=? ratio) && (ratio <=? 1.2) then 100
  else if (0.5 <=? ratio) && (ratio <? 0.8) then 60 + (ratio - 0.5) * 133
  else if (1.2 <? ratio) && (ratio <=? 1.5) then 100 - (ratio - 1.2) * 50
  else Qmax 20 (Qmin 100 (ratio * 70)).

Definition analyze_reciprocity (df : list Message) (target_sender : string)
  : Q :=
  if (length df <? 2)%nat then 50
  else
    let their_count := length (their_rows df target_sender) in
    let your_count := (length df - their_count)%nat in
    if (your_count =? 0)%nat
    then (if (0 <? their_count)%nat then 100 else 0)
    else reciprocity_curve (of_nat their_count / of_nat your_count).

(** The dictionary [self.engagement_signals], in its insertion order. *)
Record Signals := mkSignals {
  response_time : Q;
  message_length : Q;
  emoji_usage : Q;
  question_asking : Q;
  conversation_initiation : Q;
  enthusiasm : Q;
  consistency : Q;
  reciprocity : Q
}.

Definition weights : Signals :=
  {| response_time := 0.18;
     conversation_initiation := 0.15;
     enthusiasm := 0.15;
     reciprocity := 0.13;
     message_length := 0.12;
     question_asking := 0.10;
     emoji_usage := 0.09;
     consistency := 0.08 |}.

(** The eight assignments that open [calculate_overall_interest]. *)
Definition engagement_signals (df : list Message) (target_sender : string)
  : Signals :=
  {| response_time := analyze_response_time df target_sender;
     message_length := analyze_message_length df target_sender;
     emoji_usage := analyze_emoji_usage df target_sender;
     question_asking := analyze_question_asking df target_sender;
     conversation_initiation := analyze_conversation_initiation df target_sender;
     enthusiasm := analyze_enthusiasm df target_sender;
     consistency := analyze_consistency df target_sender;
     reciprocity := analyze_reciprocity df target_sender |}.

(** [sum(self.engagement_signals[signal] * weights[signal] for signal in
    self.engagement_signals)], in the order of the dictionary. *)
Definition overall_score (s : Signals) : Q :=
  Qsum
    [ response_time s * response_time weights;
      message_length s * message_length weights;
      emoji_usage s * emoji_usage weights;
      question_asking s * question_asking weights;
      conversation_initiation s * conversation_initiation weights;
      enthusiasm s * enthusiasm weights;
      consistency s * consistency weights;
      reciprocity s * reciprocity weights ].

Definition interpret (overall_score : Q) : string :=
  if 80 <=? overall_score then "Strong interest - Very positive signs!"
  else if 65 <=? overall_score then "Good interest - Looking promising"
  else if 50 <=? overall_score then "Moderate interest - Could go either way"
  else if 35 <=? overall_score then "Low interest - Not looking great"
  else "Minimal interest - Might want to move on".

Definition round_signals (s : Signals) : Signals :=
  {| response_time := round1 (response_time s);
     message_length := round1 (message_length s);
     emoji_usage := round1 (emoji_usage s);
     question_asking := round1 (question_asking s);
     conversation_initiation := round1 (conversation_initiation s);
     enthusiasm := round1 (enthusiasm s);
     consistency := round1 (consistency s);
     reciprocity := round1 (reciprocity s) |}.

(** The dictionary returned by [calculate_overall_interest]. *)
Record Result := mkResult {
  overall_percentage : Q;
  interpretation : string;
  signal_breakdown : Signals;
  message_count : nat;
  their_message_count : nat;
  your_message_count : nat
}.

Definition calculate_overall_interest
  (df : list Message) (target_sender : string) : Result :=
  let signals := engagement_signals df target_sender in
  let overall := overall_score signals in
  {| overall_percentage := round1 overall;
     interpretation := interpret overall;
     signal_breakdown := round_signals signals;
     message_count := length df;
     their_message_count := length (their_rows df target_sender);
     your_message_count :=
       (length df - length (their_rows df target_sender))%nat |}.

End Signals.

(** A score on the scale of the design: between 0 and 100. *)
Definition in_0_100 (x : Q) : Prop := (0 <= x /\ x <= 100)%Q.

Definition signals_in_0_100 (s : Signals) : Prop :=
  in_0_100 (response_time s) /\ in_0_100 (message_length s) /\
  in_0_100 (emoji_usage s) /\ in_0_100 (question_asking s) /\
  in_0_100 (conversation_initiation s) /\ in_0_100 (enthusiasm s) /\
  in_0_100 (consistency s) /\ in_0_100 (reciprocity s).


(* ===================================================================== *)
(** ** The data frame as a mutable object

    [calculate_overall_interest] and the eight [analyze_*] methods receive
    a reference to the caller's [DataFrame].  Two statements of the source
    assign a column: [df['time_gap'] = ...] on the caller's frame and
    [their_messages['date'] = ...] on a copy.  The store below gives every
    frame an address, so that the two can be told apart. *)
(* ===================================================================== *)

Module Frames.

(** A cell of a derived column: a float ([None] is NaN) or a calendar
    day. *)
Inductive Cell :=
| CFloat (x : option Q)
| CDate (d : Z).

Record DataFrame := mkDataFrame {
  rows : list Message;                 (* text, timestamp, sender *)
  derived : list (string * list Cell)  (* the columns assigned later *)
}.

(** [pd.DataFrame(messages)] *)
Definition of_messages (messages : list Message) : DataFrame :=
  {| rows := messages; derived := [] |}.

(** Assigning a column replaces one of that name or appends a new one. *)
Fixpoint assign (col : string) (values : list Cell)
  (columns : list (string * list Cell)) : list (string * list Cell) :=
  match columns with
  | [] => [(col, values)]
  | (name, old) :: rest =>
      if String.eqb name col then (col, values) :: rest
      else (name, old) :: assign col values rest
  end.

Fixpoint column (col : string) (columns : list (string * list Cell))
  : list Cell :=
  match columns with
  | [] => []
  | (name, values) :: rest =>
      if String.eqb name col then values else column col rest
  end.

(** Keep the positions where the mask holds. *)
Fixpoint keep {A : Type} (mask : list bool) (l : list A) : list A :=
  match mask, l with
  | b :: mask', x :: l' => if b then x :: keep mask' l' else keep mask' l'
  | _, _ => []
  end.

Definition floats (cells : list Cell) : list (option Q) :=
  map (fun c => match c with CFloat x => x | CDate _ => None end) cells.

Definition dates (cells : list Cell) : list Z :=
  omap (fun c => match c with CDate d => Some d | CFloat _ => None end) cells.

(** Addresses and the store of frames. *)
Abbreviation ref := nat (only parsing).
Abbreviation Store := (list DataFrame) (only parsing).

(** A computation on the store; [None] is a dangling reference. *)
Definition M (A : Type) : Type := Store -> option (A * Store).

Definition ret {A : Type} (a : A) : M A := fun h => Some (a, h).

Definition bind {A B : Type} (m : M A) (k : A -> M B) : M B :=
  fun h => match m h with
           | Some (a, h') => k a h'
           | None => None
           end.

#[global] Instance M_ret : MRet M := @ret.
#[global] Instance M_bind : MBind M := fun A B k m => bind m k.

(** Read the frame at an address. *)
Definition frame (r : ref) : M DataFrame :=
  fun h => match h !! r with
           | Some d => Some (d, h)
           | None => None
           end.

(** A new frame at a fresh address. *)
Definition alloc (d : DataFrame) : M ref :=
  fun h => Some (length h, h ++ [d]).

(** [df[col] = values]: the frame at [r] is updated in place. *)
Definition setitem (r : ref) (col : string) (values : list Cell) : M unit :=
  fun h => match h !! r with
           | Some d =>
               Some (tt, <[r := {| rows := rows d;
                                   derived := assign col values (derived d) |}]> h)
           | None => None
           end.

(** [df[mask]]: boolean indexing builds a new frame. *)
Definition getitem_mask (r : ref) (mask : Message -> bool) : M ref :=
  d ← frame r;
  let m := map mask (rows d) in
  alloc {| rows := keep m (rows d);
           derived := map (fun c => (fst c, keep m (snd c))) (derived d) |}.

(** [df.copy()] *)
Definition copy (r : ref) : M ref :=
  d ← frame r; alloc d.

(** The frames of [h] are where they were, unchanged, in [h']. *)
Definition preserves (h h' : Store) : Prop :=
  forall r d, h !! r = Some d -> h' !! r = Some d.

(** As [preserves], but for the frame at [df]. *)
Definition preserves_others (df : ref) (h h' : Store) : Prop :=
  forall r d, r <> df -> h !! r = Some d -> h' !! r = Some d.

(** The caller's frame after [df['time_gap'] = ...]. *)
Definition with_time_gap (d : DataFrame) : DataFrame :=
  {| rows := rows d;
     derived := assign "time_gap" (map CFloat (time_gaps (rows d))) (derived d) |}.

Section Methods.
Local Open Scope Q_scope.
Variable X : Externals.

Definition analyze_response_time (df : ref) (target_sender : string) : M Q :=
  d ← frame df; mret (analyze_response_time (rows d) target_sender).

Definition analyze_message_length (df : ref) (target_sender : string) : M Q :=
  d ← frame df; mret (analyze_message_length (rows d) target_sender).

Definition analyze_emoji_usage (df : ref) (target_sender : string) : M Q :=
  d ← frame df; mret (analyze_emoji_usage X (rows d) target_sender).

Definition analyze_question_asking (df : ref) (target_sender : string) : M Q :=
  d ← frame df; mret (analyze_question_asking (rows d) target_sender).

Definition analyze_conversation_initiation (df : ref) (target_sender : string)
  : M Q :=
  d ← frame df;
  if (length (rows d) <? 2)%nat then mret 50
  else
    setitem df "time_gap" (map CFloat (time_gaps (rows d)));;
    d' ← frame df;
    let conversation_starts :=
      rows_with_gap_over (floats (column "time_gap" (derived d'))) (rows d') in
    if (length conversation_starts =? 0)%nat then mret 50
    else
      let their_initiations :=
        length (List.filter (is_their target_sender) conversation_starts) in
      let initiation_ratio :=
        of_nat their_initiations / of_nat (length conversation_starts) in
      mret (initiation_curve initiation_ratio).

Definition analyze_enthusiasm (df : ref) (target_sender : string) : M Q :=
  d ← frame df; mret (analyze_enthusiasm X (rows d) target_sender).

Definition analyze_consistency (df : ref) (target_sender : string) : M Q :=
  selected ← getitem_mask df (is_their target_sender);
  their_messages ← copy selected;
  d ← frame their_messages;
  if (length (rows d) <? 5)%nat then mret 50
  else
    setitem their_messages "date"
      (map (fun m => CDate (date (timestamp m))) (rows d));;
    d' ← frame their_messages;
    let counts := daily_counts (dates (column "date" (derived d'))) in
    if (size counts <? 2)%nat then mret 70
    else
      let sizes := map (fun kv => of_nat (snd kv)) (map_to_list counts) in
      mret (consistency_curve (std X sizes / mean sizes)).

Definition analyze_reciprocity (df : ref) (target_sender : string) : M Q :=
  d ← frame df; mret (analyze_reciprocity (rows d) target_sender).

Definition calculate_overall_interest (df : ref) (target_sender : string)
  : M Result :=
  s1 ← analyze_response_time df target_sender;
  s2 ← analyze_message_length df target_sender;
  s3 ← analyze_emoji_usage df target_sender;
  s4 ← analyze_question_asking df target_sender;
  s5 ← analyze_conversation_initiation df target_sender;
  s6 ← analyze_enthusiasm df target_sender;
  s7 ← analyze_consistency df target_sender;
  s8 ← analyze_reciprocity df target_sender;
  d ← frame df;
  let signals := mkSignals s1 s2 s3 s4 s5 s6 s7 s8 in
  let overall := overall_score signals in
  let their_count := length (their_rows (rows d) target_sender) in
  mret {| overall_percentage := round1 overall;
         interpretation := interpret overall;
         signal_breakdown := round_signals signals;
         message_count := length (rows d);
         their_message_count := their_count;
         your_message_count := (length (rows d) - their_count)%nat |}.

End Methods.

End Frames.

(* ===================================================================== *)
(** ** The export parsers ([message_parsers.py]) *)
(* ===================================================================== *)

Module Parsers.

(** The Python objects a parser meets: what [json.load] and
    [csv.DictReader] produce, and [datetime] values. *)
#[warnings="-register-all"]
Inductive pyobj :=
| PyNone
| PyBool (b : bool)
| PyNum (x : Q)
| PyStr (s : string)
| PyDatetime (d : datetime)
| PyList (l : list pyobj)
| PyDict (m : gmap string pyobj).

Inductive exn :=
| KeyError            (* d[k] with k missing *)
| TypeError           (* an operation on an object of the wrong type *)
| AttributeError      (* .get on an object that is no dict *)
| RangeError          (* fromtimestamp outside the datetime range *)
| OSError             (* open() failed *)
| DecodeError.        (* json.load or the csv reader failed *)

Inductive result (A : Type) :=
| Ok (a : A)
| Raise (e : exn).
Arguments Ok {A} a.
Arguments Raise {A} e.

#[global] Instance result_ret : MRet result := @Ok.
#[global] Instance result_bind : MBind result :=
  fun A B k m => match m with Ok a => k a | Raise e => Raise e end.

(** The files and the library calls around a parser. *)
Record World := mkWorld {
  load_json : string -> result pyobj;
  read_lines : string -> result (list string);
  read_csv : string -> result (list (gmap string pyobj));
  (** [re.match] with the WhatsApp pattern: the four groups. *)
  re_match : string -> option (string * string * string * string);
  (** [datetime.strptime(s, fmt)]; [None] is its [ValueError]. *)
  strptime : string -> string -> option datetime;
  (** [datetime.now()] while entry number [i] of a file is parsed. *)
  now : nat -> datetime;
  (** Local offset from UTC at an instant, in microseconds. *)
  utcoffset : Z -> Z;
  (** [str(o)] for an object that is no string. *)
  py_str : pyobj -> string
}.

(** The dictionary a parser appends for one message. *)
Record Parsed := mkParsed {
  text : pyobj;
  timestamp : datetime;
  sender : pyobj
}.

(** [datetime.min] and [datetime.max] in microseconds. *)
Definition datetime_min : Z := (-62135596800000000)%Z.
Definition datetime_max : Z := 253402300799999999%Z.

(** [max_fold_seconds], 24 hours, in microseconds. *)
Definition max_fold_seconds : Z := 86400000000%Z.

(** [key in o] *)
Definition py_in (key : string) (o : pyobj) : result bool :=
  match o with
  | PyDict m => Ok (bool_decide (is_Some (m !! key)))
  | PyList l =>
      Ok (existsb (fun x => match x with PyStr s => String.eqb s key | _ => false end) l)
  | PyStr s => Ok (Str.contains key s)
  | _ => Raise TypeError
  end.

(** [o[key]] for a string key *)
Definition getitem (o : pyobj) (key : string) : result pyobj :=
  match o with
  | PyDict m => match m !! key with Some v => Ok v | None => Raise KeyError end
  | _ => Raise TypeError
  end.

(** [o.get(key, fallback)] *)
Definition get (o : pyobj) (key : string) (fallback : pyobj) : result pyobj :=
  match o with
  | PyDict m => Ok (default fallback (m !! key))
  | _ => Raise AttributeError
  end.

(** [row.get(key, fallback)] on a row of [csv.DictReader] *)
Definition row_get (row : gmap string pyobj) (key : string) (fallback : pyobj)
  : pyobj :=
  default fallback (row !! key).

(** [for x in o] *)
Definition iterate (o : pyobj) : result (list pyobj) :=
  match o with
  | PyList l => Ok l
  | PyDict m => Ok (map (fun kv => PyStr (fst kv)) (map_to_list m))
  | PyStr s => Ok (map (fun c => PyStr (String c EmptyString)) (list_ascii_of_string s))
  | _ => Raise TypeError
  end.

(** [o / 1000]: the exact quotient, which stands for the float nearest
    to it. *)
Definition div1000 (o : pyobj) : result Q :=
  match o with
  | PyNum x => Ok (x / 1000)%Q
  | PyBool b => Ok ((if b then 1 else 0) / 1000)%Q
  | _ => Raise TypeError
  end.

Section WithWorld.
Variable W : World.

(** [datetime.fromtimestamp(t)]: [t] seconds after the epoch, in local
    time.  The call also converts the instant [max_fold_seconds]
    earlier, to detect a repeated hour, and raises when that one lies
    before [datetime.min]. *)
Definition fromtimestamp (t : Q) : result datetime :=
  let us := round_half_even (t * 1000000)%Q in
  let local := (us + utcoffset W us)%Z in
  if (datetime_min + max_fold_seconds <=? local)%Z && (local <=? datetime_max)%Z
  then Ok local else Raise RangeError.

(** The first format that [strptime] accepts. *)
Fixpoint first_format (s : string) (formats : list string) : option datetime :=
  match formats with
  | [] => None
  | fmt :: rest =>
      match strptime W s fmt with
      | Some d => Some d
      | None => first_format s rest
      end
  end.

(** Run [f] on every entry with its position, stopping at the first
    exception. *)
Fixpoint for_each {A B : Type} (f : nat -> A -> result (option B))
  (i : nat) (entries : list A) : result (list B) :=
  match entries with
  | [] => Ok []
  | e :: rest =>
      r ← f i e;
      out ← for_each f (S i) rest;
      Ok (match r with Some b => b :: out | None => out end)
  end.

End WithWorld.

Module FacebookMessengerParser.
Section WithWorld.
Variable W : World.

(** The body of the loop over [data['messages']]. *)
Definition entry (msg : pyobj) : result (option Parsed) :=
  has_content ← py_in "content" msg;
  if (has_content : bool) then
    content ← getitem msg "content";
    timestamp_ms ← getitem msg "timestamp_ms";
    seconds ← div1000 timestamp_ms;
    ts ← fromtimestamp W seconds;
    sender_name ← getitem msg "sender_name";
    Ok (Some {| text := content; timestamp := ts; sender := sender_name |})
  else Ok None.

Definition parse (file_path : string) : result (list Parsed) :=
  data ← load_json W file_path;
  has_messages ← py_in "messages" data;
  if (has_messages : bool) then
    messages ← getitem data "messages";
    entries ← iterate messages;
    for_each (fun _ => entry) 0 entries
  else Ok [].

End WithWorld.
End FacebookMessengerParser.

Module InstagramMessengerParser.

Definition parse (W : World) (file_path : string) : result (list Parsed) :=
  FacebookMessengerParser.parse W file_path.

End InstagramMessengerParser.

Module iMessageParser.
Section WithWorld.
Variable W : World.

Definition formats : list string :=
  ["%Y-%m-%d %H:%M:%S";
   "%Y-%m-%dT%H:%M:%S";
   "%Y-%m-%d %H:%M:%S.%f";
   "%m/%d/%Y %H:%M:%S";
   "%d/%m/%Y %H:%M:%S"]%string.

(** [strptime] raises [TypeError] on anything but a string; the loop
    catches it for every format. *)
Definition _parse_timestamp (now : datetime) (ts_str : pyobj) : datetime :=
  match ts_str with
  | PyDatetime d => d
  | PyStr s => default now (first_format W s formats)
  | _ => now
  end.

(** The body of the loop of the JSON branch. *)
Definition json_entry (i : nat) (msg : pyobj) : result (option Parsed) :=
  txt ← get msg "text" (PyStr "");
  ts ← get msg "timestamp" PyNone;
  from ← get msg "from" (PyStr "Unknown");
  who ← get msg "sender" from;
  Ok (Some {| text := txt;
              timestamp := _parse_timestamp (now W i) ts;
              sender := who |}).

(** The body of the loop of the CSV branch. *)
Definition csv_entry (i : nat) (row : gmap string pyobj)
  : result (option Parsed) :=
  Ok (Some {| text := row_get row "text" (row_get row "message" (PyStr ""));
              timestamp :=
                _parse_timestamp (now W i)
                  (row_get row "timestamp" (row_get row "date" PyNone));
              sender := row_get row "sender" (row_get row "from" (PyStr "Unknown")) |}).

Definition parse (file_path : string) : result (list Parsed) :=
  if Str.endswith file_path ".json" then
    data ← load_json W file_path;
    entries ← iterate data;
    for_each json_entry 0 entries
  else if Str.endswith file_path ".csv" then
    rows ← read_csv W file_path;
    for_each csv_entry 0 rows
  else Ok [].

End WithWorld.
End iMessageParser.

Module WhatsAppParser.
Section WithWorld.
Variable W : World.

(** The body of the loop over the lines; [None] is a line left out
    (no match, or both date orders refused). *)
Definition line_entry (line : string) : option Parsed :=
  match re_match W line with
  | None => None
  | Some (date_str, time_str, sender_str, text_str) =>
      let stamp := (date_str +:+ " " +:+ time_str)%string in
      let first_try :=
        if (Str.split_count ":" time_str =? 2)%nat
        then strptime W stamp "%d/%m/%Y %H:%M"
        else strptime W stamp "%d/%m/%Y %H:%M:%S" in
      let found :=
        match first_try with
        | Some ts => Some ts
        | None => strptime W stamp "%m/%d/%Y %H:%M"
        end in
      match found with
      | Some ts =>
          Some {| text := PyStr (Str.strip text_str);
                  timestamp := ts;
                  sender := PyStr (Str.strip sender_str) |}
      | None => None
      end
  end.

Definition parse (file_path : string) : result (list Parsed) :=
  lines ← read_lines W file_path;
  for_each (fun _ line => Ok (line_entry line)) 0 lines.

End WithWorld.
End WhatsAppParser.

Module GenericJSONParser.
Section WithWorld.
Variable W : World.

Definition formats : list string :=
  ["%Y-%m-%d %H:%M:%S";
   "%Y-%m-%dT%H:%M:%S";
   "%Y-%m-%d %H:%M:%S.%f";
   "%Y-%m-%dT%H:%M:%S.%fZ"]%string.

Definition _parse_timestamp (now : datetime) (ts : pyobj) : result datetime :=
  match ts with
  | PyDatetime d => Ok d
  | PyNum x => fromtimestamp W x
  | PyBool b => fromtimestamp W (if b then 1 else 0)%Q
  | PyStr s => Ok (default now (first_format W s formats))
  | _ => Ok (default now (first_format W (py_str W ts) formats))
  end.

Definition entry (i : nat) (msg : pyobj) : result (option Parsed) :=
  content ← get msg "content" (PyStr "");
  message ← get msg "message" content;
  txt ← get msg "text" message;
  time ← get msg "time" PyNone;
  date ← get msg "date" time;
  ts ← get msg "timestamp" date;
  stamp ← _parse_timestamp (now W i) ts;
  author ← get msg "author" (PyStr "Unknown");
  from ← get msg "from" author;
  who ← get msg "sender" from;
  Ok (Some {| text := txt; timestamp := stamp; sender := who |}).

Definition parse (file_path : string) : result (list Parsed) :=
  data ← load_json W file_path;
  entries ← iterate data;
  for_each entry 0 entries.

End WithWorld.
End GenericJSONParser.

(** The five parser classes. *)
Inductive Parser :=
| Facebook
| Instagram
| IMessage
| WhatsApp
| GenericJSON.

(** [parser.parse(file_path)] *)
Definition parse (p : Parser) (W : World) (file_path : string)
  : result (list Parsed) :=
  match p with
  | Facebook => FacebookMessengerParser.parse W file_path
  | Instagram => InstagramMessengerParser.parse W file_path
  | IMessage => iMessageParser.parse W file_path
  | WhatsApp => WhatsAppParser.parse W file_path
  | GenericJSON => GenericJSONParser.parse W file_path
  end.

(** The [if platform:] block of [get_parser]; [None] falls through. *)
Definition by_platform (platform : string) : option Parser :=
  let platform := Str.lower platform in
  if Str.contains "facebook" platform || Str.contains "messenger" platform
  then Some Facebook
  else if Str.contains "instagram" platform || Str.contains "ig" platform
  then Some Instagram
  else if Str.contains "imessage" platform || Str.contains "apple" platform
  then Some IMessage
  else if Str.contains "whatsapp" platform
  then Some WhatsApp
  else None.

(** The auto-detection from the file. *)
Definition by_file (W : World) (file_path : string) : Parser :=
  if Str.endswith file_path ".txt" then WhatsApp
  else if Str.endswith file_path ".json" then
    match load_json W file_path with
    | Ok (PyDict data) =>
        if bool_decide (is_Some (data !! "messages")) then Facebook
        else GenericJSON
    | _ => GenericJSON
    end
  else if Str.endswith file_path ".csv" then IMessage
  else GenericJSON.

(** [platform] is [None] or a string; the empty string is false. *)
Definition get_parser (W : World) (file_path : string)
  (platform : option string) : Parser :=
  match platform with
  | Some (String c p) =>
      match by_platform (String c p) with
      | Some parser => parser
      | None => by_file W file_path
      end
  | _ => by_file W file_path
  end.

(** [key in entry] holds and does not raise. *)
Definition has_key (key : string) (e : pyobj) : bool :=
  match py_in key e with
  | Ok true => true
  | _ => false
  end.

(** [isinstance(e, dict)] *)
Definition is_dict (e : pyobj) : bool :=
  match e with PyDict _ => true | _ => false end.

(** [isinstance(e, (int, float))]; a bool is an int. *)
Definition is_number (e : pyobj) : bool :=
  match e with PyNum _ | PyBool _ => true | _ => false end.

(** What [msg.get('timestamp', msg.get('date', msg.get('time')))] finds
    in a dictionary. *)
Definition stamp_source (m : gmap string pyobj) : pyobj :=
  default (default (default PyNone (m !! "time"%string)) (m !! "date"%string))
          (m !! "timestamp"%string).

End Parsers.

(* ===================================================================== *)
(** ** The sort behind [sort_values]

    [df.sort_values('timestamp')] names no [kind], so pandas sorts the
    index of the rows with numpy's default, [kind='quicksort']: an
    introsort.  A range of more than seventeen rows is partitioned
    around the median of its first, middle and last row; a smaller range
    is sorted by insertion; a range taken from the stack when the depth
    allowance, twice the number of binary digits of the length, is used
    up is sorted as a heap.  The functions below follow the loops of
    that sort on the list of rows, each range a list of its own. *)
(* ===================================================================== *)

Module Numpy.
Section Sorts.
Context {A : Type} (key : A -> Z).

(** [Tag::less] on the sort keys. *)
Definition less (x y : A) : bool := (key x <? key y)%Z.

(** [INTP_SWAP] of two positions. *)
Definition swap (i j : nat) (a : list A) : list A :=
  match a !! i, a !! j with
  | Some x, Some y => <[j := x]> (<[i := y]> a)
  | _, _ => a
  end.

(** An [INTP_SWAP] under the test [less] of the two rows. *)
Definition swap_if_less (i j : nat) (a : list A) : list A :=
  match a !! i, a !! j with
  | Some x, Some y => if less x y then swap i j a else a
  | _, _ => a
  end.

Definition SMALL_QUICKSORT : nat := 16.

(** [npy_get_msb]: how often the number can be halved before it is 0. *)
Definition npy_get_msb (n : nat) : Z := Z.log2 (Z.of_nat n).

(** [do ++pi while less(row at pi, vp)], entered with [pi] already
    advanced. *)
Fixpoint scan_up (vp : A) (a : list A) (pi fuel : nat) : nat :=
  match fuel with
  | 0 => pi
  | S fuel' =>
      match a !! pi with
      | Some x => if less x vp then scan_up vp a (S pi) fuel' else pi
      | None => pi
      end
  end.

(** [do --pj while less(vp, row at pj)], entered with [pj] already
    lowered. *)
Fixpoint scan_down (vp : A) (a : list A) (pj : nat) : nat :=
  match pj with
  | 0 => 0
  | S pj' =>
      match a !! pj with
      | Some x => if less vp x then scan_down vp a pj' else pj
      | None => pj
      end
  end.

(** The [for (;;)] loop of the partition. *)
Fixpoint cross (fuel : nat) (vp : A) (a : list A) (pi pj : nat)
  : list A * nat :=
  match fuel with
  | 0 => (a, pi)
  | S fuel' =>
      let pi := scan_up vp a (S pi) (length a) in
      let pj := scan_down vp a (pj - 1) in
      if (pj <=? pi) then (a, pi)
      else cross fuel' vp (swap pi pj a) pi pj
  end.

(** One round of the [while ((pr - pl) > SMALL_QUICKSORT)] loop on the
    range from [pl] to [pr], taken as a list of its own: the median of
    three, the pivot parked at [pr - 1], the crossing scans, the pivot
    put in place.  The result is the range below the pivot, the pivot
    and the range above it. *)
Definition partition (a : list A) : list A * option A * list A :=
  let pr := (length a - 1)%nat in
  let pm := (pr / 2)%nat in
  let a := swap_if_less pm 0 a in
  let a := swap_if_less pr pm a in
  let a := swap_if_less pm 0 a in
  match a !! pm with
  | Some vp =>
      let a := swap pm (pr - 1) a in
      let '(a, pi) := cross (length a) vp a 0 (pr - 1) in
      let a := swap pi (pr - 1) a in
      (take pi a, a !! pi, drop (S pi) a)
  | None => (a, None, [])
  end.

(** The insertion of [vi] into the sorted range before it, which is
    given last element first. *)
Fixpoint shift_in (vi : A) (before : list A) : list A :=
  match before with
  | y :: before' => if less vi y then y :: shift_in vi before' else vi :: before
  | [] => [vi]
  end.

(** The insertion sort of a small range. *)
Definition insertion_sort (a : list A) : list A :=
  rev (fold_left (fun before vi => shift_in vi before) a []).

Definition less_at (a : list A) (j k : nat) : bool :=
  match a !! j, a !! k with
  | Some x, Some y => less x y
  | _, _ => false
  end.

(** The inner loop of the heap sort and the assignment that follows it.
    The code indexes the range from 1; position [k] of the code is index
    [k - 1] here, so the children of [i] are [2 * i + 1] and
    [2 * i + 2]. *)
Fixpoint sift_down (fuel : nat) (tmp : A) (n : nat) (a : list A) (i j : nat)
  : list A :=
  match fuel with
  | 0 => <[i := tmp]> a
  | S fuel' =>
      if (j <? n) then
        let j := if (S j <? n) && less_at a j (S j) then S j else j in
        match a !! j with
        | Some c =>
            if less tmp c
            then sift_down fuel' tmp n (<[i := c]> a) j (2 * j + 1)
            else <[i := tmp]> a
        | None => <[i := tmp]> a
        end
      else <[i := tmp]> a
  end.

(** [for (l = n >> 1; l > 0; --l)] *)
Fixpoint build_heap (l n : nat) (a : list A) : list A :=
  match l with
  | 0 => a
  | S l' =>
      match a !! l' with
      | Some tmp => build_heap l' n (sift_down n tmp n a l' (2 * l' + 1))
      | None => a
      end
  end.

(** [for (; n > 1;)] *)
Fixpoint drain_heap (n : nat) (a : list A) : list A :=
  match n with
  | 0 => a
  | S n' =>
      if (n' =? 0) then a
      else
        match a !! n', a !! 0 with
        | Some tmp, Some top =>
            drain_heap n' (sift_down n' tmp n' (<[n' := top]> a) 0 1)
        | _, _ => a
        end
  end.

Definition aheapsort (a : list A) : list A :=
  let n := length a in
  drain_heap n (build_heap (n / 2) n a).

(** The sort of one range.  [popped] tells a range taken from the
    stack, whose depth is tested, from the range the inner loop goes on
    with. *)
Fixpoint sort_range (fuel : nat) (popped : bool) (cdepth : Z) (a : list A)
  : list A :=
  match fuel with
  | 0 => a
  | S fuel' =>
      if popped && (cdepth <? 0)%Z then aheapsort a
      else if (SMALL_QUICKSORT <? length a - 1) then
        match partition a with
        | (below, Some vp, above) =>
            let cdepth := (cdepth - 1)%Z in
            if (length below <? length above)
            then sort_range fuel' false cdepth below
                 ++ vp :: sort_range fuel' true cdepth above
            else sort_range fuel' true cdepth below
                 ++ vp :: sort_range fuel' false cdepth above
        | _ => a
        end
      else insertion_sort a
  end.

(** [npy_aquicksort]: the rows in the order of the sorted index. *)
Definition aquicksort (a : list A) : list A :=
  sort_range (length a) true (npy_get_msb (length a) * 2) a.

(** The order of the keys, and a list in that order. *)
Definition le_key (x y : A) : Prop := (key x <= key y)%Z.
Definition by_key (a : list A) : Prop := StronglySorted le_key a.

(** Among the first [n] rows, the row at [i] is not below its
    children. *)
Definition heap_at (n : nat) (a : list A) (i : nat) : Prop :=
  forall c x y, c = 2 * i + 1 \/ c = 2 * i + 2 -> c < n ->
                a !! i = Some x -> a !! c = Some y -> (key y <= key x)%Z.

Definition heap_from (lo n : nat) (a : list A) : Prop :=
  forall i, lo <= i -> heap_at n a i.

End Sorts.
End Numpy.

(* ===================================================================== *)
(** ** Loading: [MessageAnalyzer.load_messages] *)
(* ===================================================================== *)

Module Loading.

(** The value under ['timestamp'] of an input dictionary: the docstring
    allows a datetime or a string. *)
Inductive stamp :=
| Stamp (d : datetime)
| StampText (s : string).

(** An input dictionary [{'text': str, 'timestamp': str/datetime,
    'sender': str}]. *)
Record Input := mkInput {
  input_text : string;
  input_timestamp : stamp;
  input_sender : string
}.

(** What [load_messages] takes from pandas besides the sort. *)
Record Pandas := mkPandas {
  (** [pd.to_datetime] on a column that holds a string, or a datetime
      outside [datetime64[ns]]: the column it converts to, or its
      exception. *)
  to_datetime_other : list stamp -> Parsers.result (list datetime)
}.

(** [pd.Timestamp.min] and [pd.Timestamp.max], the bounds of
    [datetime64[ns]], in whole microseconds. *)
Definition timestamp_min : datetime := (-9223372036854775)%Z.
Definition timestamp_max : datetime := 9223372036854775%Z.

Definition in_timestamp_range (d : datetime) : bool :=
  (timestamp_min <=? d)%Z && (d <=? timestamp_max)%Z.

(** A datetime that [datetime64[ns]] holds as it is. *)
Definition plain (s : stamp) : option datetime :=
  match s with
  | Stamp d => if in_timestamp_range d then Some d else None
  | StampText _ => None
  end.

(** [pd.to_datetime(df['timestamp'])] *)
Definition to_datetime (P : Pandas) (column : list stamp)
  : Parsers.result (list datetime) :=
  match mapM plain column with
  | Some datetimes => Parsers.Ok datetimes
  | None => to_datetime_other P column
  end.

(** [df.sort_values('timestamp').reset_index(drop=True)] *)
Definition sort_values (df : list Message) : list Message :=
  Numpy.aquicksort timestamp df.

(** [pd.DataFrame([])] has no column, so that [df['timestamp']] raises
    [KeyError]. *)
Definition load_messages (P : Pandas) (messages : list Input)
  : Parsers.result (list Message) :=
  match messages with
  | [] => Parsers.Raise Parsers.KeyError
  | _ =>
      column ← to_datetime P (map input_timestamp messages);
      Parsers.Ok
        (sort_values
           (zip_with (fun m d => mkMessage (input_text m) d (input_sender m))
                     messages column))
  end.

(** A message as an input dictionary with a datetime. *)
Definition of_message (m : Message) : Input :=
  {| input_text := text m;
     input_timestamp := Stamp (timestamp m);
     input_sender := sender m |}.

Definition ascending (l : list Message) : Prop :=
  StronglySorted (fun a b => (timestamp a <= timestamp b)%Z) l.

(** The rows of one timestamp, in the order of the list. *)
Definition rows_at (t : datetime) (l : list Message) : list Message :=
  List.filter (fun m => (timestamp m =? t)%Z) l.

(** Messages with equal timestamps keep their input order. *)
Definition ties_keep_input_order (input output : list Message) : Prop :=
  forall t, rows_at t output = rows_at t input.

End Loading.

(* ===================================================================== *)
(** ** The design document's wording, for comparison with the code *)
(* ===================================================================== *)

Module Design.
Local Open Scope Q_scope.

(** "For every your-message immediately followed by a their-message,
    compute elapsed minutes." *)
Fixpoint elapsed_minutes (df : list Message) (target_sender : string)
  : list Q :=
  match df with
  | a :: (b :: _) as rest =>
      (if negb (is_their target_sender a) && is_their target_sender b
       then [total_seconds (timestamp b - timestamp a) / 60] else [])
      ++ elapsed_minutes rest target_sender
  | _ => []
  end.

(** The straight line through [(x0, y0)] and [(x1, y1)]. *)
Definition line (x0 y0 x1 y1 x : Q) : Q :=
  y0 + (x - x0) * ((y1 - y0) / (x1 - x0)).

(** "<5min→100; 5–30min→linear 100→80; 30–60min→linear 80→60;
    60–180min→linear 60→40; >180min→max(20, 40 − (minutes−180)/60)" *)
Definition response_time_mapping (minutes : Q) : Q :=
  if minutes <? 5 then 100
  else if minutes <? 30 then line 5 100 30 80 minutes
  else if minutes <? 60 then line 30 80 60 60 minutes
  else if minutes <? 180 then line 60 60 180 40 minutes
  else Qmax 20 (40 - (minutes - 180) / 60).

(** "Object with a messages key": what the peek at a .json file must
    find for the Facebook parser. *)
Definition has_messages_object (peek : Parsers.result Parsers.pyobj) : bool :=
  match peek with
  | Parsers.Ok (Parsers.PyDict data) => bool_decide (is_Some (data !! "messages"%string))
  | _ => false
  end.

End Design.

(* ===================================================================== *)
(** ** Sample conversations, files and library stand-ins *)
(* ===================================================================== *)

Module Samples.
Local Open Scope Q_scope.

(** A keyword polarity, an emoji scanner for one emoji, and a square
    root truncated to two decimals. *)
Definition externals : Externals :=
  {| polarity := fun s => if Str.contains "love" (Str.lower s) then 1 # 2 else 0;
     emoji_list := fun s => if Str.contains "❤️" s then ["❤️"%string] else [];
     sqrt := fun x => inject_Z (Z.sqrt (Qfloor (x * 10000))) / 100 |}.

(** A pandas that converts no string and no distant datetime. *)
Definition pandas : Loading.Pandas :=
  {| Loading.to_datetime_other := fun _ => Parsers.Raise Parsers.TypeError |}.

Definition minute : Z := 60000000.
Definition hour : Z := (60 * minute)%Z.

Definition msg (who : string) (at_minute : Z) (what : string) : Message :=
  {| text := what; timestamp := (at_minute * minute)%Z; sender := who |}.

(** A at t0, then B two minutes later. *)
Definition quick_reply : list Message :=
  [msg "A" 0 "hi"; msg "B" 2 "hello"].

(** A at t0, then B one minute short of three hours later. *)
Definition late_reply : list Message :=
  [msg "A" 0 "hi"; msg "B" 179 "hello"].

(** A at t0, then B forty-five minutes later. *)
Definition slow_reply : list Message :=
  [msg "A" 0 "hi"; msg "B" 45 "hello"].

(** Two messages, none from B. *)
Definition only_other : list Message :=
  [msg "A" 0 "hi"; msg "A" 1 "are you there?"].

(** One message, from B. *)
Definition single_from_target : list Message :=
  [msg "B" 0 "hi"].

(** Ten messages from each side, alternating. *)
Definition ten_each : list Message :=
  flat_map (fun i => [msg "A" (2 * Z.of_nat i) "ping";
                      msg "B" (2 * Z.of_nat i + 1) "pong"])
           (seq 0 10).

(** Three days of conversation. *)
Definition three_days : list Message :=
  [msg "A" 0 "good morning";
   msg "B" 3 "morning! how are you?";
   msg "A" 5 "fine";
   msg "B" 1440 "I love this song ❤️";
   msg "B" 1441 "haha";
   msg "A" 1500 "nice";
   msg "B" 2900 "lunch?";
   msg "B" 2901 "wow";
   msg "A" 2950 "sure"].

(** The three days with the second message of A later in the first
    day, so that the replies of B take 900 minutes on average. *)
Definition near_eighty : list Message :=
  [msg "A" 0 "good morning";
   msg "B" 3 "morning! how are you?";
   msg "A" 143 "fine";
   msg "B" 1440 "I love this song ❤️";
   msg "B" 1441 "haha";
   msg "A" 1500 "nice";
   msg "B" 2900 "lunch?";
   msg "B" 2901 "wow";
   msg "A" 2950 "sure"].

(** Three messages of B for one of A. *)
Definition three_to_one : list Message :=
  [msg "A" 0 "hi"; msg "B" 1 "hello"; msg "B" 2 "how are you"; msg "B" 3 "?"].

(** Three messages of B, one of them a question. *)
Definition one_question : list Message :=
  [msg "B" 0 "hi"; msg "B" 1 "how are you?"; msg "A" 2 "fine"; msg "B" 3 "good"].

(** Eighteen messages at the same instant, with the texts "a" to "r",
    alternately from A and from B. *)
Definition burst : list Message :=
  map (fun i => msg (if Nat.even i then "A" else "B") 0
                    (String (ascii_of_nat (97 + i)) EmptyString))
      (seq 0 18).

End Samples.

(** Sample export files and stand-ins for the library calls. *)
Module Files.
Import Parsers.

(** 2024-05-01 10:00:00 and 2024-12-25 10:00:00 UTC. *)
Definition may_first : datetime := 1714557600000000%Z.
Definition christmas : datetime := 1735120800000000%Z.

(** 2024-01-05 10:00:00 UTC. *)
Definition t0 : datetime := 1704448800000000%Z.

Definition first_message : gmap string pyobj :=
  list_to_map [("sender_name", PyStr "Ann");
               ("timestamp_ms", PyNum 1704448800000);
               ("content", PyStr "hi")].

Definition photo : gmap string pyobj :=
  list_to_map [("sender_name", PyStr "Bob");
               ("timestamp_ms", PyNum 1704448860000);
               ("photos", PyList [])].

Definition last_message : gmap string pyobj :=
  list_to_map [("sender_name", PyStr "Bob");
               ("timestamp_ms", PyNum 1704448920000);
               ("content", PyStr "hello")].

(** A text message with no sender. *)
Definition unsigned_message : gmap string pyobj :=
  list_to_map [("timestamp_ms", PyNum 1704448800000);
               ("content", PyStr "hi")].

(** A Facebook export: two text messages around a photo. *)
Definition facebook_export : gmap string pyobj :=
  list_to_map
    [("participants", PyList []);
     ("messages",
      PyList [PyDict first_message; PyDict photo; PyDict last_message])].

(** A Facebook export whose only message has a text and no sender. *)
Definition facebook_no_sender : gmap string pyobj :=
  list_to_map [("messages", PyList [PyDict unsigned_message])].




(** An iMessage entry written with the second alias of each field. *)
Definition aliased_entry : gmap string pyobj :=
  list_to_map [("message", PyStr "hi");
               ("date", PyStr "2024-01-05 10:00:00");
               ("from", PyStr "Ann")].

(** An entry with no sender under any alias. *)
Definition anonymous_entry : gmap string pyobj :=
  list_to_map [("text", PyStr "hi");
               ("timestamp", PyStr "2024-01-05 10:00:00")].




Definition line1 : string := "[05/01/2024, 10:00:00] Ann: hi".
Definition line2 : string := "and a second line of the same message".
Definition line3 : string := "05/01/2024, 10:02 - Bob: hello ".

Definition world : World :=
  {| load_json := fun path =>
       if String.eqb path "facebook.json" then Ok (PyDict facebook_export)
       else if String.eqb path "facebook_no_sender.json"
       then Ok (PyDict facebook_no_sender)
       else if String.eqb path "imessage.json"
       then Ok (PyList [PyDict aliased_entry; PyDict anonymous_entry])
       else if String.eqb path "generic.json"
       then Ok (PyList [PyDict anonymous_entry])
       else if String.eqb path "broken.json" then Raise DecodeError
       else Raise OSError;
     read_lines := fun path =>
       if String.eqb path "chat.txt" then Ok [line1; line2; line3]
       else Raise OSError;
     read_csv := fun path =>
       if String.eqb path "imessage.csv" then Ok [aliased_entry; anonymous_entry]
       else Raise OSError;
     re_match := fun line =>
       if String.eqb line line1 then Some ("05/01/2024", "10:00:00", "Ann", "hi")
       else if String.eqb line line3 then Some ("05/01/2024", "10:02", "Bob", "hello ")
       else None;
     strptime := fun s fmt =>
       if String.eqb s "2024-01-05 10:00:00" && String.eqb fmt "%Y-%m-%d %H:%M:%S"
       then Some t0
       else if String.eqb s "05/01/2024 10:00:00" && String.eqb fmt "%d/%m/%Y %H:%M:%S"
       then Some t0
       else if String.eqb s "05/01/2024 10:00:00" && String.eqb fmt "%m/%d/%Y %H:%M:%S"
       then Some may_first
       else if String.eqb s "05/01/2024 10:02" && String.eqb fmt "%d/%m/%Y %H:%M"
       then Some (t0 + 120000000)%Z
       else if String.eqb s "05/01/2024 10:02" && String.eqb fmt "%m/%d/%Y %H:%M"
       then Some (may_first + 120000000)%Z
       else if String.eqb s "25/12/2024 10:00:00" && String.eqb fmt "%d/%m/%Y %H:%M:%S"
       then Some christmas
       else None;
     now := fun i => (1800000000000000 + Z.of_nat i)%Z;
     utcoffset := fun _ => 0%Z;
     py_str := fun _ => "<object>" |}.

End Files.

(* ===================================================================== *)
(** ** The command line ([app.py])

    [main] up to what it prints: the banner, the progress lines, the
    report text and the insights are left out; what is kept is which of
    its exits the run takes and the result it reports. *)
(* ===================================================================== *)

Module App.
Import Parsers.

(** What [main] needs besides the parsers' world: [os.path.exists], the
    analyzer's libraries, pandas, and the pandas stage on dictionaries
    whose text or sender is no string. *)
Record Host := mkHost {
  world : World;
  path_exists : string -> bool;
  externals : Externals;
  pandas : Loading.Pandas;
  analyze_untyped : list Parsed -> string -> result Result
}.

(** Why a run ends with [sys.exit(1)]. *)
Inductive failure :=
| NotEnoughArguments
| FileNotFound
| NoMessages
| AnalysisError (e : exn).

(** How a run of [main] ends: [sys.exit(0)] after the help text,
    [sys.exit(1)], or a normal return after the report of a result. *)
Inductive outcome :=
| HelpShown
| Failed (why : failure)
| Reported (r : Result).

(** The exit status of the process. *)
Definition exit_status (o : outcome) : Z :=
  match o with
  | Failed _ => 1
  | _ => 0
  end.

(** A parsed dictionary whose text and sender are strings. *)
Definition to_input (p : Parsed) : option Loading.Input :=
  match text p, sender p with
  | PyStr t, PyStr s =>
      Some (Loading.mkInput t (Loading.Stamp (timestamp p)) s)
  | _, _ => None
  end.

(** [analyzer.load_messages(messages)] followed by
    [analyzer.calculate_overall_interest(df, target_sender)]. *)
Definition analyze (H : Host) (messages : list Parsed) (target_sender : string)
  : result Result :=
  match mapM to_input messages with
  | Some inputs =>
      df ← Loading.load_messages (pandas H) inputs;
      Ok (calculate_overall_interest (externals H) df target_sender)
  | None => analyze_untyped H messages target_sender
  end.

(** [main()], with [sys.argv] as its argument. *)
Definition main (H : Host) (argv : list string) : outcome :=
  if (length argv <? 3)%nat then Failed NotEnoughArguments
  else
    match argv with
    | _ :: file_path :: target_sender :: rest =>
        if existsb (String.eqb file_path) ["-h"; "--help"; "help"]%string
        then HelpShown
        else
          let platform := match rest with p :: _ => Some p | [] => None end in
          if negb (path_exists H file_path) then Failed FileNotFound
          else
            let parser := get_parser (world H) file_path platform in
            match parse parser (world H) file_path with
            | Raise e => Failed (AnalysisError e)
            | Ok [] => Failed NoMessages
            | Ok messages =>
                match analyze H messages target_sender with
                | Ok results => Reported results
                | Raise e => Failed (AnalysisError e)
                end
            end
    | _ => Failed NotEnoughArguments
    end.

End App.

(** A host for the sample files, and a settings file that is a JSON
    object with no message in it. *)
Module Hosts.
Import Parsers.

Definition settings : gmap string pyobj :=
  list_to_map [("theme", PyStr "dark")].

Definition world : World :=
  {| load_json := fun path =>
       if String.eqb path "settings.json" then Ok (PyDict settings)
       else load_json Files.world path;
     read_lines := read_lines Files.world;
     read_csv := read_csv Files.world;
     re_match := re_match Files.world;
     strptime := strptime Files.world;
     now := now Files.world;
     utcoffset := utcoffset Files.world;
     py_str := py_str Files.world |}.

Definition host : App.Host :=
  {| App.world := world;
     App.path_exists := fun path =>
       existsb (String.eqb path)
         ["facebook.json"; "facebook_no_sender.json"; "imessage.json";
          "imessage.csv"; "generic.json"; "broken.json"; "chat.txt";
          "settings.json"; "empty.txt"]%string;
     App.externals := Samples.externals;
     App.pandas := Samples.pandas;
     App.analyze_untyped := fun _ _ => Raise TypeError |}.

End Hosts.

Section NumFacts.
Local Open Scope Q_scope.

Lemma Qleb_le (x y : Q) : (x <=? y) = true <-> x <= y.
Proof. unfold Qleb. apply Qle_bool_iff. Qed.

Lemma Qleb_gt (x y : Q) : (x <=? y) = false <-> y < x.
Proof.
  unfold Qleb. split; intros H.
  - apply Qnot_le_lt. intros Hle. apply Qle_bool_iff in Hle. congruence.
  - destruct (Qle_bool x y) eqn:E; [|reflexivity].
    apply Qle_bool_iff in E. apply Qle_not_lt in E. contradiction.
Qed.

Lemma Qltb_lt (x y : Q) : (x <? y) = true <-> x < y.
Proof. unfold Qltb. rewrite negb_true_iff. apply Qleb_gt. Qed.

Lemma Qltb_ge (x y : Q) : (x <? y) = false <-> y <= x.
Proof. unfold Qltb. rewrite negb_false_iff. apply Qleb_le. Qed.

Lemma of_nat_nonneg (n : nat) : 0 <= of_nat n.
Proof.
  unfold of_nat. change 0 with (inject_Z 0). rewrite <- Zle_Qle. lia.
Qed.

Lemma of_nat_pos (n : nat) : (0 < n)%nat -> 0 < of_nat n.
Proof.
  intros H. unfold of_nat. change 0 with (inject_Z 0). rewrite <- Zlt_Qlt. lia.
Qed.

Lemma of_nat_S (n : nat) : of_nat (S n) == of_nat n + 1.
Proof.
  unfold of_nat. rewrite Nat2Z.inj_succ, <- Z.add_1_r, inject_Z_plus.
  reflexivity.
Qed.

Lemma Qdiv_nonneg (a b : Q) : 0 <= a -> 0 < b -> 0 <= a / b.
Proof.
  intros Ha Hb. apply Qle_shift_div_l; [exact Hb | lra].
Qed.

Lemma Qdiv_le_upper (a b c : Q) : 0 < b -> a <= c * b -> a / b <= c.
Proof. intros Hb H. apply Qle_shift_div_r; assumption. Qed.

Lemma Qdiv_le_lower (a b c : Q) : 0 < b -> c * b <= a -> c <= a / b.
Proof. intros Hb H. apply Qle_shift_div_l; assumption. Qed.

(** Every element within [[lo, hi]] puts the sum within
    [[lo * n, hi * n]]. *)
Lemma Qsum_bounds (lo hi : Q) (l : list Q) :
  Forall (fun x => lo <= x /\ x <= hi) l ->
  lo * of_nat (length l) <= Qsum l /\ Qsum l <= hi * of_nat (length l).
Proof.
  induction 1 as [|x l [Hlo Hhi] _ [IHlo IHhi]].
  - cbn [Qsum length]. change (of_nat 0) with 0. lra.
  - cbn [Qsum length]. rewrite of_nat_S. lra.
Qed.

(** The mean of a non-empty list lies between any bounds of its
    elements. *)
Lemma mean_bounds (lo hi : Q) (l : list Q) :
  l <> [] ->
  Forall (fun x => lo <= x /\ x <= hi) l ->
  lo <= mean l /\ mean l <= hi.
Proof.
  intros Hne HF. destruct (Qsum_bounds lo hi l HF) as [Hlo Hhi].
  assert (Hpos : 0 < of_nat (length l)).
  { apply of_nat_pos. destruct l; [congruence | cbn; lia]. }
  unfold mean. split.
  - apply Qdiv_le_lower; assumption.
  - apply Qdiv_le_upper; assumption.
Qed.

End NumFacts.

(** Case analysis on every boolean comparison of the goal, leaving the
    corresponding order facts as hypotheses. *)
Ltac qcase :=
  match goal with
  | |- context [Qleb ?x ?y] =>
      let E := fresh "E" in
      destruct (Qleb x y) eqn:E;
      [apply Qleb_le in E | apply Qleb_gt in E]
  | |- context [Qltb ?x ?y] =>
      let E := fresh "E" in
      destruct (Qltb x y) eqn:E;
      [apply Qltb_lt in E | apply Qltb_ge in E]
  end.

Ltac qmax x y :=
  let H := fresh "Hmax" in
  destruct (Q.max_spec x y) as [[? H] | [? H]].

Ltac qmin x y :=
  let H := fresh "Hmin" in
  destruct (Q.min_spec x y) as [[? H] | [? H]].

(* ===================================================================== *)
(** ** Score ranges *)
(* ===================================================================== *)

Section Ranges.
Local Open Scope Q_scope.

(** Faces of an integer interval survive rounding half to even. *)
Lemma round_half_even_bounds (lo hi : Z) (y : Q) :
  inject_Z lo <= y -> y <= inject_Z hi ->
  (lo <= round_half_even y <= hi)%Z.
Proof.
  intros Hlo Hhi.
  assert (Hn1 : (lo <= Qfloor y)%Z).
  { rewrite <- (Qfloor_Z lo). apply Qfloor_resp_le. exact Hlo. }
  assert (Hn2 : (Qfloor y <= hi)%Z).
  { rewrite <- (Qfloor_Z hi). apply Qfloor_resp_le. exact Hhi. }
  assert (Hup : inject_Z (Qfloor y) < y -> (Qfloor y + 1 <= hi)%Z).
  { intros Hlt.
    assert (H : inject_Z (Qfloor y) < inject_Z hi) by lra.
    rewrite <- Zlt_Qlt in H. lia. }
  pose proof (Qfloor_le y) as Hfl.
  unfold round_half_even. cbv zeta.
  repeat qcase; try lia.
  - assert (Hlt : inject_Z (Qfloor y) < y) by lra.
    specialize (Hup Hlt). lia.
  - destruct (Z.even (Qfloor y)); [lia|].
    assert (Hlt : inject_Z (Qfloor y) < y) by lra.
    specialize (Hup Hlt). lia.
Qed.

Lemma round1_range (x : Q) : in_0_100 x -> in_0_100 (round1 x).
Proof.
  intros [H0 H1]. unfold round1.
  destruct (round_half_even_bounds 0 1000 (x * 10)) as [Ha Hb].
  - change (inject_Z 0) with 0. lra.
  - change (inject_Z 1000) with 1000. lra.
  - rewrite Zle_Qle in Ha, Hb.
    change (inject_Z 0) with 0 in Ha. change (inject_Z 1000) with 1000 in Hb.
    unfold in_0_100, Qdiv. change (/ 10) with (1 # 10). lra.
Qed.

Lemma response_time_curve_range (avg : Q) : in_0_100 (response_time_curve avg).
Proof.
  unfold response_time_curve, in_0_100.
  match goal with |- context [Qmax 0 ?s] => generalize s end.
  intros s. qmax 0 s; qmin 100 (Qmax 0 s); lra.
Qed.

Lemma analyze_response_time_range (df : list Message) (t : string) :
  in_0_100 (analyze_response_time df t).
Proof.
  unfold analyze_response_time.
  destruct (response_times df t).
  - unfold in_0_100. lra.
  - apply response_time_curve_range.
Qed.

Lemma analyze_message_length_range (df : list Message) (t : string) :
  in_0_100 (analyze_message_length df t).
Proof.
  unfold analyze_message_length, in_0_100. cbv zeta.
  destruct (_ =? 0)%nat; [lra|].
  match goal with |- context [?a / Qmax ?b 1] => generalize (a / Qmax b 1) end.
  intros r.
  repeat qcase.
  - qmin 100 100; lra.
  - qmin 100 (70 + (r - 0.5) * 100); lra.
  - qmax 30 (r * 140); qmin 100 (Qmax 30 (r * 140)); lra.
Qed.

Lemma analyze_emoji_usage_range (X : Externals) (df : list Message) (t : string) :
  in_0_100 (analyze_emoji_usage X df t).
Proof.
  unfold analyze_emoji_usage, in_0_100. cbv zeta.
  destruct (_ =? 0)%nat; [lra|].
  destruct (count_emojis X _) as [emoji_count positive].
  assert (Hb : 0 <= of_nat positive / of_nat (Nat.max emoji_count 1)).
  { apply Qdiv_nonneg; [apply of_nat_nonneg | apply of_nat_pos; lia]. }
  revert Hb.
  generalize (of_nat positive / of_nat (Nat.max emoji_count 1)).
  intros r Hr.
  match goal with |- context [Qmin 100 ?s] => qmin 100 s end;
    repeat qcase; lra.
Qed.

Lemma analyze_question_asking_range (df : list Message) (t : string) :
  in_0_100 (analyze_question_asking df t).
Proof.
  unfold analyze_question_asking, in_0_100. cbv zeta.
  destruct (_ =? 0)%nat; [lra|].
  match goal with |- context [0.2 <=? ?r] => generalize r end.
  intros r.
  match goal with |- context [Qmin 100 ?s] => qmin 100 s end;
    repeat (qcase; cbn [andb] in * );
    try match goal with |- context [Qmax ?a ?b] => qmax a b end;
    lra.
Qed.

Lemma initiation_curve_range (r : Q) : in_0_100 (initiation_curve r).
Proof.
  unfold initiation_curve, in_0_100.
  match goal with |- context [Qmin 100 ?s] => qmin 100 s end;
    repeat (qcase; cbn [andb] in * );
    try match goal with |- context [Qmax ?a ?b] => qmax a b end;
    lra.
Qed.

Lemma analyze_conversation_initiation_range (df : list Message) (t : string) :
  in_0_100 (analyze_conversation_initiation df t).
Proof.
  unfold analyze_conversation_initiation. cbv zeta.
  destruct (_ <? 2)%nat; [unfold in_0_100; lra|].
  destruct (_ =? 0)%nat; [unfold in_0_100; lra|].
  apply initiation_curve_range.
Qed.

Lemma consistency_curve_range (cv : Q) : in_0_100 (consistency_curve cv).
Proof.
  unfold consistency_curve, in_0_100.
  repeat qcase; try lra.
  qmax 30 (70 - cv * 20); lra.
Qed.

Lemma analyze_consistency_range (X : Externals) (df : list Message) (t : string) :
  in_0_100 (analyze_consistency X df t).
Proof.
  unfold analyze_consistency. cbv zeta.
  destruct (_ <? 5)%nat; [unfold in_0_100; lra|].
  destruct (_ <? 2)%nat; [unfold in_0_100; lra|].
  apply consistency_curve_range.
Qed.

Lemma reciprocity_curve_range (r : Q) : in_0_100 (reciprocity_curve r).
Proof.
  unfold reciprocity_curve, in_0_100.
  repeat (qcase; cbn [andb] in * ); try lra.
  all: qmin 100 (r * 70); qmax 20 (Qmin 100 (r * 70)); lra.
Qed.

Lemma analyze_reciprocity_range (df : list Message) (t : string) :
  in_0_100 (analyze_reciprocity df t).
Proof.
  unfold analyze_reciprocity. cbv zeta.
  destruct (_ <? 2)%nat; [unfold in_0_100; lra|].
  destruct (_ =? 0)%nat.
  - destruct (0 <? _)%nat; unfold in_0_100; lra.
  - apply reciprocity_curve_range.
Qed.

(** The enthusiasm score has no clamp of its own: its range comes from
    the range of the polarity and from the cap of the marker term. *)
Lemma analyze_enthusiasm_range (X : Externals) (df : list Message) (t : string) :
  polarity_in_range X -> in_0_100 (analyze_enthusiasm X df t).
Proof.
  intros HX. unfold analyze_enthusiasm, in_0_100. cbv zeta.
  destruct (length (map text (their_rows df t)) =? 0)%nat eqn:Hlen; [lra|].
  apply Nat.eqb_neq in Hlen.
  set (msgs := map text (their_rows df t)) in *.
  assert (Hm : -1 <= mean (map (polarity X) msgs) /\
               mean (map (polarity X) msgs) <= 1).
  { apply mean_bounds.
    - destruct msgs; [cbn in Hlen; lia | discriminate].
    - apply Forall_forall. intros x Hx.
      apply list_elem_of_In, in_map_iff in Hx.
      destruct Hx as [s [<- _]]. apply HX. }
  assert (Hr : 0 <= of_nat (enthusiasm_count msgs) / of_nat (length msgs)).
  { apply Qdiv_nonneg; [apply of_nat_nonneg | apply of_nat_pos; lia]. }
  revert Hm Hr.
  generalize (mean (map (polarity X) msgs)).
  generalize (of_nat (enthusiasm_count msgs) / of_nat (length msgs)).
  intros r a [Ha1 Ha2] Hr.
  unfold Qdiv. change (/ 2) with (1 # 2).
  qmin 40 (r * 100); lra.
Qed.

Lemma overall_score_range (s : Signals) :
  signals_in_0_100 s -> in_0_100 (overall_score s).
Proof.
  unfold signals_in_0_100, in_0_100, overall_score.
  intros (H1 & H2 & H3 & H4 & H5 & H6 & H7 & H8).
  cbn [Qsum weights response_time message_length emoji_usage question_asking
       conversation_initiation enthusiasm consistency reciprocity].
  lra.
Qed.

Lemma round_signals_range (s : Signals) :
  signals_in_0_100 s -> signals_in_0_100 (round_signals s).
Proof.
  unfold signals_in_0_100, round_signals.
  cbn [response_time message_length emoji_usage question_asking
       conversation_initiation enthusiasm consistency reciprocity].
  intros (H1 & H2 & H3 & H4 & H5 & H6 & H7 & H8).
  repeat apply conj; apply round1_range; assumption.
Qed.

Lemma engagement_signals_range (X : Externals) (df : list Message) (t : string) :
  polarity_in_range X -> signals_in_0_100 (engagement_signals X df t).
Proof.
  intros HX. unfold signals_in_0_100, engagement_signals.
  cbn [response_time message_length emoji_usage question_asking
       conversation_initiation enthusiasm consistency reciprocity].
  repeat apply conj;
    first [ apply analyze_response_time_range
          | apply analyze_message_length_range
          | apply analyze_emoji_usage_range
          | apply analyze_question_asking_range
          | apply analyze_conversation_initiation_range
          | apply (analyze_enthusiasm_range X df t HX)
          | apply analyze_consistency_range
          | apply analyze_reciprocity_range ].
Qed.

(** C1.  For every message sequence and every target sender, each of the
    eight signal scores and the overall weighted score lie in the closed
    interval from 0 to 100, before and after the rounding of the returned
    result, provided the sentiment polarity lies between -1 and 1 as
    TextBlob documents.  This includes the enthusiasm score, which is a
    sum of two terms with no clamp of its own. *)
Theorem scores_in_0_100 (X : Externals) (df : list Message) (target_sender : string) :
  polarity_in_range X ->
  signals_in_0_100 (engagement_signals X df target_sender) /\
  in_0_100 (overall_score (engagement_signals X df target_sender)) /\
  signals_in_0_100
    (signal_breakdown (calculate_overall_interest X df target_sender)) /\
  in_0_100 (overall_percentage (calculate_overall_interest X df target_sender)).
Proof.
  intros HX.
  pose proof (engagement_signals_range X df target_sender HX) as Hs.
  pose proof (overall_score_range _ Hs) as Ho.
  unfold calculate_overall_interest; cbn [signal_breakdown overall_percentage].
  split; [exact Hs|]. split; [exact Ho|]. split.
  - apply round_signals_range; exact Hs.
  - apply round1_range; exact Ho.
Qed.

End Ranges.

Lemma sample_polarity_in_range : polarity_in_range Samples.externals.
Proof.
  intros s. unfold Samples.externals. cbn [polarity].
  destruct (Str.contains "love" (Str.lower s)); split; discriminate.
Qed.

(** The range theorem applied to the three-day sample and its stand-in
    polarity. *)
Lemma scores_in_0_100_witness :
  polarity_in_range Samples.externals /\
  (signals_in_0_100 (engagement_signals Samples.externals Samples.three_days "B") /\
   in_0_100 (overall_score (engagement_signals Samples.externals Samples.three_days "B")) /\
   signals_in_0_100
     (signal_breakdown
        (calculate_overall_interest Samples.externals Samples.three_days "B")) /\
   in_0_100
     (overall_percentage
        (calculate_overall_interest Samples.externals Samples.three_days "B"))).
Proof.
  split.
  - exact sample_polarity_in_range.
  - apply (scores_in_0_100 Samples.externals Samples.three_days "B").
    exact sample_polarity_in_range.
Defined.

(* ===================================================================== *)
(** ** Reciprocity *)
(* ===================================================================== *)

Section Reciprocity.
Local Open Scope Q_scope.

Lemma reciprocity_curve_ideal (ratio : Q) :
  0.8 <= ratio -> ratio <= 1.2 -> reciprocity_curve ratio = 100.
Proof.
  intros H1 H2. unfold reciprocity_curve.
  apply Qleb_le in H1, H2. rewrite H1, H2. reflexivity.
Qed.

Lemma reciprocity_curve_zero (ratio : Q) :
  ratio == 0 -> reciprocity_curve ratio == 20.
Proof.
  intros H. unfold reciprocity_curve.
  repeat (qcase; cbn [andb] in * ); try lra.
  all: qmin 100 (ratio * 70); qmax 20 (Qmin 100 (ratio * 70)); lra.
Qed.

Lemma of_nat_zero_div (n : nat) : of_nat 0 / of_nat n == 0.
Proof. unfold Qdiv. change (of_nat 0) with 0. lra. Qed.

(** C2, as the code has it.  A sequence of fewer than two messages
    scores 50 whoever sent it; from two messages on, a sequence with no
    message of the other party scores 100, a sequence with no message of
    the target scores 20 (the floor of the outer band, not 0), and ten
    messages from each side score 100. *)
Theorem reciprocity_degenerate_and_ideal (df : list Message) (target_sender : string) :
  ((length df < 2)%nat -> analyze_reciprocity df target_sender == 50) /\
  ((2 <= length df)%nat ->
   (length df - length (their_rows df target_sender) = 0)%nat ->
   analyze_reciprocity df target_sender == 100) /\
  ((2 <= length df)%nat ->
   length (their_rows df target_sender) = 0%nat ->
   analyze_reciprocity df target_sender == 20) /\
  (length (their_rows df target_sender) = 10%nat ->
   (length df - length (their_rows df target_sender) = 10)%nat ->
   analyze_reciprocity df target_sender == 100).
Proof.
  unfold analyze_reciprocity. cbv zeta.
  repeat apply conj.
  - intros H. apply Nat.ltb_lt in H. rewrite H. reflexivity.
  - intros H Hyour. apply Nat.ltb_ge in H. rewrite H, Hyour.
    cbn [Nat.eqb].
    assert (Hpos : (0 <? length (their_rows df target_sender))%nat = true).
    { apply Nat.ltb_lt. apply Nat.ltb_ge in H. lia. }
    rewrite Hpos. reflexivity.
  - intros H Htheir. pose proof H as H'. apply Nat.ltb_ge in H. rewrite H, Htheir.
    destruct (length df - 0 =? 0)%nat eqn:E.
    + apply Nat.eqb_eq in E. lia.
    + apply reciprocity_curve_zero, of_nat_zero_div.
  - intros Htheir Hyour.
    assert (H : (length df <? 2)%nat = false) by (apply Nat.ltb_ge; lia).
    rewrite H, Hyour, Htheir. reflexivity.
Qed.

(** The reciprocity theorem on four sample conversations: one message,
    two messages of the target alone, two messages of the other party
    alone, and ten messages from each side. *)
Lemma reciprocity_degenerate_and_ideal_witness :
  analyze_reciprocity Samples.single_from_target "B" == 50 /\
  analyze_reciprocity Samples.only_other "A" == 100 /\
  analyze_reciprocity Samples.only_other "B" == 20 /\
  analyze_reciprocity Samples.ten_each "B" == 100.
Proof.
  split; [|split; [|split]].
  - apply (proj1 (reciprocity_degenerate_and_ideal Samples.single_from_target "B")).
    vm_compute. lia.
  - apply (proj1 (proj2 (reciprocity_degenerate_and_ideal Samples.only_other "A")));
      [vm_compute; lia | reflexivity].
  - apply (proj1 (proj2 (proj2
      (reciprocity_degenerate_and_ideal Samples.only_other "B"))));
      [vm_compute; lia | reflexivity].
  - apply (proj2 (proj2 (proj2
      (reciprocity_degenerate_and_ideal Samples.ten_each "B")))); reflexivity.
Defined.

(** C2, as stated, fails: two messages of the other party and none of the
    target score 20, where the claim says 0; and a single message of the
    target (no message of the other party) scores 50, where the claim
    says 100. *)
Lemma reciprocity_counterexample :
  (length (their_rows Samples.only_other "B") = 0%nat /\
   length Samples.only_other = 2%nat /\
   analyze_reciprocity Samples.only_other "B" == 20 /\
   Qeq_bool (analyze_reciprocity Samples.only_other "B") 0 = false) /\
  (length (their_rows Samples.single_from_target "B") = 1%nat /\
   length Samples.single_from_target = 1%nat /\
   analyze_reciprocity Samples.single_from_target "B" == 50 /\
   Qeq_bool (analyze_reciprocity Samples.single_from_target "B") 100 = false).
Proof. repeat split. Qed.

End Reciprocity.

(* ===================================================================== *)
(** ** Response time *)
(* ===================================================================== *)

Section ResponseTime.
Local Open Scope Q_scope.

Lemma flat_map_seq_shift {A : Type} (g : nat -> list A) (start len : nat) :
  flat_map g (seq (S start) len) = flat_map (fun i => g (S i)) (seq start len).
Proof.
  revert start. induction len as [|len IH]; intros start.
  - reflexivity.
  - cbn [seq flat_map]. rewrite IH. reflexivity.
Qed.

(** The loop over the indices visits exactly the adjacent pairs. *)
Lemma response_times_elapsed (df : list Message) (target_sender : string) :
  response_times df target_sender = Design.elapsed_minutes df target_sender.
Proof.
  unfold response_times.
  induction df as [|a [|b l] IH].
  - reflexivity.
  - reflexivity.
  - replace (length (a :: b :: l) - 1)%nat with (S (length (b :: l) - 1))
      by (cbn [length]; lia).
    cbn [seq flat_map]. rewrite flat_map_seq_shift.
    change (Design.elapsed_minutes (a :: b :: l) target_sender) with
      ((if negb (is_their target_sender a) && is_their target_sender b
        then [total_seconds (timestamp b - timestamp a) / 60] else [])
       ++ Design.elapsed_minutes (b :: l) target_sender).
    rewrite <- IH. reflexivity.
Qed.

Lemma response_time_curve_pieces (m : Q) :
  (m < 5 -> response_time_curve m == 100) /\
  (5 <= m -> m < 30 ->
   response_time_curve m == 100 - (m - 5) * 0.8 /\
   80 < response_time_curve m /\ response_time_curve m <= 100) /\
  (30 <= m -> m < 60 ->
   response_time_curve m == 80 - (m - 30) * 0.67 /\
   59.9 < response_time_curve m /\ response_time_curve m <= 80) /\
  (60 <= m -> m < 180 ->
   response_time_curve m == 60 - (m - 60) * 0.17 /\
   39.6 < response_time_curve m /\ response_time_curve m <= 60) /\
  (180 <= m ->
   response_time_curve m == Qmax 20 (40 - (m - 180) / 60) /\
   20 <= response_time_curve m /\ response_time_curve m <= 40).
Proof.
  unfold response_time_curve. cbv zeta.
  repeat apply conj; intros; repeat qcase; try lra.
  all: unfold Qdiv; try change (/ 60) with (1 # 60).
  all: try match goal with |- context [Qmax 20 ?s] => qmax 20 s end.
  all: match goal with |- context [Qmax 0 ?s] =>
         qmax 0 s; qmin 100 (Qmax 0 s) end; lra.
Qed.

Lemma response_time_curve_compat (x y : Q) :
  x == y -> response_time_curve x == response_time_curve y.
Proof.
  intros H. unfold response_time_curve. cbv zeta.
  repeat qcase; try lra; rewrite H; reflexivity.
Qed.

Lemma mean_singleton (x : Q) : mean [x] == x.
Proof.
  unfold mean. cbn [Qsum length]. change (of_nat 1) with 1.
  unfold Qdiv. change (/ 1) with 1. lra.
Qed.

(** C3.  The comment of the code gives the bands of the curve, 60 to 80
    for 30 to 60 minutes and 40 to 60 for one to three hours, under the
    heading that faster responses score higher, and the claim reads them
    as the straight lines 80 to 60 and 60 to 40.  The slopes 0.67 and
    0.17 of the code miss both.  With a single response of [m] minutes
    (so that the average is [m] itself): from 59.9 minutes up to an hour
    the score is below 60, below the band, below the score of a reply
    after a full hour and below the line of the claim; from 178 minutes
    up to three hours it is below 40, below the band, below the score
    of a reply after three full hours and below the line of the
    claim. *)
Theorem response_time_bands_broken (df : list Message) (target_sender : string)
  (m : Q) :
  response_times df target_sender = [m] ->
  analyze_response_time df target_sender == response_time_curve m /\
  (59.9 <= m -> m < 60 ->
   analyze_response_time df target_sender < 60 /\
   analyze_response_time df target_sender < response_time_curve 60 /\
   60 < Design.response_time_mapping m) /\
  (178 <= m -> m < 180 ->
   analyze_response_time df target_sender < 40 /\
   analyze_response_time df target_sender < response_time_curve 180 /\
   40 < Design.response_time_mapping m).
Proof.
  intros Hm.
  assert (He : analyze_response_time df target_sender == response_time_curve m).
  { unfold analyze_response_time. cbv zeta. rewrite Hm.
    apply response_time_curve_compat, mean_singleton. }
  split; [exact He|].
  assert (H60 : response_time_curve 60 == 60) by reflexivity.
  assert (H180 : response_time_curve 180 == 40) by reflexivity.
  destruct (response_time_curve_pieces m) as (_ & _ & A3 & A4 & _).
  split; intros Hlo Hhi.
  - destruct A3 as (E & _ & _); [lra | lra |].
    rewrite He, H60, E.
    repeat split; try lra.
    unfold Design.response_time_mapping, Design.line. repeat qcase; try lra.
    unfold Qdiv. change (/ (60 - 30)) with (1 # 30). lra.
  - destruct A4 as (E & _ & _); [lra | lra |].
    rewrite He, H180, E.
    repeat split; try lra.
    unfold Design.response_time_mapping, Design.line. repeat qcase; try lra.
    unfold Qdiv. change (/ (180 - 60)) with (1 # 120). lra.
Qed.

(** A reply after 179 minutes scores 39.77; a reply after three full
    hours scores 40. *)
Lemma response_time_bands_broken_witness :
  analyze_response_time Samples.late_reply "B" == 39.77 /\
  analyze_response_time Samples.late_reply "B" < 40 /\
  analyze_response_time Samples.late_reply "B" < response_time_curve 180 /\
  40 < Design.response_time_mapping 179.
Proof.
  assert (Hm : response_times Samples.late_reply "B" = [10740000000 # 60000000])
    by reflexivity.
  pose proof (response_time_bands_broken Samples.late_reply "B" _ Hm) as H.
  destruct H as (_ & _ & H).
  destruct H as (H1 & H2 & H3); [discriminate | reflexivity |].
  split; [reflexivity|].
  split; [exact H1|]. split; [exact H2|].
  exact H3.
Defined.

End ResponseTime.

(* ===================================================================== *)
(** ** Loading and sorting *)
(* ===================================================================== *)

Section SortFacts.
Context {A : Type} (key : A -> Z).
Local Abbreviation less := (Numpy.less key).
Local Abbreviation swap := (@Numpy.swap A).
Local Abbreviation le_key := (Numpy.le_key key).
Local Abbreviation by_key := (Numpy.by_key key).
Local Abbreviation heap_at := (Numpy.heap_at key).
Local Abbreviation heap_from := (Numpy.heap_from key).

Lemma less_lt (x y : A) : less x y = true <-> (key x < key y)%Z.
Proof. unfold Numpy.less. apply Z.ltb_lt. Qed.

Lemma less_ge (x y : A) : less x y = false <-> (key y <= key x)%Z.
Proof. unfold Numpy.less. apply Z.ltb_ge. Qed.

Lemma sorted_app (R : A -> A -> Prop) (l1 l2 : list A) :
  StronglySorted R l1 -> StronglySorted R l2 ->
  (forall x y, In x l1 -> In y l2 -> R x y) ->
  StronglySorted R (l1 ++ l2).
Proof.
  intros H1 H2 H. induction H1 as [|x l1 Hs IH Hx]; [exact H2|].
  cbn [app]. constructor.
  - apply IH. intros u v Hu Hv. apply H; [right; exact Hu | exact Hv].
  - apply Forall_app. split; [exact Hx|].
    apply Forall_forall. intros y Hy. apply list_elem_of_In in Hy.
    apply H; [left; reflexivity | exact Hy].
Qed.

Lemma sorted_rev (R : A -> A -> Prop) (l : list A) :
  StronglySorted (fun x y => R y x) l -> StronglySorted R (rev l).
Proof.
  induction 1 as [|x l Hs IH Hx]; [constructor|].
  cbn [rev]. apply sorted_app; [exact IH | repeat constructor |].
  intros u v Hu [<-|[]]. apply in_rev in Hu.
  rewrite Forall_forall in Hx. apply Hx, list_elem_of_In, Hu.
Qed.

(** *** Writing into a list *)

Lemma insert_perm (a : list A) (i : nat) (x y : A) :
  a !! i = Some x -> Permutation (x :: <[i := y]> a) (y :: a).
Proof.
  revert i. induction a as [|z a IH]; intros i Hi; [discriminate|].
  destruct i as [|i]; cbn in *.
  - injection Hi as ->. apply perm_swap.
  - rewrite perm_swap. rewrite (IH i Hi). apply perm_swap.
Qed.

Lemma swap_length (i j : nat) (a : list A) : length (swap i j a) = length a.
Proof.
  unfold Numpy.swap. destruct (a !! i), (a !! j); try reflexivity.
  rewrite !length_insert. reflexivity.
Qed.

Lemma swap_perm (i j : nat) (a : list A) : Permutation (swap i j a) a.
Proof.
  unfold Numpy.swap.
  destruct (a !! i) as [x|] eqn:Ei; [|reflexivity].
  destruct (a !! j) as [y|] eqn:Ej; [|reflexivity].
  apply (Permutation_cons_inv (a := y)).
  assert (Hj : <[i := y]> a !! j = Some y).
  { destruct (decide (i = j)) as [->|Hne].
    - apply list_lookup_insert_eq. eapply lookup_lt_Some, Ei.
    - rewrite list_lookup_insert_ne by exact Hne. exact Ej. }
  rewrite (insert_perm _ j y x Hj). apply insert_perm, Ei.
Qed.

Lemma swap_lookup (i j k : nat) (a : list A) :
  i < length a -> j < length a ->
  swap i j a !! k
  = if decide (k = j) then a !! i else if decide (k = i) then a !! j else a !! k.
Proof.
  intros Hi Hj. unfold Numpy.swap.
  destruct (lookup_lt_is_Some_2 a i Hi) as [x Ex].
  destruct (lookup_lt_is_Some_2 a j Hj) as [y Ey].
  rewrite Ex, Ey.
  destruct (decide (k = j)) as [->|Hkj].
  - rewrite list_lookup_insert_eq by (rewrite length_insert; exact Hj). reflexivity.
  - rewrite list_lookup_insert_ne by congruence.
    destruct (decide (k = i)) as [->|Hki].
    + rewrite list_lookup_insert_eq by exact Hi. reflexivity.
    + rewrite list_lookup_insert_ne by congruence. reflexivity.
Qed.

(** *** The insertion sort *)

Lemma shift_in_perm (vi : A) (before : list A) :
  Permutation (Numpy.shift_in key vi before) (vi :: before).
Proof.
  induction before as [|y before IH]; cbn; [reflexivity|].
  destruct (less vi y); [|reflexivity].
  rewrite IH. apply perm_swap.
Qed.

Lemma shift_in_sorted (vi : A) (before : list A) :
  StronglySorted (fun x y => le_key y x) before ->
  StronglySorted (fun x y => le_key y x) (Numpy.shift_in key vi before).
Proof.
  induction 1 as [|y before Hs IH Hy]; cbn; [repeat constructor|].
  destruct (less vi y) eqn:E.
  - constructor; [exact IH|].
    apply less_lt in E.
    rewrite (Forall_forall (fun x => le_key x y)).
    intros x Hx. apply list_elem_of_In in Hx.
    apply (Permutation_in _ (shift_in_perm vi before)) in Hx.
    destruct Hx as [<-|Hx]; [unfold Numpy.le_key; lia|].
    rewrite Forall_forall in Hy. apply Hy, list_elem_of_In, Hx.
  - apply less_ge in E. constructor; [constructor; assumption|].
    constructor; [exact E|].
    eapply Forall_impl; [exact Hy|]. cbn. unfold Numpy.le_key. intros; lia.
Qed.

Lemma insertion_fold (a before : list A) :
  StronglySorted (fun x y => le_key y x) before ->
  StronglySorted (fun x y => le_key y x)
    (fold_left (fun before vi => Numpy.shift_in key vi before) a before) /\
  Permutation (fold_left (fun before vi => Numpy.shift_in key vi before) a before)
              (rev a ++ before).
Proof.
  revert before. induction a as [|x a IH]; intros before Hb; cbn [fold_left rev].
  - split; [exact Hb | reflexivity].
  - destruct (IH _ (shift_in_sorted x before Hb)) as [Hs Hp].
    split; [exact Hs|].
    rewrite Hp, shift_in_perm, <- app_assoc. reflexivity.
Qed.

Lemma insertion_sort_sorted (a : list A) : by_key (Numpy.insertion_sort key a).
Proof.
  unfold Numpy.insertion_sort. apply sorted_rev.
  apply (insertion_fold a []). constructor.
Qed.

Lemma insertion_sort_perm (a : list A) :
  Permutation (Numpy.insertion_sort key a) a.
Proof.
  unfold Numpy.insertion_sort. rewrite <- Permutation_rev.
  destruct (insertion_fold a []) as [_ Hp]; [constructor|].
  rewrite Hp, app_nil_r. symmetry. apply Permutation_rev.
Qed.

Lemma swap_if_less_length (i j : nat) (a : list A) :
  length (Numpy.swap_if_less key i j a) = length a.
Proof.
  unfold Numpy.swap_if_less. destruct (a !! i), (a !! j); try reflexivity.
  destruct (less _ _); [apply swap_length | reflexivity].
Qed.

Lemma swap_if_less_perm (i j : nat) (a : list A) :
  Permutation (Numpy.swap_if_less key i j a) a.
Proof.
  unfold Numpy.swap_if_less. destruct (a !! i), (a !! j); try reflexivity.
  destruct (less _ _); [apply swap_perm | reflexivity].
Qed.

(** After the guarded swap the row at [j] is not above the row at [i];
    the two rows are the two rows of before, and no other position
    changes. *)
Lemma swap_if_less_spec (i j : nat) (a : list A) (x y : A) :
  i <> j -> a !! i = Some x -> a !! j = Some y ->
  exists x' y',
    Numpy.swap_if_less key i j a !! i = Some x' /\
    Numpy.swap_if_less key i j a !! j = Some y' /\
    (key y' <= key x')%Z /\
    ((x' = x /\ y' = y) \/ (x' = y /\ y' = x)) /\
    (forall k, k <> i -> k <> j -> Numpy.swap_if_less key i j a !! k = a !! k).
Proof.
  intros Hne Hi Hj.
  pose proof (lookup_lt_Some _ _ _ Hi) as Li.
  pose proof (lookup_lt_Some _ _ _ Hj) as Lj.
  unfold Numpy.swap_if_less. rewrite Hi, Hj.
  destruct (less x y) eqn:E.
  - exists y, x. apply less_lt in E.
    rewrite !swap_lookup by assumption.
    rewrite decide_False by exact Hne. rewrite decide_True by reflexivity.
    rewrite decide_True by reflexivity.
    repeat split; try assumption; [lia | right; split; reflexivity |].
    intros k Hki Hkj. rewrite swap_lookup by assumption.
    rewrite decide_False by exact Hkj. rewrite decide_False by exact Hki.
    reflexivity.
  - exists x, y. apply less_ge in E.
    repeat split; try assumption. left; split; reflexivity.
Qed.

Lemma scan_up_spec (vp : A) (a : list A) (fuel start q : nat) (xq : A) :
  start <= q -> q < start + fuel ->
  a !! q = Some xq -> (key vp <= key xq)%Z ->
  start <= Numpy.scan_up key vp a start fuel <= q /\
  (exists y, a !! Numpy.scan_up key vp a start fuel = Some y /\
             (key vp <= key y)%Z) /\
  (forall k x, start <= k < Numpy.scan_up key vp a start fuel ->
               a !! k = Some x -> (key x < key vp)%Z).
Proof.
  revert start. induction fuel as [|fuel IH]; intros start Hle Hlt Hq Hk; [lia|].
  cbn [Numpy.scan_up].
  destruct (a !! start) as [x|] eqn:E.
  - destruct (less x vp) eqn:L.
    + apply less_lt in L.
      assert (Hne : start <> q).
      { intros ->. rewrite Hq in E. injection E as ->. lia. }
      destruct (IH (S start)) as (R1 & R2 & R3); try assumption; try lia.
      split; [lia|]. split; [exact R2|].
      intros k z Hk' Hz. destruct (decide (k = start)) as [->|Hks].
      * rewrite E in Hz. injection Hz as <-. exact L.
      * apply (R3 k z); [lia | exact Hz].
    + apply less_ge in L. split; [lia|].
      split; [exists x; split; assumption|]. intros; lia.
  - apply lookup_ge_None in E. apply lookup_lt_Some in Hq. lia.
Qed.

Lemma scan_down_spec (vp : A) (a : list A) (start q : nat) (xq : A) :
  q <= start -> start < length a ->
  a !! q = Some xq -> (key xq <= key vp)%Z ->
  q <= Numpy.scan_down key vp a start <= start /\
  (exists y, a !! Numpy.scan_down key vp a start = Some y /\
             (key y <= key vp)%Z) /\
  (forall k x, Numpy.scan_down key vp a start < k <= start ->
               a !! k = Some x -> (key vp < key x)%Z).
Proof.
  induction start as [|start IH]; intros Hle Hlt Hq Hk; cbn [Numpy.scan_down].
  - assert (q = 0) as -> by lia.
    split; [lia|]. split; [exists xq; split; assumption|]. intros; lia.
  - destruct (lookup_lt_is_Some_2 a (S start) Hlt) as [x E]. rewrite E.
    destruct (less vp x) eqn:L.
    + apply less_lt in L.
      assert (Hne : S start <> q).
      { intros <-. rewrite Hq in E. injection E as ->. lia. }
      destruct IH as (R1 & R2 & R3); try assumption; try lia.
      split; [lia|]. split; [exact R2|].
      intros k z Hk' Hz. destruct (decide (k = S start)) as [->|Hks].
      * rewrite E in Hz. injection Hz as <-. exact L.
      * apply (R3 k z); [lia | exact Hz].
    + apply less_ge in L. split; [lia|].
      split; [exists x; split; assumption|]. intros; lia.
Qed.

(** The crossing scans: rows up to [pi] are not above the pivot, rows
    from [pj] on are not below it, and the loop ends with the array cut
    in two at the returned position. *)
Lemma cross_spec (vp : A) (fuel : nat) :
  forall (a : list A) (pi pj : nat) (a' : list A) (pi' : nat),
    pi < pj -> pj < length a -> pj - pi <= fuel ->
    (forall k x, k <= pi -> a !! k = Some x -> (key x <= key vp)%Z) ->
    (forall k x, pj <= k -> a !! k = Some x -> (key vp <= key x)%Z) ->
    Numpy.cross key fuel vp a pi pj = (a', pi') ->
    length a' = length a /\
    Permutation a' a /\
    (forall k, pj <= k -> a' !! k = a !! k) /\
    pi < pi' <= pj /\
    (forall k x, k < pi' -> a' !! k = Some x -> (key x <= key vp)%Z) /\
    (forall k x, pi' <= k -> a' !! k = Some x -> (key vp <= key x)%Z).
Proof.
  induction fuel as [|fuel IH]; intros a pi pj a' pi' Hlt Hlen Hfuel I1 I2 Hc;
    [lia|].
  cbn [Numpy.cross] in Hc. cbv zeta in Hc.
  destruct (lookup_lt_is_Some_2 a pj Hlen) as [xj Ej].
  destruct (lookup_lt_is_Some_2 a pi ltac:(lia)) as [xi Ei].
  destruct (scan_up_spec vp a (length a) (S pi) pj xj) as (U1 & (yu & Eu & Ku) & U3);
    try assumption; try lia.
  { apply (I2 pj xj); [lia | exact Ej]. }
  destruct (scan_down_spec vp a (pj - 1) pi xi) as (D1 & (yd & Ed & Kd) & D3);
    try assumption; try lia.
  { apply (I1 pi xi); [lia | exact Ei]. }
  set (pu := Numpy.scan_up key vp a (S pi) (length a)) in *.
  set (pd := Numpy.scan_down key vp a (pj - 1)) in *.
  destruct (pd <=? pu) eqn:Hcmp.
  - apply Nat.leb_le in Hcmp. injection Hc as <- <-.
    split; [reflexivity|]. split; [reflexivity|].
    split; [reflexivity|]. split; [lia|]. split.
    + intros k x Hk Hx. destruct (decide (k <= pi)) as [Hki|Hki].
      * apply (I1 k x Hki Hx).
      * assert (key x < key vp)%Z by (apply (U3 k x); [lia | exact Hx]). lia.
    + intros k x Hk Hx. destruct (decide (k = pu)) as [->|Hne].
      * rewrite Eu in Hx. injection Hx as <-. exact Ku.
      * destruct (decide (pj <= k)) as [Hkj|Hkj]; [apply (I2 k x Hkj Hx)|].
        assert (key vp < key x)%Z by (apply (D3 k x); [lia | exact Hx]). lia.
  - apply Nat.leb_gt in Hcmp.
    assert (Lu : pu < length a) by lia.
    assert (Ld : pd < length a) by lia.
    destruct (IH (swap pu pd a) pu pd a' pi') as (R1 & R2 & R3 & R4 & R5 & R6);
      try assumption; try lia.
    + rewrite swap_length. exact Ld.
    + intros k x Hk Hx. rewrite swap_lookup in Hx by assumption.
      destruct (decide (k = pd)) as [->|Hkd]; [lia|].
      destruct (decide (k = pu)) as [->|Hku].
      * rewrite Ed in Hx. injection Hx as <-. exact Kd.
      * destruct (decide (k <= pi)) as [Hki|Hki]; [apply (I1 k x Hki Hx)|].
        assert (key x < key vp)%Z by (apply (U3 k x); [lia | exact Hx]). lia.
    + intros k x Hk Hx. rewrite swap_lookup in Hx by assumption.
      destruct (decide (k = pd)) as [->|Hkd].
      * rewrite Eu in Hx. injection Hx as <-. exact Ku.
      * destruct (decide (k = pu)) as [->|Hku]; [lia|].
        destruct (decide (pj <= k)) as [Hkj|Hkj]; [apply (I2 k x Hkj Hx)|].
        assert (key vp < key x)%Z by (apply (D3 k x); [lia | exact Hx]). lia.
    + rewrite swap_length in R1.
      split; [exact R1|]. split; [rewrite R2; apply swap_perm|].
      split.
      { intros k Hk. rewrite R3 by lia. rewrite swap_lookup by assumption.
        rewrite decide_False by lia. rewrite decide_False by lia. reflexivity. }
      split; [lia|]. split; assumption.
Qed.

(** One partition of a range of at least four rows: the rows are those
    of before, none below the pivot is above it, none above it is below
    it. *)
Lemma partition_spec (a below above : list A) (p : option A) :
  4 <= length a ->
  Numpy.partition key a = (below, p, above) ->
  exists vp,
    p = Some vp /\
    Permutation a (below ++ vp :: above) /\
    Forall (fun x => (key x <= key vp)%Z) below /\
    Forall (fun x => (key vp <= key x)%Z) above.
Proof.
  intros Hn. unfold Numpy.partition. cbv zeta.
  set (pr := length a - 1). set (pm := pr / 2).
  assert (Hpm : 0 < pm /\ pm < pr - 1).
  { unfold pm. split.
    - apply Nat.div_str_pos. lia.
    - apply Nat.Div0.div_lt_upper_bound. lia. }
  (* the median of three *)
  destruct (lookup_lt_is_Some_2 a 0 ltac:(lia)) as [x0 E0].
  destruct (lookup_lt_is_Some_2 a pm ltac:(lia)) as [xm Em].
  destruct (lookup_lt_is_Some_2 a pr ltac:(lia)) as [xr Er].
  destruct (swap_if_less_spec pm 0 a xm x0) as (m1 & z1 & Em1 & Ez1 & K1 & C1 & O1);
    try assumption; try lia.
  set (a1 := Numpy.swap_if_less key pm 0 a) in *.
  assert (L1 : length a1 = length a) by apply swap_if_less_length.
  assert (Er1 : a1 !! pr = Some xr) by (rewrite O1 by lia; exact Er).
  destruct (swap_if_less_spec pr pm a1 xr m1) as (r2 & m2 & Er2 & Em2 & K2 & C2 & O2);
    try assumption; try lia.
  set (a2 := Numpy.swap_if_less key pr pm a1) in *.
  assert (L2 : length a2 = length a) by (unfold a2; rewrite swap_if_less_length; exact L1).
  assert (Ez2 : a2 !! 0 = Some z1) by (rewrite O2 by lia; exact Ez1).
  destruct (swap_if_less_spec pm 0 a2 m2 z1) as (m3 & z3 & Em3 & Ez3 & K3 & C3 & O3);
    try assumption; try lia.
  set (a3 := Numpy.swap_if_less key pm 0 a2) in *.
  assert (L3 : length a3 = length a) by (unfold a3; rewrite swap_if_less_length; exact L2).
  assert (Er3 : a3 !! pr = Some r2) by (rewrite O3 by lia; exact Er2).
  assert (Kr : (key m3 <= key r2)%Z).
  { destruct C3 as [[-> ->]|[-> ->]]; [exact K2|].
    destruct C2 as [[-> ->]|[-> ->]]; lia. }
  rewrite Em3.
  (* the pivot parked at pr - 1 *)
  set (a4 := swap pm (pr - 1) a3).
  assert (L4 : length a4 = length a) by (unfold a4; rewrite swap_length; exact L3).
  assert (E4 : forall k, a4 !! k
               = if decide (k = pr - 1) then a3 !! pm
                 else if decide (k = pm) then a3 !! (pr - 1) else a3 !! k).
  { intros k. unfold a4. apply swap_lookup; lia. }
  destruct (Numpy.cross key (length a4) m3 a4 0 (pr - 1)) as [a5 pi] eqn:Hc.
  destruct (cross_spec m3 (length a4) a4 0 (pr - 1) a5 pi)
    as (L5 & P5 & F5 & Hpi & B5 & U5); try assumption; try lia.
  { intros k x Hk Hx. assert (k = 0) as -> by lia.
    rewrite E4 in Hx. rewrite decide_False in Hx by lia.
    rewrite decide_False in Hx by lia. rewrite Ez3 in Hx.
    injection Hx as <-. exact K3. }
  { intros k x Hk Hx. rewrite E4 in Hx.
    destruct (decide (k = pr - 1)) as [->|Hk1].
    - rewrite Em3 in Hx. injection Hx as <-. lia.
    - rewrite decide_False in Hx by lia.
      assert (k = pr) as ->.
      { apply lookup_lt_Some in Hx. lia. }
      rewrite Er3 in Hx. injection Hx as <-. exact Kr. }
  (* the pivot put in place *)
  assert (Ep : a5 !! (pr - 1) = Some m3).
  { rewrite F5 by lia. rewrite E4. rewrite decide_True by reflexivity. exact Em3. }
  destruct (lookup_lt_is_Some_2 a5 pi ltac:(lia)) as [xi Ei].
  set (a6 := swap pi (pr - 1) a5).
  assert (E6 : forall k, a6 !! k
               = if decide (k = pr - 1) then a5 !! pi
                 else if decide (k = pi) then a5 !! (pr - 1) else a5 !! k).
  { intros k. unfold a6. apply swap_lookup; lia. }
  assert (Epi : a6 !! pi = Some m3).
  { rewrite E6. destruct (decide (pi = pr - 1)) as [Heq|Hne].
    - rewrite Heq in *. exact Ep.
    - rewrite decide_True by reflexivity. exact Ep. }
  intros H. injection H as <- <- <-.
  exists m3. split; [exact Epi|]. split; [|split].
  - rewrite (take_drop_middle a6 pi m3 Epi).
    unfold a6. rewrite swap_perm, P5. unfold a4. rewrite swap_perm.
    unfold a3. rewrite swap_if_less_perm. unfold a2. rewrite swap_if_less_perm.
    unfold a1. rewrite swap_if_less_perm. reflexivity.
  - apply Forall_lookup. intros k x Hx.
    apply lookup_take_Some in Hx. destruct Hx as [Hx Hk].
    rewrite E6 in Hx. rewrite decide_False in Hx by lia.
    rewrite decide_False in Hx by lia. apply (B5 k x Hk Hx).
  - apply Forall_lookup. intros k x Hx.
    rewrite lookup_drop in Hx. rewrite E6 in Hx.
    destruct (decide (S pi + k = pr - 1)) as [Heq|Hne].
    + rewrite Ei in Hx. injection Hx as <-. apply (U5 pi xi); [lia | exact Ei].
    + rewrite decide_False in Hx by lia. apply (U5 (S pi + k) x); [lia | exact Hx].
Qed.

(** Writing [tmp] at [i] when it fits there. *)
Lemma sift_stop (lo n i : nat) (tmp : A) (a : list A) :
  i < length a ->
  (forall i', lo <= i' -> i' <> i -> heap_at n a i') ->
  (forall p x, lo <= p -> i = 2 * p + 1 \/ i = 2 * p + 2 ->
               a !! p = Some x -> (key tmp <= key x)%Z) ->
  (forall c y, c = 2 * i + 1 \/ c = 2 * i + 2 -> c < n ->
               a !! c = Some y -> (key y <= key tmp)%Z) ->
  heap_from lo n (<[i := tmp]> a).
Proof.
  intros Hi H2 H3 Hc i' Hlo c x y Hch Hcn Hx Hy.
  destruct (decide (i' = i)) as [->|Hne].
  - rewrite list_lookup_insert_eq in Hx by exact Hi. injection Hx as <-.
    rewrite list_lookup_insert_ne in Hy by lia.
    apply (Hc c y Hch Hcn Hy).
  - rewrite list_lookup_insert_ne in Hx by congruence.
    destruct (decide (c = i)) as [->|Hci].
    + rewrite list_lookup_insert_eq in Hy by exact Hi. injection Hy as <-.
      apply (H3 i' x Hlo Hch Hx).
    + rewrite list_lookup_insert_ne in Hy by congruence.
      apply (H2 i' Hlo Hne c x y Hch Hcn Hx Hy).
Qed.

Lemma sift_down_spec (lo n : nat) (tmp : A) (fuel : nat) :
  forall (a : list A) (i j : nat),
    n <= length a -> lo <= i -> i < n -> j = 2 * i + 1 -> n - i <= fuel ->
    (forall i', lo <= i' -> i' <> i -> heap_at n a i') ->
    (forall p x, lo <= p -> i = 2 * p + 1 \/ i = 2 * p + 2 ->
                 a !! p = Some x ->
                 (key tmp <= key x)%Z /\
                 (forall c y, c = 2 * i + 1 \/ c = 2 * i + 2 -> c < n ->
                              a !! c = Some y -> (key y <= key x)%Z)) ->
    length (Numpy.sift_down key fuel tmp n a i j) = length a /\
    heap_from lo n (Numpy.sift_down key fuel tmp n a i j) /\
    (forall x0, a !! i = Some x0 ->
                Permutation (x0 :: Numpy.sift_down key fuel tmp n a i j) (tmp :: a)) /\
    (forall k, n <= k -> Numpy.sift_down key fuel tmp n a i j !! k = a !! k).
Proof.
  induction fuel as [|fuel IH]; intros a i j Hn Hlo Hi -> Hfuel H2 H3; [lia|].
  assert (Stop : (forall c y, c = 2 * i + 1 \/ c = 2 * i + 2 -> c < n ->
                              a !! c = Some y -> (key y <= key tmp)%Z) ->
                 length (<[i := tmp]> a) = length a /\
                 heap_from lo n (<[i := tmp]> a) /\
                 (forall x0, a !! i = Some x0 ->
                             Permutation (x0 :: <[i := tmp]> a) (tmp :: a)) /\
                 (forall k, n <= k -> <[i := tmp]> a !! k = a !! k)).
  { intros Hc. split; [apply length_insert|]. split.
    - apply sift_stop; try assumption; [lia|].
      intros p x Hp Hch Hx. apply (H3 p x Hp Hch Hx).
    - split; [intros x0 Hx0; apply insert_perm, Hx0|].
      intros k Hk. apply list_lookup_insert_ne. lia. }
  cbn [Numpy.sift_down].
  destruct (2 * i + 1 <? n) eqn:Hj.
  2:{ apply Nat.ltb_ge in Hj. apply Stop. intros c y Hch Hcn. lia. }
  apply Nat.ltb_lt in Hj. cbv zeta.
  set (j' := if (S (2 * i + 1) <? n) && Numpy.less_at key a (2 * i + 1) (S (2 * i + 1))
             then S (2 * i + 1) else 2 * i + 1).
  assert (Hj' : (j' = 2 * i + 1 \/ j' = 2 * i + 2) /\ j' < n /\
                forall c y z, c = 2 * i + 1 \/ c = 2 * i + 2 -> c < n ->
                              a !! c = Some y -> a !! j' = Some z ->
                              (key y <= key z)%Z).
  { unfold j'.
    destruct (S (2 * i + 1) <? n) eqn:Hs; cbn [andb].
    - apply Nat.ltb_lt in Hs.
      destruct (lookup_lt_is_Some_2 a (2 * i + 1) ltac:(lia)) as [u Eu].
      destruct (lookup_lt_is_Some_2 a (S (2 * i + 1)) ltac:(lia)) as [v Ev].
      unfold Numpy.less_at. rewrite Eu, Ev.
      destruct (less u v) eqn:L.
      + apply less_lt in L. split; [right; lia|]. split; [lia|].
        intros c y z [->| ->] _ Hy Hz.
        * rewrite Eu in Hy. rewrite Ev in Hz.
          injection Hy as <-. injection Hz as <-. lia.
        * replace (2 * i + 2) with (S (2 * i + 1)) in Hy by lia.
          rewrite Ev in Hy, Hz. injection Hy as <-. injection Hz as <-. lia.
      + apply less_ge in L. split; [left; reflexivity|]. split; [lia|].
        intros c y z [->| ->] _ Hy Hz.
        * rewrite Eu in Hy, Hz. injection Hy as <-. injection Hz as <-. lia.
        * replace (2 * i + 2) with (S (2 * i + 1)) in Hy by lia.
          rewrite Ev in Hy. rewrite Eu in Hz.
          injection Hy as <-. injection Hz as <-. lia.
    - apply Nat.ltb_ge in Hs. split; [left; reflexivity|]. split; [lia|].
      intros c y z [->| ->] Hcn Hy Hz; [|lia].
      rewrite Hy in Hz. injection Hz as <-. lia. }
  destruct Hj' as (Hjc & Hjn & Hmax).
  destruct (lookup_lt_is_Some_2 a j' ltac:(lia)) as [c Ec]. rewrite Ec.
  destruct (less tmp c) eqn:L.
  2:{ apply less_ge in L. apply Stop. intros c' y Hch Hcn Hy.
      pose proof (Hmax c' y c Hch Hcn Hy Ec). lia. }
  apply less_lt in L.
  replace (j' + (j' + 0) + 1) with (2 * j' + 1) by lia.
  assert (Hi' : i < length a) by lia.
  destruct (IH (<[i := c]> a) j' (2 * j' + 1)) as (R1 & R2 & R3 & R4);
    try (rewrite ?length_insert; lia).
  - intros i' Hlo' Hne c' x y Hch Hcn Hx Hy.
    destruct (decide (i' = i)) as [->|Hni].
    + rewrite list_lookup_insert_eq in Hx by exact Hi'. injection Hx as <-.
      rewrite list_lookup_insert_ne in Hy by lia.
      apply (Hmax c' y c Hch Hcn Hy Ec).
    + rewrite list_lookup_insert_ne in Hx by congruence.
      destruct (decide (c' = i)) as [->|Hci].
      * rewrite list_lookup_insert_eq in Hy by exact Hi'. injection Hy as <-.
        destruct (H3 i' x Hlo' Hch Hx) as [_ Hk].
        apply (Hk j' c Hjc Hjn Ec).
      * rewrite list_lookup_insert_ne in Hy by congruence.
        apply (H2 i' Hlo' Hni c' x y Hch Hcn Hx Hy).
  - intros p x Hp Hch Hx.
    assert (p = i) as -> by lia.
    rewrite list_lookup_insert_eq in Hx by exact Hi'. injection Hx as <-.
    split; [lia|].
    intros c' y Hch' Hcn Hy.
    rewrite list_lookup_insert_ne in Hy by lia.
    apply (H2 j' ltac:(lia) ltac:(lia) c' c y Hch' Hcn Ec Hy).
  - rewrite length_insert in R1.
    split; [exact R1|]. split; [exact R2|]. split.
    + intros x0 Hx0.
      assert (Ec' : <[i := c]> a !! j' = Some c)
        by (rewrite list_lookup_insert_ne by lia; exact Ec).
      pose proof (R3 c Ec') as P1.
      pose proof (insert_perm a i x0 c Hx0) as P2.
      apply (Permutation_cons_inv (a := c)).
      rewrite (perm_swap x0 c), P1.
      rewrite (perm_swap tmp x0), P2. apply perm_swap.
    + intros k Hk. rewrite R4 by exact Hk.
      apply list_lookup_insert_ne. lia.
Qed.

Lemma build_heap_spec (n : nat) (l : nat) :
  forall a : list A,
    n <= length a -> l <= n -> heap_from l n a ->
    length (Numpy.build_heap key l n a) = length a /\
    heap_from 0 n (Numpy.build_heap key l n a) /\
    Permutation (Numpy.build_heap key l n a) a /\
    (forall k, n <= k -> Numpy.build_heap key l n a !! k = a !! k).
Proof.
  induction l as [|l IH]; intros a Hn Hl Hh; cbn [Numpy.build_heap].
  - repeat split; try reflexivity. exact Hh.
  - destruct (lookup_lt_is_Some_2 a l ltac:(lia)) as [tmp Et]. rewrite Et.
    destruct (sift_down_spec l n tmp n a l (2 * l + 1)) as (R1 & R2 & R3 & R4);
      try lia.
    + intros i' Hlo Hne. apply Hh. lia.
    + destruct (IH (Numpy.sift_down key n tmp n a l (2 * l + 1)))
        as (S1 & S2 & S3 & S4); try lia; [exact R2|].
      split; [lia|]. split; [exact S2|]. split.
      * rewrite S3. apply (Permutation_cons_inv (a := tmp)). apply R3, Et.
      * intros k Hk. rewrite S4, R4 by exact Hk. reflexivity.
Qed.

(** The first row of a heap is not below any of its rows. *)
Lemma heap_root (n : nat) (a : list A) (top : A) :
  heap_from 0 n a -> a !! 0 = Some top ->
  forall k x, k < n -> a !! k = Some x -> (key x <= key top)%Z.
Proof.
  intros Hh Ht k. induction k as [k IH] using lt_wf_ind. intros x Hk Hx.
  destruct k as [|k].
  - rewrite Ht in Hx. injection Hx as <-. lia.
  - set (p := k / 2).
    assert (Hp : S k = 2 * p + 1 \/ S k = 2 * p + 2).
    { unfold p. pose proof (Nat.div_mod_eq k 2).
      pose proof (Nat.mod_upper_bound k 2). lia. }
    assert (Hpk : p < S k) by lia.
    destruct (lookup_lt_is_Some_2 a p) as [y Ey].
    { apply lookup_lt_Some in Hx. lia. }
    pose proof (IH p Hpk y ltac:(lia) Ey).
    pose proof (Hh p ltac:(lia) (S k) y x Hp Hk Ey Hx). lia.
Qed.

Lemma drain_heap_spec (n : nat) :
  forall a : list A,
    n <= length a -> heap_from 0 n a ->
    by_key (drop n a) ->
    (forall x y, In x (take n a) -> In y (drop n a) -> (key x <= key y)%Z) ->
    by_key (Numpy.drain_heap key n a) /\
    Permutation (Numpy.drain_heap key n a) a.
Proof.
  induction n as [|n IH]; intros a Hn Hh Hs Hle; cbn [Numpy.drain_heap].
  - rewrite drop_0 in Hs. split; [exact Hs | reflexivity].
  - destruct (n =? 0) eqn:E0.
    + apply Nat.eqb_eq in E0. subst n. split; [|reflexivity].
      rewrite <- (take_drop 1 a). apply sorted_app; [|exact Hs|].
      * destruct a as [|x a]; [constructor|]. cbn. repeat constructor.
      * intros x y Hx Hy. apply (Hle x y Hx Hy).
    + apply Nat.eqb_neq in E0.
      destruct (lookup_lt_is_Some_2 a n ltac:(lia)) as [tmp Et].
      destruct (lookup_lt_is_Some_2 a 0 ltac:(lia)) as [top E1].
      rewrite Et, E1.
      set (a1 := <[n := top]> a).
      assert (L1 : length a1 = length a) by apply length_insert.
      destruct (sift_down_spec 0 n tmp n a1 0 1) as (R1 & R2 & R3 & R4);
        try lia.
      { intros i' _ Hne c x y Hch Hcn Hx Hy. unfold a1 in Hx, Hy.
        rewrite list_lookup_insert_ne in Hx by lia.
        rewrite list_lookup_insert_ne in Hy by lia.
        apply (Hh i' ltac:(lia) c x y Hch ltac:(lia) Hx Hy). }
      set (b := Numpy.sift_down key n tmp n a1 0 1) in *.
      assert (Pb : Permutation b a).
      { apply (Permutation_cons_inv (a := top)).
        rewrite (R3 top).
        - unfold a1. apply insert_perm, Et.
        - unfold a1. rewrite list_lookup_insert_ne by lia. exact E1. }
      assert (Db : drop n b = top :: drop (S n) a).
      { apply list_eq. intros k. rewrite lookup_drop, R4 by lia.
        unfold a1. destruct k as [|k].
        - rewrite Nat.add_0_r, list_lookup_insert_eq by lia. reflexivity.
        - rewrite list_lookup_insert_ne by lia.
          change ((top :: drop (S n) a) !! S k) with (drop (S n) a !! k).
          rewrite lookup_drop. f_equal. lia. }
      assert (Top : forall x, In x (take (S n) a) -> (key x <= key top)%Z).
      { intros x Hx. apply list_elem_of_In, list_elem_of_lookup in Hx.
        destruct Hx as [k Hk]. apply lookup_take_Some in Hk.
        destruct Hk as [Hk Hlt]. apply (heap_root (S n) a top Hh E1 k x Hlt Hk). }
      assert (Tb : Permutation (take n b ++ [top]) (take (S n) a)).
      { apply (Permutation_app_inv_r (drop (S n) a)).
        rewrite <- app_assoc. cbn [app]. rewrite <- Db.
        rewrite !take_drop. exact Pb. }
      destruct (IH b) as [S1 S2]; try lia.
      * exact R2.
      * rewrite Db. constructor; [exact Hs|].
        apply Forall_forall. intros y Hy. apply list_elem_of_In in Hy.
        apply (Hle top y); [|exact Hy].
        apply list_elem_of_In. apply list_elem_of_lookup. exists 0.
        apply lookup_take_Some. split; [exact E1 | lia].
      * intros x y Hx Hy. rewrite Db in Hy.
        assert (Hxa : In x (take (S n) a)).
        { apply (Permutation_in _ Tb). apply in_or_app. left. exact Hx. }
        destruct Hy as [<-|Hy]; [apply Top, Hxa | apply (Hle x y Hxa Hy)].
      * split; [exact S1|]. rewrite S2. exact Pb.
Qed.

Lemma aheapsort_sorted (a : list A) : by_key (Numpy.aheapsort key a).
Proof.
  unfold Numpy.aheapsort. cbv zeta.
  destruct (build_heap_spec (length a) (length a / 2) a) as (B1 & B2 & B3 & B4).
  - lia.
  - apply Nat.Div0.div_le_upper_bound. lia.
  - intros i Hi c x y Hch Hcn.
    pose proof (Nat.div_mod_eq (length a) 2).
    pose proof (Nat.mod_upper_bound (length a) 2). lia.
  - apply drain_heap_spec.
    + lia.
    + exact B2.
    + rewrite drop_ge by lia. constructor.
    + intros x y _ Hy. rewrite drop_ge in Hy by lia. destruct Hy.
Qed.

Lemma aheapsort_perm (a : list A) : Permutation (Numpy.aheapsort key a) a.
Proof.
  unfold Numpy.aheapsort. cbv zeta.
  destruct (build_heap_spec (length a) (length a / 2) a) as (B1 & B2 & B3 & B4).
  - lia.
  - apply Nat.Div0.div_le_upper_bound. lia.
  - intros i Hi c x y Hch Hcn.
    pose proof (Nat.div_mod_eq (length a) 2).
    pose proof (Nat.mod_upper_bound (length a) 2). lia.
  - etransitivity; [|exact B3]. apply drain_heap_spec.
    + lia.
    + exact B2.
    + rewrite drop_ge by lia. constructor.
    + intros x y _ Hy. rewrite drop_ge in Hy by lia. destruct Hy.
Qed.

Lemma sort_range_spec (fuel : nat) :
  forall (popped : bool) (cdepth : Z) (a : list A),
    length a <= fuel ->
    by_key (Numpy.sort_range key fuel popped cdepth a) /\
    Permutation (Numpy.sort_range key fuel popped cdepth a) a.
Proof.
  induction fuel as [|fuel IH]; intros popped cdepth a Hlen.
  - destruct a; [|cbn in Hlen; lia]. cbn. split; [constructor | reflexivity].
  - cbn [Numpy.sort_range].
    destruct (popped && (cdepth <? 0)%Z).
    { split; [apply aheapsort_sorted | apply aheapsort_perm]. }
    destruct (Numpy.SMALL_QUICKSORT <? length a - 1) eqn:Hbig.
    2:{ split; [apply insertion_sort_sorted | apply insertion_sort_perm]. }
    apply Nat.ltb_lt in Hbig. unfold Numpy.SMALL_QUICKSORT in Hbig.
    destruct (Numpy.partition key a) as [[below p] above] eqn:Hp.
    destruct (partition_spec a below above p ltac:(lia) Hp)
      as (vp & -> & Pa & Fb & Fa).
    pose proof (Permutation_length Pa) as La.
    rewrite length_app in La. cbn [length] in La.
    assert (Both : forall p1 p2,
      by_key (Numpy.sort_range key fuel p1 (cdepth - 1) below
                  ++ vp :: Numpy.sort_range key fuel p2 (cdepth - 1) above) /\
      Permutation (Numpy.sort_range key fuel p1 (cdepth - 1) below
                   ++ vp :: Numpy.sort_range key fuel p2 (cdepth - 1) above) a).
    { intros p1 p2.
      destruct (IH p1 (cdepth - 1)%Z below ltac:(lia)) as [Sb Pb].
      destruct (IH p2 (cdepth - 1)%Z above ltac:(lia)) as [Sa Pab].
      split.
      - apply sorted_app; [exact Sb | |].
        + constructor; [exact Sa|]. rewrite Pab. exact Fa.
        + intros x y Hx Hy.
          assert (Hxv : (key x <= key vp)%Z).
          { apply (Permutation_in _ Pb) in Hx.
            rewrite Forall_forall in Fb. apply Fb, list_elem_of_In, Hx. }
          destruct Hy as [<-|Hy]; [exact Hxv|].
          apply (Permutation_in _ Pab) in Hy.
          rewrite Forall_forall in Fa.
          pose proof (Fa y (proj2 (list_elem_of_In _ _) Hy)).
          unfold Numpy.le_key. lia.
      - rewrite Pb, Pab. symmetry. exact Pa. }
    destruct (length below <? length above); apply Both.
Qed.

Lemma aquicksort_sorted (a : list A) : by_key (Numpy.aquicksort key a).
Proof. unfold Numpy.aquicksort. apply sort_range_spec. lia. Qed.

Lemma aquicksort_perm (a : list A) : Permutation (Numpy.aquicksort key a) a.
Proof. unfold Numpy.aquicksort. apply sort_range_spec. lia. Qed.

(** *** Ties in a small range *)

Lemma shift_in_filter (t : Z) (vi : A) (before : list A) :
  List.filter (fun x => (key x =? t)%Z) (Numpy.shift_in key vi before)
  = List.filter (fun x => (key x =? t)%Z) (vi :: before).
Proof.
  induction before as [|y before IH]; [reflexivity|].
  cbn [Numpy.shift_in]. destruct (less vi y) eqn:L; [|reflexivity].
  apply less_lt in L. cbn [List.filter] in *. rewrite IH.
  destruct (key y =? t)%Z eqn:Ey; destruct (key vi =? t)%Z eqn:Ex;
    try reflexivity.
  apply Z.eqb_eq in Ey, Ex. lia.
Qed.

(** The insertion sort keeps the rows of one key in their order. *)
Lemma insertion_sort_stable (t : Z) (a : list A) :
  List.filter (fun x => (key x =? t)%Z) (Numpy.insertion_sort key a)
  = List.filter (fun x => (key x =? t)%Z) a.
Proof.
  unfold Numpy.insertion_sort. rewrite filter_rev.
  assert (H : forall before,
    List.filter (fun x => (key x =? t)%Z)
      (fold_left (fun before vi => Numpy.shift_in key vi before) a before)
    = rev (List.filter (fun x => (key x =? t)%Z) a)
      ++ List.filter (fun x => (key x =? t)%Z) before).
  { induction a as [|x a IH]; intros before; [reflexivity|].
    cbn [fold_left]. rewrite IH, shift_in_filter. cbn [List.filter].
    destruct (key x =? t)%Z; [|reflexivity].
    cbn [rev]. rewrite <- app_assoc. reflexivity. }
  rewrite H. cbn [List.filter]. rewrite app_nil_r. apply rev_involutive.
Qed.

(** A range of at most seventeen rows is never partitioned. *)
Lemma aquicksort_small (a : list A) :
  length a <= 17 -> Numpy.aquicksort key a = Numpy.insertion_sort key a.
Proof.
  intros Hn. unfold Numpy.aquicksort.
  destruct a as [|x a]; [reflexivity|].
  cbn [length Numpy.sort_range].
  assert (Hd : (Numpy.npy_get_msb (S (length a)) * 2 <? 0)%Z = false).
  { apply Z.ltb_ge. unfold Numpy.npy_get_msb.
    pose proof (Z.log2_nonneg (Z.of_nat (S (length a)))). lia. }
  rewrite Hd. cbn [andb].
  assert (Hs : (Numpy.SMALL_QUICKSORT <? S (length a) - 1) = false).
  { apply Nat.ltb_ge. unfold Numpy.SMALL_QUICKSORT. cbn [length] in Hn. lia. }
  rewrite Hs. reflexivity.
Qed.

End SortFacts.

(* ===================================================================== *)
(** ** Loading *)
(* ===================================================================== *)

Section LoadingFacts.
Import Loading.
Local Open Scope Z_scope.
Variable P : Pandas.

Lemma sort_values_ascending (df : list Message) : ascending (sort_values df).
Proof. apply (aquicksort_sorted timestamp df). Qed.

Lemma sort_values_permutation (df : list Message) :
  Permutation (sort_values df) df.
Proof. apply (aquicksort_perm timestamp df). Qed.

Lemma to_datetime_plain (typed : list Message) :
  forallb (fun m => in_timestamp_range (timestamp m)) typed = true ->
  to_datetime P (map input_timestamp (map of_message typed))
  = Parsers.Ok (map timestamp typed).
Proof.
  intros H. unfold to_datetime.
  assert (E : mapM plain (map input_timestamp (map of_message typed))
              = Some (map timestamp typed)).
  { induction typed as [|m typed IH]; [reflexivity|].
    cbn [forallb] in H. apply andb_true_iff in H. destruct H as [Hm H].
    cbn [map mapM of_message input_timestamp plain]. rewrite Hm.
    cbn. rewrite (IH H). reflexivity. }
  rewrite E. reflexivity.
Qed.

Lemma zip_rows (typed : list Message) :
  zip_with (fun m d => mkMessage (input_text m) d (input_sender m))
           (map of_message typed) (map timestamp typed) = typed.
Proof.
  induction typed as [|[tx ts sd] typed IH]; [reflexivity|].
  cbn [map zip_with of_message input_text input_sender timestamp text sender].
  rewrite IH. reflexivity.
Qed.

Lemma load_messages_typed (typed : list Message) :
  typed <> [] ->
  forallb (fun m => in_timestamp_range (timestamp m)) typed = true ->
  load_messages P (map of_message typed) = Parsers.Ok (sort_values typed).
Proof.
  intros Hne Hr. unfold load_messages.
  destruct typed as [|m typed]; [congruence|].
  rewrite (to_datetime_plain _ Hr).
  change (map of_message (m :: typed)) with (of_message m :: map of_message typed).
  cbn [mbind Parsers.result_bind]. unfold mbind, Parsers.result_bind.
  change (of_message m :: map of_message typed) with (map of_message (m :: typed)).
  rewrite zip_rows. reflexivity.
Qed.

Lemma load_messages_ok (messages : list Input) (df : list Message) :
  load_messages P messages = Parsers.Ok df ->
  exists rows, df = sort_values rows /\ messages <> [].
Proof.
  unfold load_messages. destruct messages as [|m messages]; [discriminate|].
  destruct (to_datetime P _) as [column|e]; cbn; [|discriminate].
  intros H. injection H as <-. eexists. split; [reflexivity | discriminate].
Qed.

Lemma sort_values_small (df : list Message) :
  (length df <= 17)%nat -> ties_keep_input_order df (sort_values df).
Proof.
  intros Hn t. unfold sort_values, rows_at.
  rewrite (aquicksort_small timestamp df Hn).
  apply (insertion_sort_stable timestamp t df).
Qed.

(** C4, as the code has it.  The empty list raises [KeyError].  A list
    of messages whose timestamps are datetimes that pandas holds loads
    to the rows in the order of numpy's default sort: ascending by
    timestamp, exactly the input messages, and, as long as there are at
    most seventeen of them, with messages of equal timestamps in input
    order.  Whatever the timestamps are, a sequence that loads is
    ascending. *)
Theorem load_messages_ascending :
  load_messages P [] = Parsers.Raise Parsers.KeyError /\
  (forall typed,
     typed <> [] ->
     forallb (fun m => in_timestamp_range (timestamp m)) typed = true ->
     load_messages P (map of_message typed) = Parsers.Ok (sort_values typed) /\
     ascending (sort_values typed) /\
     Permutation (sort_values typed) typed /\
     ((length typed <= 17)%nat ->
      ties_keep_input_order typed (sort_values typed))) /\
  (forall messages df,
     load_messages P messages = Parsers.Ok df -> ascending df).
Proof.
  split; [reflexivity|]. split.
  - intros typed Hne Hr.
    split; [apply (load_messages_typed typed Hne Hr)|].
    split; [apply sort_values_ascending|].
    split; [apply sort_values_permutation | apply sort_values_small].
  - intros messages df H.
    destruct (load_messages_ok messages df H) as (rows & -> & _).
    apply sort_values_ascending.
Qed.

End LoadingFacts.

(** The loading theorem on the three-day conversation given last message
    first. *)
Lemma load_messages_ascending_witness :
  Loading.load_messages Samples.pandas
    (map Loading.of_message (rev Samples.three_days))
  = Parsers.Ok Samples.three_days /\
  Loading.ascending Samples.three_days /\
  Loading.ties_keep_input_order (rev Samples.three_days)
    (Loading.sort_values (rev Samples.three_days)).
Proof.
  destruct (load_messages_ascending Samples.pandas) as (_ & H & _).
  destruct (H (rev Samples.three_days)) as (H1 & H2 & _ & H4);
    [discriminate | reflexivity |].
  split; [exact H1|]. split; [exact H2|].
  apply H4. vm_compute. lia.
Defined.

(** C4, as stated, fails twice.  The eighteen messages of one instant,
    given in the order a to r, load in the order a, p, o, ..., c, b, q,
    r: the first partition of the sort exchanges rows of equal
    timestamps.  And the empty list does not load at all. *)
Lemma load_messages_counterexample :
  map text Samples.burst
  = ["a"; "b"; "c"; "d"; "e"; "f"; "g"; "h"; "i"; "j"; "k"; "l"; "m"; "n";
     "o"; "p"; "q"; "r"]%string /\
  Forall (fun m => timestamp m = 0%Z) Samples.burst /\
  Loading.load_messages Samples.pandas (map Loading.of_message Samples.burst)
  = Parsers.Ok (Loading.sort_values Samples.burst) /\
  map text (Loading.sort_values Samples.burst)
  = ["a"; "p"; "o"; "n"; "m"; "l"; "k"; "j"; "i"; "h"; "g"; "f"; "e"; "d";
     "c"; "b"; "q"; "r"]%string /\
  ~ Loading.ties_keep_input_order Samples.burst
      (Loading.sort_values Samples.burst) /\
  Loading.load_messages Samples.pandas [] = Parsers.Raise Parsers.KeyError.
Proof.
  split; [reflexivity|]. split; [repeat constructor|].
  split; [reflexivity|]. split; [reflexivity|].
  split; [|reflexivity].
  intros H. specialize (H 0%Z). vm_compute in H. discriminate H.
Qed.

(* ===================================================================== *)
(** ** Parsers: entry-level anomalies *)
(* ===================================================================== *)

Section EntryAnomalies.
Import Parsers.
Variable W : World.

(** A loop whose body never raises returns the entries it keeps. *)
Lemma for_each_total {A B : Type} (g : A -> option B) (i : nat) (l : list A) :
  for_each (fun _ a => Ok (g a)) i l = Ok (omap g l).
Proof.
  revert i. induction l as [|a l IH]; intros i; [reflexivity|].
  cbn [for_each omap]. cbn. rewrite IH. cbn.
  destruct (g a); reflexivity.
Qed.



Lemma whatsapp_parse_total (path : string) (lines : list string) :
  read_lines W path = Ok lines ->
  WhatsAppParser.parse W path = Ok (omap (WhatsAppParser.line_entry W) lines).
Proof.
  intros H. unfold WhatsAppParser.parse. rewrite H. cbn.
  apply for_each_total.
Qed.




Lemma facebook_parse_messages (path : string) (m : gmap string pyobj)
  (entries : list pyobj) :
  load_json W path = Ok (PyDict m) ->
  m !! "messages"%string = Some (PyList entries) ->
  FacebookMessengerParser.parse W path
  = for_each (fun _ => FacebookMessengerParser.entry W) 0 entries.
Proof.
  intros Hl Hm. unfold FacebookMessengerParser.parse. rewrite Hl. cbn.
  rewrite Hm. rewrite bool_decide_true by eauto. reflexivity.
Qed.


End EntryAnomalies.



(* ===================================================================== *)
(** ** Parsers: alias resolution of the iMessage parser *)
(* ===================================================================== *)

Section Aliases.
Import Parsers.

(** C6 at its failing input, and the part of it that holds.  For every
    entry the two shapes resolve the sender alike ([sender], else [from],
    else "Unknown"); the CSV branch reads the text under [text] or else
    [message] and the time under [timestamp] or else [date]; the JSON
    branch reads the text under [text] only and the time under
    [timestamp] only.  On the sample entry written with [message], [date]
    and [from], the JSON branch returns an empty text and the clock
    reading, the CSV branch the text and the parsed date. *)
Theorem imessage_json_ignores_aliases (W : World) (i : nat) (m : gmap string pyobj) :
  iMessageParser.json_entry W i (PyDict m)
  = Ok (Some {| text := default (PyStr "") (m !! "text"%string);
                timestamp :=
                  iMessageParser._parse_timestamp W (now W i)
                    (default PyNone (m !! "timestamp"%string));
                sender := default (default (PyStr "Unknown") (m !! "from"%string))
                                  (m !! "sender"%string) |}) /\
  iMessageParser.csv_entry W i m
  = Ok (Some {| text := default (default (PyStr "") (m !! "message"%string))
                                (m !! "text"%string);
                timestamp :=
                  iMessageParser._parse_timestamp W (now W i)
                    (default (default PyNone (m !! "date"%string))
                             (m !! "timestamp"%string));
                sender := default (default (PyStr "Unknown") (m !! "from"%string))
                                  (m !! "sender"%string) |}) /\
  iMessageParser.json_entry Files.world 0 (PyDict Files.aliased_entry)
  = Ok (Some {| text := PyStr ""; timestamp := now Files.world 0;
                sender := PyStr "Ann" |}) /\
  iMessageParser.csv_entry Files.world 0 Files.aliased_entry
  = Ok (Some {| text := PyStr "hi"; timestamp := Files.t0;
                sender := PyStr "Ann" |}).
Proof. repeat split. Qed.

End Aliases.

(* ===================================================================== *)
(** ** Parser selection *)
(* ===================================================================== *)

Section Selection.
Import Parsers.

Lemma endswith_last_char (s suffix : string) :
  suffix <> EmptyString ->
  Str.endswith s suffix = true ->
  Str.last_char s = Str.last_char suffix.
Proof.
  intros Hne. induction s as [|c s IH]; cbn [Str.endswith].
  - rewrite orb_false_r. intros H. apply String.eqb_eq in H. congruence.
  - intros H. apply orb_true_iff in H. destruct H as [H|H].
    + apply String.eqb_eq in H. rewrite H. reflexivity.
    + rewrite <- (IH H). destruct s as [|c' s']; [|reflexivity].
      cbn [Str.endswith] in H. rewrite orb_false_r in H.
      apply String.eqb_eq in H. congruence.
Qed.

(** A path has at most one of the three extensions. *)
Lemma extensions_exclusive (file_path : string) :
  (Str.endswith file_path ".csv" = true ->
   Str.endswith file_path ".txt" = false /\ Str.endswith file_path ".json" = false) /\
  (Str.endswith file_path ".json" = true ->
   Str.endswith file_path ".txt" = false).
Proof.
  split; intros H.
  - apply endswith_last_char in H; [|discriminate].
    split.
    + destruct (Str.endswith file_path ".txt") eqn:E; [|reflexivity].
      apply endswith_last_char in E; [|discriminate].
      rewrite H in E. discriminate.
    + destruct (Str.endswith file_path ".json") eqn:E; [|reflexivity].
      apply endswith_last_char in E; [|discriminate].
      rewrite H in E. discriminate.
  - apply endswith_last_char in H; [|discriminate].
    destruct (Str.endswith file_path ".txt") eqn:E; [|reflexivity].
    apply endswith_last_char in E; [|discriminate].
    rewrite H in E. discriminate.
Qed.

Lemma by_file_json (W : World) (file_path : string) :
  Str.endswith file_path ".json" = true ->
  by_file W file_path
  = if Design.has_messages_object (load_json W file_path)
    then Facebook else GenericJSON.
Proof.
  intros H. unfold by_file.
  rewrite (proj2 (extensions_exclusive file_path) H), H.
  unfold Design.has_messages_object.
  destruct (load_json W file_path) as [[| | | | | |data]|]; reflexivity.
Qed.

(** C7, as the code has it.  The hint "whatsapp" selects the WhatsApp
    parser whatever the path; so does every hint that contains
    "whatsapp" and none of the substrings tested before it (facebook,
    messenger, instagram, ig, imessage, apple).  A hint with none of the
    known substrings, and the empty hint, select as no hint does.  With
    no hint, a .txt path selects the WhatsApp parser, a .csv path the
    iMessage parser, and a .json path the Facebook parser exactly when
    the file decodes to an object with a [messages] key, the generic
    parser otherwise; any other path selects the generic parser. *)
Theorem get_parser_resolution (W : World) (file_path : string) :
  get_parser W file_path (Some "whatsapp"%string) = WhatsApp /\
  (forall hint,
     Str.contains "whatsapp" (Str.lower hint) = true ->
     Str.contains "facebook" (Str.lower hint) = false ->
     Str.contains "messenger" (Str.lower hint) = false ->
     Str.contains "instagram" (Str.lower hint) = false ->
     Str.contains "ig" (Str.lower hint) = false ->
     Str.contains "imessage" (Str.lower hint) = false ->
     Str.contains "apple" (Str.lower hint) = false ->
     get_parser W file_path (Some hint) = WhatsApp) /\
  (forall hint,
     by_platform hint = None ->
     get_parser W file_path (Some hint) = get_parser W file_path None) /\
  get_parser W file_path (Some ""%string) = get_parser W file_path None /\
  (Str.endswith file_path ".txt" = true ->
   get_parser W file_path None = WhatsApp) /\
  (Str.endswith file_path ".csv" = true ->
   get_parser W file_path None = IMessage) /\
  (Str.endswith file_path ".json" = true ->
   get_parser W file_path None
   = if Design.has_messages_object (load_json W file_path)
     then Facebook else GenericJSON) /\
  (Str.endswith file_path ".txt" = false ->
   Str.endswith file_path ".json" = false ->
   Str.endswith file_path ".csv" = false ->
   get_parser W file_path None = GenericJSON).
Proof.
  repeat apply conj.
  - reflexivity.
  - intros hint Hw Hf Hm Hi Hg Him Ha.
    assert (Hp : by_platform hint = Some WhatsApp).
    { unfold by_platform. rewrite Hw, Hf, Hm, Hi, Hg, Him, Ha. reflexivity. }
    destruct hint as [|c p]; [discriminate Hw|].
    cbn [get_parser]. rewrite Hp. reflexivity.
  - intros hint Hp. destruct hint as [|c p]; [reflexivity|].
    cbn [get_parser]. rewrite Hp. reflexivity.
  - reflexivity.
  - intros H. cbn [get_parser]. unfold by_file. rewrite H. reflexivity.
  - intros H. cbn [get_parser]. unfold by_file.
    destruct (proj1 (extensions_exclusive file_path) H) as [-> ->].
    rewrite H. reflexivity.
  - intros H. cbn [get_parser]. apply by_file_json, H.
  - intros H1 H2 H3. cbn [get_parser]. unfold by_file.
    rewrite H1, H2, H3. reflexivity.
Qed.

(** The selection theorem on sample hints and paths. *)
Lemma get_parser_resolution_witness :
  get_parser Files.world "facebook.json" (Some "My WhatsApp chat"%string) = WhatsApp /\
  get_parser Files.world "chat.txt" (Some "telegram"%string)
  = get_parser Files.world "chat.txt" None /\
  get_parser Files.world "chat.txt" None = WhatsApp /\
  get_parser Files.world "imessage.csv" None = IMessage /\
  get_parser Files.world "facebook.json" None = Facebook /\
  get_parser Files.world "generic.json" None = GenericJSON /\
  get_parser Files.world "broken.json" None = GenericJSON /\
  get_parser Files.world "notes.md" None = GenericJSON.
Proof.
  repeat apply conj.
  - apply (proj1 (proj2 (get_parser_resolution Files.world "facebook.json")));
      reflexivity.
  - apply (proj1 (proj2 (proj2 (get_parser_resolution Files.world "chat.txt")))).
    reflexivity.
  - apply (get_parser_resolution Files.world "chat.txt"). reflexivity.
  - apply (get_parser_resolution Files.world "imessage.csv"). reflexivity.
  - rewrite (proj1 (proj2 (proj2 (proj2 (proj2 (proj2 (proj2
      (get_parser_resolution Files.world "facebook.json")))))))); reflexivity.
  - rewrite (proj1 (proj2 (proj2 (proj2 (proj2 (proj2 (proj2
      (get_parser_resolution Files.world "generic.json")))))))); reflexivity.
  - rewrite (proj1 (proj2 (proj2 (proj2 (proj2 (proj2 (proj2
      (get_parser_resolution Files.world "broken.json")))))))); reflexivity.
  - apply (get_parser_resolution Files.world "notes.md"); reflexivity.
Defined.

(** C7, as stated, fails: the hint "WhatsApp Messenger" contains
    "whatsapp" and selects the Facebook parser, whose test for
    "messenger" comes first; the hint "WhatsApp (Signal backup)" selects
    the Instagram parser through the "ig" of "signal". *)
Lemma get_parser_counterexample :
  Str.contains "whatsapp" (Str.lower "WhatsApp Messenger") = true /\
  get_parser Files.world "chat.txt" (Some "WhatsApp Messenger"%string) = Facebook /\
  Str.contains "whatsapp" (Str.lower "WhatsApp (Signal backup)") = true /\
  get_parser Files.world "chat.txt" (Some "WhatsApp (Signal backup)"%string)
  = Instagram.
Proof. repeat split. Qed.

End Selection.

(* ===================================================================== *)
(** ** Timestamp parsing *)
(* ===================================================================== *)

Section Timestamps.
Import Parsers.
Variable W : World.

Lemma first_format_priority (s : string) (before after : list string)
  (fmt : string) (d : datetime) :
  Forall (fun f => strptime W s f = None) before ->
  strptime W s fmt = Some d ->
  first_format W s (before ++ fmt :: after) = Some d.
Proof.
  intros Hb Hf. induction Hb as [|f before Hnone _ IH]; cbn [app first_format].
  - rewrite Hf. reflexivity.
  - rewrite Hnone. exact IH.
Qed.

Lemma first_format_none (s : string) (formats : list string) :
  Forall (fun f => strptime W s f = None) formats ->
  first_format W s formats = None.
Proof.
  induction 1 as [|f formats Hnone _ IH]; cbn [first_format]; [reflexivity|].
  rewrite Hnone. exact IH.
Qed.

Lemma fromtimestamp_seconds (x : Q) (d : datetime) :
  fromtimestamp W x = Ok d ->
  d = (round_half_even (x * 1000000)
       + utcoffset W (round_half_even (x * 1000000)))%Z.
Proof.
  unfold fromtimestamp. cbv zeta.
  destruct (_ && _); intros H; [|discriminate].
  injection H as <-. reflexivity.
Qed.

(** C8, as the code has it.  Both parsers try their formats in the
    listed order and return the first date [strptime] accepts; a string
    that no format accepts becomes the clock reading, without an
    exception.  The generic parser reads a number as seconds since the
    epoch (microseconds after rounding, shifted to local time); the
    iMessage parser has no numeric case and gives a number the clock
    reading like any other value it cannot parse. *)
Theorem timestamp_parsing (now : datetime) :
  (forall s before fmt after d,
     iMessageParser.formats = before ++ fmt :: after ->
     Forall (fun f => strptime W s f = None) before ->
     strptime W s fmt = Some d ->
     iMessageParser._parse_timestamp W now (PyStr s) = d) /\
  (forall s before fmt after d,
     GenericJSONParser.formats = before ++ fmt :: after ->
     Forall (fun f => strptime W s f = None) before ->
     strptime W s fmt = Some d ->
     GenericJSONParser._parse_timestamp W now (PyStr s) = Ok d) /\
  (forall s,
     Forall (fun f => strptime W s f = None) iMessageParser.formats ->
     iMessageParser._parse_timestamp W now (PyStr s) = now) /\
  (forall s,
     Forall (fun f => strptime W s f = None) GenericJSONParser.formats ->
     GenericJSONParser._parse_timestamp W now (PyStr s) = Ok now) /\
  (forall x,
     GenericJSONParser._parse_timestamp W now (PyNum x) = fromtimestamp W x) /\
  (forall x d,
     GenericJSONParser._parse_timestamp W now (PyNum x) = Ok d ->
     d = (round_half_even (x * 1000000)
          + utcoffset W (round_half_even (x * 1000000)))%Z) /\
  (forall x, iMessageParser._parse_timestamp W now (PyNum x) = now) /\
  iMessageParser._parse_timestamp W now PyNone = now.
Proof.
  repeat apply conj.
  - intros s before fmt after d Hfs Hb Hf.
    cbn [iMessageParser._parse_timestamp]. rewrite Hfs.
    rewrite (first_format_priority s before after fmt d Hb Hf). reflexivity.
  - intros s before fmt after d Hfs Hb Hf.
    cbn [GenericJSONParser._parse_timestamp]. rewrite Hfs.
    rewrite (first_format_priority s before after fmt d Hb Hf). reflexivity.
  - intros s Hall. cbn [iMessageParser._parse_timestamp].
    rewrite (first_format_none s _ Hall). reflexivity.
  - intros s Hall. cbn [GenericJSONParser._parse_timestamp].
    rewrite (first_format_none s _ Hall). reflexivity.
  - reflexivity.
  - intros x d H. apply fromtimestamp_seconds. exact H.
  - reflexivity.
  - reflexivity.
Qed.

End Timestamps.

(** The timestamp theorem with the sample library stand-ins: a date in
    the first format, a date in the fifth format of the iMessage list, a
    string in no format, and an epoch number. *)
Lemma timestamp_parsing_witness :
  Parsers.iMessageParser._parse_timestamp Files.world 7%Z
    (Parsers.PyStr "2024-01-05 10:00:00") = Files.t0 /\
  Parsers.iMessageParser._parse_timestamp Files.world 7%Z
    (Parsers.PyStr "25/12/2024 10:00:00") = Files.christmas /\
  Parsers.GenericJSONParser._parse_timestamp Files.world 7%Z
    (Parsers.PyStr "2024-01-05 10:00:00") = Parsers.Ok Files.t0 /\
  Parsers.iMessageParser._parse_timestamp Files.world 7%Z
    (Parsers.PyStr "yesterday") = 7%Z /\
  Parsers.GenericJSONParser._parse_timestamp Files.world 7%Z
    (Parsers.PyStr "yesterday") = Parsers.Ok 7%Z /\
  Files.t0 = (round_half_even (1704448800 * 1000000)
              + Parsers.utcoffset Files.world
                  (round_half_even (1704448800 * 1000000)))%Z.
Proof.
  destruct (timestamp_parsing Files.world 7%Z)
    as (H1 & H2 & H3 & H4 & H5 & H6 & H7 & H8).
  repeat apply conj.
  - apply (H1 _ [] "%Y-%m-%d %H:%M:%S"%string
              (List.tl Parsers.iMessageParser.formats));
      [reflexivity | constructor | reflexivity].
  - apply (H1 _ (List.removelast Parsers.iMessageParser.formats)
              "%d/%m/%Y %H:%M:%S"%string []);
      [reflexivity | repeat constructor | reflexivity].
  - apply (H2 _ [] "%Y-%m-%d %H:%M:%S"%string
              (List.tl Parsers.GenericJSONParser.formats));
      [reflexivity | constructor | reflexivity].
  - apply H3. repeat constructor.
  - apply H4. repeat constructor.
  - apply (H6 1704448800%Q). reflexivity.
Defined.

(** C8, as stated, fails for the iMessage parser: it gives the epoch
    number 1704448800 the clock reading, where the generic parser
    returns 2024-01-05 10:00:00. *)
Lemma timestamp_parsing_counterexample :
  Parsers.iMessageParser._parse_timestamp Files.world 7%Z (Parsers.PyNum 1704448800)
  = 7%Z /\
  Parsers.GenericJSONParser._parse_timestamp Files.world 7%Z
    (Parsers.PyNum 1704448800) = Parsers.Ok Files.t0 /\
  (Files.t0 =? 7)%Z = false.
Proof. repeat split. Qed.

(* ===================================================================== *)
(** ** The Instagram parser *)
(* ===================================================================== *)

(** C9.  For every file (every decoding outcome of every path), the
    Instagram parser returns what the Facebook parser returns: the same
    messages in the same order, or the same exception. *)
Theorem instagram_parse_is_facebook_parse (W : Parsers.World) (file_path : string) :
  Parsers.InstagramMessengerParser.parse W file_path
  = Parsers.FacebookMessengerParser.parse W file_path /\
  Parsers.parse Parsers.Instagram W file_path
  = Parsers.parse Parsers.Facebook W file_path.
Proof.
  split.
  - unfold Parsers.InstagramMessengerParser.parse. reflexivity.
  - cbn [Parsers.parse]. unfold Parsers.InstagramMessengerParser.parse.
    reflexivity.
Qed.

(* ===================================================================== *)
(** ** What the analyzer writes to the caller's frame *)
(* ===================================================================== *)

Section FrameEffects.
Local Open Scope Q_scope.
Variable X : Externals.

Lemma bind_run {A B : Type} (m : Frames.M A) (k : A -> Frames.M B) (h h' : Frames.Store) (a : A) :
  m h = Some (a, h') -> (m ≫= k) h = k a h'.
Proof.
  intros H. unfold mbind, Frames.M_bind, Frames.bind. rewrite H. reflexivity.
Qed.

Lemma frame_run (r : Frames.ref) (h : Frames.Store) (d : Frames.DataFrame) :
  h !! r = Some d -> Frames.frame r h = Some (d, h).
Proof. intros H. unfold Frames.frame. rewrite H. reflexivity. Qed.

Lemma setitem_run (r : Frames.ref) (col : string) (v : list Frames.Cell) (h : Frames.Store)
  (d : Frames.DataFrame) :
  h !! r = Some d ->
  Frames.setitem r col v h
  = Some (tt, <[r := {| Frames.rows := Frames.rows d; Frames.derived := Frames.assign col v (Frames.derived d) |}]> h).
Proof. intros H. unfold Frames.setitem. rewrite H. reflexivity. Qed.

Lemma column_assign (col : string) (v : list Frames.Cell)
  (columns : list (string * list Frames.Cell)) :
  Frames.column col (Frames.assign col v columns) = v.
Proof.
  induction columns as [|[name old] rest IH]; cbn [Frames.assign Frames.column].
  - rewrite String.eqb_refl. reflexivity.
  - destruct (String.eqb name col) eqn:E; cbn [Frames.column].
    + rewrite String.eqb_refl. reflexivity.
    + rewrite E. exact IH.
Qed.

Lemma keep_filter {A : Type} (mask : A -> bool) (l : list A) :
  Frames.keep (map mask l) l = List.filter mask l.
Proof.
  induction l as [|x l IH]; [reflexivity|].
  cbn [map Frames.keep List.filter]. rewrite IH. reflexivity.
Qed.

Lemma floats_CFloat (l : list (option Q)) : Frames.floats (map Frames.CFloat l) = l.
Proof.
  unfold Frames.floats. induction l as [|x l IH]; [reflexivity|].
  cbn [map]. cbn [map] in IH. rewrite IH. reflexivity.
Qed.

Lemma dates_CDate {A : Type} (f : A -> Z) (l : list A) :
  Frames.dates (map (fun a => Frames.CDate (f a)) l) = map f l.
Proof.
  unfold Frames.dates. induction l as [|x l IH]; [reflexivity|].
  cbn [map omap]. cbn. f_equal. exact IH.
Qed.

Lemma preserves_refl (h : Frames.Store) : Frames.preserves h h.
Proof. intros r d H. exact H. Qed.

Lemma preserves_trans (h1 h2 h3 : Frames.Store) :
  Frames.preserves h1 h2 -> Frames.preserves h2 h3 -> Frames.preserves h1 h3.
Proof. intros H12 H23 r d H. apply H23, H12, H. Qed.

Lemma preserves_alloc (h : Frames.Store) (d : Frames.DataFrame) : Frames.preserves h (h ++ [d]).
Proof.
  intros r d' H. rewrite lookup_app_l; [exact H|].
  apply lookup_lt_Some in H. exact H.
Qed.

(** The read-only methods return the score of the frame's rows and the
    store they were given. *)
Lemma read_only_methods (df : Frames.ref) (t : string) (h : Frames.Store) (d : Frames.DataFrame) :
  h !! df = Some d ->
  Frames.analyze_response_time df t h
  = Some (analyze_response_time (Frames.rows d) t, h) /\
  Frames.analyze_message_length df t h
  = Some (analyze_message_length (Frames.rows d) t, h) /\
  Frames.analyze_emoji_usage X df t h
  = Some (analyze_emoji_usage X (Frames.rows d) t, h) /\
  Frames.analyze_question_asking df t h
  = Some (analyze_question_asking (Frames.rows d) t, h) /\
  Frames.analyze_enthusiasm X df t h
  = Some (analyze_enthusiasm X (Frames.rows d) t, h) /\
  Frames.analyze_reciprocity df t h
  = Some (analyze_reciprocity (Frames.rows d) t, h).
Proof.
  intros H. pose proof (frame_run df h d H) as Hf.
  repeat apply conj;
    match goal with |- ?m _ _ h = _ => unfold m | |- ?m _ _ _ h = _ => unfold m end;
    rewrite (bind_run _ _ h h d Hf); reflexivity.
Qed.

(** The consistency method works on a copy: every frame of the store,
    the caller's included, is left as it was. *)
Lemma consistency_effect (df : Frames.ref) (t : string) (h : Frames.Store) (d : Frames.DataFrame) :
  h !! df = Some d ->
  exists h',
    Frames.analyze_consistency X df t h
    = Some (analyze_consistency X (Frames.rows d) t, h') /\
    Frames.preserves h h'.
Proof.
  intros H. unfold Frames.analyze_consistency, Frames.getitem_mask, Frames.copy.
  pose (sel := {| Frames.rows := Frames.keep (map (is_their t) (Frames.rows d)) (Frames.rows d);
                  Frames.derived := map (fun c => (fst c, Frames.keep (map (is_their t) (Frames.rows d)) (snd c)))
                                 (Frames.derived d) |}).
  set (h1 := h ++ [sel]).
  set (h2 := h1 ++ [sel]).
  assert (E1 : (Frames.frame df ≫= fun d0 =>
            Frames.alloc {| Frames.rows := Frames.keep (map (is_their t) (Frames.rows d0)) (Frames.rows d0);
                     Frames.derived := map (fun c => (fst c, Frames.keep (map (is_their t) (Frames.rows d0)) (snd c)))
                                    (Frames.derived d0) |}) h
          = Some (length h, h1)).
  { rewrite (bind_run _ _ h h d (frame_run df h d H)). reflexivity. }
  rewrite (bind_run _ _ _ _ _ E1).
  assert (L1 : h1 !! length h = Some sel).
  { unfold h1. rewrite lookup_app_r by lia. rewrite Nat.sub_diag. reflexivity. }
  assert (E2 : (Frames.frame (length h) ≫= fun d0 => Frames.alloc d0) h1 = Some (length h1, h2)).
  { rewrite (bind_run _ _ h1 h1 sel (frame_run _ _ _ L1)). reflexivity. }
  rewrite (bind_run _ _ _ _ _ E2).
  assert (L2 : h2 !! length h1 = Some sel).
  { unfold h2. rewrite lookup_app_r by lia. rewrite Nat.sub_diag. reflexivity. }
  rewrite (bind_run _ _ h2 h2 sel (frame_run _ _ _ L2)).
  assert (P2 : Frames.preserves h h2).
  { eapply preserves_trans; apply preserves_alloc. }
  assert (Hrows : Frames.rows sel = their_rows (Frames.rows d) t).
  { unfold sel, their_rows. cbn [Frames.rows]. apply keep_filter. }
  unfold analyze_consistency. cbv zeta. rewrite Hrows.
  destruct (length (their_rows (Frames.rows d) t) <? 5)%nat.
  - exists h2. split; [reflexivity | exact P2].
  - set (v := map (fun m => Frames.CDate (date (timestamp m))) (their_rows (Frames.rows d) t)).
    rewrite (bind_run _ _ _ _ _ (setitem_run (length h1) "date" v h2 sel L2)).
    set (sel' := {| Frames.rows := Frames.rows sel; Frames.derived := Frames.assign "date" v (Frames.derived sel) |}).
    set (h3 := <[length h1 := sel']> h2).
    assert (L3 : h3 !! length h1 = Some sel').
    { unfold h3. apply list_lookup_insert_eq.
      apply lookup_lt_Some in L2. exact L2. }
    rewrite (bind_run _ _ h3 h3 sel' (frame_run _ _ _ L3)).
    unfold sel'. cbn [Frames.derived]. rewrite column_assign.
    unfold v. rewrite dates_CDate.
    exists h3. split.
    + destruct (size _ <? 2)%nat; reflexivity.
    + (* the copy sits above every frame of [h] *)
      intros r d' Hr. unfold h3.
      rewrite list_lookup_insert_ne; [apply P2, Hr|].
      apply lookup_lt_Some in Hr. unfold h1. rewrite length_app.
      cbn [length]. lia.
Qed.

(** The initiation method assigns the column [time_gap] on the caller's
    frame whenever the frame has two rows or more. *)
Lemma initiation_effect (df : Frames.ref) (t : string) (h : Frames.Store)
  (d : Frames.DataFrame) :
  h !! df = Some d ->
  Frames.analyze_conversation_initiation df t h
  = Some (analyze_conversation_initiation (Frames.rows d) t,
          if (length (Frames.rows d) <? 2)%nat then h
          else <[df := Frames.with_time_gap d]> h).
Proof.
  intros H. unfold Frames.analyze_conversation_initiation.
  rewrite (bind_run _ _ h h d (frame_run df h d H)).
  unfold analyze_conversation_initiation.
  destruct (length (Frames.rows d) <? 2)%nat; [reflexivity|].
  rewrite (bind_run _ _ _ _ _
             (setitem_run df "time_gap" _ h d H)).
  fold (Frames.with_time_gap d).
  assert (L : <[df := Frames.with_time_gap d]> h !! df
              = Some (Frames.with_time_gap d)).
  { apply list_lookup_insert_eq. apply lookup_lt_Some in H. exact H. }
  rewrite (bind_run _ _ _ _ _ (frame_run _ _ _ L)).
  unfold Frames.with_time_gap. cbn [Frames.rows Frames.derived].
  rewrite column_assign, floats_CFloat.
  destruct (length _ =? 0)%nat; reflexivity.
Qed.

(** The aggregator returns the result of the rows and leaves one trace
    on the caller's frame: the column of the initiation method. *)
Lemma aggregator_effect (df : Frames.ref) (t : string) (h : Frames.Store)
  (d : Frames.DataFrame) :
  h !! df = Some d ->
  exists h',
    Frames.calculate_overall_interest X df t h
    = Some (calculate_overall_interest X (Frames.rows d) t, h') /\
    h' !! df = Some (if (length (Frames.rows d) <? 2)%nat then d
                     else Frames.with_time_gap d) /\
    Frames.preserves_others df h h'.
Proof.
  intros H.
  destruct (read_only_methods df t h d H) as (R1 & R2 & R3 & R4 & _ & _).
  set (d5 := if (length (Frames.rows d) <? 2)%nat then d
             else Frames.with_time_gap d).
  set (h5 := if (length (Frames.rows d) <? 2)%nat then h
             else <[df := Frames.with_time_gap d]> h).
  assert (L5 : h5 !! df = Some d5).
  { unfold h5, d5. destruct (length (Frames.rows d) <? 2)%nat; [exact H|].
    apply list_lookup_insert_eq. apply lookup_lt_Some in H. exact H. }
  assert (Hrows : Frames.rows d5 = Frames.rows d).
  { unfold d5. destruct (length (Frames.rows d) <? 2)%nat; reflexivity. }
  assert (P5 : Frames.preserves_others df h h5).
  { intros r d' Hne Hr. unfold h5.
    destruct (length (Frames.rows d) <? 2)%nat; [exact Hr|].
    rewrite list_lookup_insert_ne by congruence. exact Hr. }
  destruct (read_only_methods df t h5 d5 L5) as (_ & _ & _ & _ & R6 & _).
  destruct (consistency_effect df t h5 d5 L5) as (h7 & R7 & P7).
  pose proof (P7 df d5 L5) as L7.
  destruct (read_only_methods df t h7 d5 L7) as (_ & _ & _ & _ & _ & R8).
  exists h7. split; [|split].
  - unfold Frames.calculate_overall_interest.
    rewrite (bind_run _ _ _ _ _ R1), (bind_run _ _ _ _ _ R2),
            (bind_run _ _ _ _ _ R3), (bind_run _ _ _ _ _ R4),
            (bind_run _ _ _ _ _ (initiation_effect df t h d H)).
    fold h5.
    rewrite (bind_run _ _ _ _ _ R6), (bind_run _ _ _ _ _ R7),
            (bind_run _ _ _ _ _ R8),
            (bind_run _ _ _ _ _ (frame_run df h7 d5 L7)).
    rewrite Hrows. reflexivity.
  - exact L7.
  - intros r d' Hne Hr. apply P7, (P5 r d' Hne Hr).
Qed.

(** C10, as the code has it.  On a store that holds the caller's frame,
    six signal methods return with the store they were given; the
    consistency method writes its [date] column to a copy and leaves
    every frame of the store as it was; the initiation method assigns
    the [time_gap] column on the caller's frame itself (from two rows
    on), with the rows untouched, and does not remove it; and after the
    aggregator the caller's frame is the one the initiation method left,
    with that column, every other frame being as before. *)
Theorem frame_effects (df : Frames.ref) (t : string) (h : Frames.Store)
  (d : Frames.DataFrame) :
  h !! df = Some d ->
  (Frames.analyze_response_time df t h
   = Some (analyze_response_time (Frames.rows d) t, h) /\
   Frames.analyze_message_length df t h
   = Some (analyze_message_length (Frames.rows d) t, h) /\
   Frames.analyze_emoji_usage X df t h
   = Some (analyze_emoji_usage X (Frames.rows d) t, h) /\
   Frames.analyze_question_asking df t h
   = Some (analyze_question_asking (Frames.rows d) t, h) /\
   Frames.analyze_enthusiasm X df t h
   = Some (analyze_enthusiasm X (Frames.rows d) t, h) /\
   Frames.analyze_reciprocity df t h
   = Some (analyze_reciprocity (Frames.rows d) t, h)) /\
  (exists h',
     Frames.analyze_consistency X df t h
     = Some (analyze_consistency X (Frames.rows d) t, h') /\
     Frames.preserves h h') /\
  Frames.analyze_conversation_initiation df t h
  = Some (analyze_conversation_initiation (Frames.rows d) t,
          if (length (Frames.rows d) <? 2)%nat then h
          else <[df := Frames.with_time_gap d]> h) /\
  Frames.rows (Frames.with_time_gap d) = Frames.rows d /\
  Frames.column "time_gap" (Frames.derived (Frames.with_time_gap d))
  = map Frames.CFloat (time_gaps (Frames.rows d)) /\
  (exists h',
     Frames.calculate_overall_interest X df t h
     = Some (calculate_overall_interest X (Frames.rows d) t, h') /\
     h' !! df = Some (if (length (Frames.rows d) <? 2)%nat then d
                      else Frames.with_time_gap d) /\
     Frames.preserves_others df h h').
Proof.
  intros H. repeat apply conj.
  1-6: apply (read_only_methods df t h d H).
  - apply consistency_effect, H.
  - apply initiation_effect, H.
  - reflexivity.
  - apply column_assign.
  - apply aggregator_effect, H.
Qed.

End FrameEffects.

(** The frame theorem on the store that holds the three-day sample. *)
Lemma frame_effects_witness :
  Frames.analyze_reciprocity 0 "B" [Frames.of_messages Samples.three_days]
  = Some (analyze_reciprocity Samples.three_days "B",
          [Frames.of_messages Samples.three_days]) /\
  (exists h',
     Frames.analyze_consistency Samples.externals 0 "B"
       [Frames.of_messages Samples.three_days]
     = Some (analyze_consistency Samples.externals Samples.three_days "B", h') /\
     Frames.preserves [Frames.of_messages Samples.three_days] h') /\
  (exists h',
     Frames.calculate_overall_interest Samples.externals 0 "B"
       [Frames.of_messages Samples.three_days]
     = Some (calculate_overall_interest Samples.externals Samples.three_days "B", h') /\
     h' !! 0%nat
     = Some (Frames.with_time_gap (Frames.of_messages Samples.three_days))).
Proof.
  assert (H : [Frames.of_messages Samples.three_days] !! 0%nat
              = Some (Frames.of_messages Samples.three_days)) by reflexivity.
  destruct (frame_effects Samples.externals 0 "B" _ _ H)
    as ((_ & _ & _ & _ & _ & R) & C & _ & _ & _ & (h' & A1 & A2 & _)).
  split; [exact R|]. split; [exact C|].
  exists h'. split; [exact A1 | exact A2].
Defined.

(** C10, as stated, fails for the aggregator: after
    [calculate_overall_interest] the caller's frame of two messages has
    a column it did not have, [time_gap], which nothing removes. *)
Lemma frame_effects_counterexample :
  Frames.derived (Frames.of_messages Samples.quick_reply) = [] /\
  option_map (fun p => snd p !! 0%nat)
    (Frames.calculate_overall_interest Samples.externals 0 "B"
       [Frames.of_messages Samples.quick_reply])
  = Some (Some {| Frames.rows := Samples.quick_reply;
                  Frames.derived :=
                    [("time_gap"%string,
                      [Frames.CFloat None;
                       Frames.CFloat (Some (120000000 # 3600000000)%Q)])] |}).
Proof. split; reflexivity. Qed.

(* ===================================================================== *)
(** ** Further properties of the design document *)
(* ===================================================================== *)

Section Further.
Local Open Scope Q_scope.

(** Three messages of the target, exactly one of them with a question
    mark: the ratio is one third, inside the ideal band, and the score is
    100. *)
Theorem one_question_in_three (df : list Message) (target_sender : string) :
  length (their_rows df target_sender) = 3%nat ->
  length (List.filter (Str.contains "?")
                      (map text (their_rows df target_sender))) = 1%nat ->
  analyze_question_asking df target_sender == 100.
Proof.
  intros H3 H1. unfold analyze_question_asking. cbv zeta.
  rewrite length_map, H3, H1. reflexivity.
Qed.

Lemma one_question_in_three_witness :
  analyze_question_asking Samples.one_question "B" == 100.
Proof.
  apply (one_question_in_three Samples.one_question "B"); reflexivity.
Defined.



End Further.

(* ===================================================================== *)
(** ** The aggregate and the shape of the curves *)
(* ===================================================================== *)

Section Aggregate.
Local Open Scope Q_scope.

(** The weights sum to 1 and none is negative, so the overall score is a
    weighted average: it lies between any two bounds of the eight
    signals. *)
Theorem overall_score_between (s : Signals) (lo hi : Q) :
  (lo <= response_time s /\ response_time s <= hi) ->
  (lo <= message_length s /\ message_length s <= hi) ->
  (lo <= emoji_usage s /\ emoji_usage s <= hi) ->
  (lo <= question_asking s /\ question_asking s <= hi) ->
  (lo <= conversation_initiation s /\ conversation_initiation s <= hi) ->
  (lo <= enthusiasm s /\ enthusiasm s <= hi) ->
  (lo <= consistency s /\ consistency s <= hi) ->
  (lo <= reciprocity s /\ reciprocity s <= hi) ->
  lo <= overall_score s /\ overall_score s <= hi.
Proof.
  intros [] [] [] [] [] [] [] [].
  unfold overall_score.
  cbn [Qsum weights response_time message_length emoji_usage question_asking
       conversation_initiation enthusiasm consistency reciprocity].
  split; lra.
Qed.

Lemma overall_score_between_witness :
  30 <= overall_score (mkSignals 40 50 60 30 70 45 55 65) /\
  overall_score (mkSignals 40 50 60 30 70 45 55 65) <= 70.
Proof.
  apply (overall_score_between (mkSignals 40 50 60 30 70 45 55 65) 30 70);
    cbn; split; discriminate.
Defined.

Lemma filter_length_le {A : Type} (f : A -> bool) (l : list A) :
  (length (List.filter f l) <= length l)%nat.
Proof.
  induction l as [|x l IH]; [reflexivity|].
  cbn [List.filter]. destruct (f x); cbn [length]; lia.
Qed.

(** The three counts of the result add up: the messages of the target
    and the messages of everybody else are all the messages. *)
Theorem message_counts_add_up (X : Externals) (df : list Message)
  (target_sender : string) :
  (their_message_count (calculate_overall_interest X df target_sender)
   + your_message_count (calculate_overall_interest X df target_sender))%nat
  = message_count (calculate_overall_interest X df target_sender) /\
  your_message_count (calculate_overall_interest X df target_sender)
  = length (your_rows df target_sender).
Proof.
  unfold calculate_overall_interest.
  cbn [their_message_count your_message_count message_count].
  pose proof (filter_length_le (is_their target_sender) df) as Hle.
  split; [unfold their_rows; lia|].
  unfold their_rows, your_rows.
  induction df as [|m df IH]; [reflexivity|].
  cbn [List.filter length] in *.
  pose proof (filter_length_le (is_their target_sender) df) as Hle'.
  destruct (is_their target_sender m); cbn [negb length].
  - rewrite <- IH by exact Hle'. lia.
  - rewrite <- IH by exact Hle'. lia.
Qed.

(** A slower average response never scores more than 0.4 above a faster
    one: the curve falls along each piece and rises only at its two
    joints, by 0.1 at one hour and by 0.4 at three hours. *)
Theorem response_time_curve_nearly_decreasing (m m' : Q) :
  m <= m' -> response_time_curve m' <= response_time_curve m + 0.4.
Proof.
  intros Hle.
  destruct (response_time_curve_pieces m) as (A1 & A2 & A3 & A4 & A5).
  destruct (response_time_curve_pieces m') as (B1 & B2 & B3 & B4 & B5).
  destruct (Qlt_le_dec m 5) as [a1|a1];
    [specialize (A1 a1) | clear A1;
     destruct (Qlt_le_dec m 30) as [a2|a2];
       [specialize (A2 a1 a2) | clear A2;
        destruct (Qlt_le_dec m 60) as [a3|a3];
          [specialize (A3 a2 a3) | clear A3;
           destruct (Qlt_le_dec m 180) as [a4|a4];
             [specialize (A4 a3 a4) | clear A4; specialize (A5 a4)]]]].
  all: destruct (Qlt_le_dec m' 5) as [b1|b1];
    [specialize (B1 b1) | clear B1;
     destruct (Qlt_le_dec m' 30) as [b2|b2];
       [specialize (B2 b1 b2) | clear B2;
        destruct (Qlt_le_dec m' 60) as [b3|b3];
          [specialize (B3 b2 b3) | clear B3;
           destruct (Qlt_le_dec m' 180) as [b4|b4];
             [specialize (B4 b3 b4) | clear B4; specialize (B5 b4)]]]].
  all: try lra.
  unfold Qdiv in *. change (/ 60) with (1 # 60) in *.
  destruct A5 as (A5 & _). destruct B5 as (B5 & _).
  qmax 20 (40 - (m - 180) * (1 # 60)); qmax 20 (40 - (m' - 180) * (1 # 60)); lra.
Qed.

Lemma response_time_curve_nearly_decreasing_witness :
  response_time_curve 60 <= response_time_curve 59.9 + 0.4 /\
  Qeq_bool (response_time_curve 59.9) 59.967 = true /\
  Qeq_bool (response_time_curve 60) 60 = true.
Proof.
  split; [|split; reflexivity].
  apply (response_time_curve_nearly_decreasing 59.9 60). discriminate.
Defined.

(** A larger coefficient of variation never scores more: the consistency
    curve is non-increasing. *)
Theorem consistency_curve_decreasing (cv cv' : Q) :
  cv <= cv' -> consistency_curve cv' <= consistency_curve cv.
Proof.
  intros Hle. unfold consistency_curve.
  repeat qcase; try lra.
  - qmax 30 (70 - cv' * 20); lra.
  - qmax 30 (70 - cv' * 20); lra.
  - qmax 30 (70 - cv' * 20); qmax 30 (70 - cv * 20); lra.
Qed.

Lemma consistency_curve_decreasing_witness :
  consistency_curve 1 <= consistency_curve 0.9.
Proof. apply (consistency_curve_decreasing 0.9 1). discriminate. Defined.

End Aggregate.

(* ===================================================================== *)
(** ** Floors, degenerate conversations and band edges *)
(* ===================================================================== *)

Section Floors.
Local Open Scope Q_scope.

Lemma response_time_curve_floor (m : Q) : 20 <= response_time_curve m.
Proof.
  destruct (response_time_curve_pieces m) as (A1 & A2 & A3 & A4 & A5).
  destruct (Qlt_le_dec m 5) as [a1|a1]; [specialize (A1 a1); lra|].
  destruct (Qlt_le_dec m 30) as [a2|a2]; [specialize (A2 a1 a2); lra|].
  destruct (Qlt_le_dec m 60) as [a3|a3]; [specialize (A3 a2 a3); lra|].
  destruct (Qlt_le_dec m 180) as [a4|a4]; [specialize (A4 a3 a4); lra|].
  specialize (A5 a4). lra.
Qed.

Lemma initiation_curve_floor (r : Q) : 30 <= initiation_curve r.
Proof.
  unfold initiation_curve.
  match goal with |- context [Qmin 100 ?s] => qmin 100 s end;
    repeat (qcase; cbn [andb] in * );
    try match goal with |- context [Qmax ?a ?b] => qmax a b end;
    lra.
Qed.

Lemma consistency_curve_floor (cv : Q) : 30 <= consistency_curve cv.
Proof.
  unfold consistency_curve. repeat qcase; try lra.
  qmax 30 (70 - cv * 20); lra.
Qed.

Lemma reciprocity_curve_floor (r : Q) : 20 <= reciprocity_curve r.
Proof.
  unfold reciprocity_curve.
  repeat (qcase; cbn [andb] in * ); try lra.
  all: qmin 100 (r * 70); qmax 20 (Qmin 100 (r * 70)); lra.
Qed.

(** Seven signals have a floor above 0 (the enthusiasm has none).  Four
    hold whoever wrote: 20 for the response time and the reciprocity, 30
    for the initiation and the consistency.  Three hold as soon as the
    target wrote something: 30 for the message length and the emoji
    usage, 20 for the question asking.  The overall score is therefore
    never below 13.1. *)
Theorem signal_floors (X : Externals) (df : list Message) (target_sender : string) :
  20 <= analyze_response_time df target_sender /\
  30 <= analyze_conversation_initiation df target_sender /\
  30 <= analyze_consistency X df target_sender /\
  20 <= analyze_reciprocity df target_sender /\
  (their_rows df target_sender <> [] ->
   30 <= analyze_message_length df target_sender /\
   30 <= analyze_emoji_usage X df target_sender /\
   20 <= analyze_question_asking df target_sender) /\
  (polarity_in_range X ->
   13.1 <= overall_score (engagement_signals X df target_sender)).
Proof.
  assert (H1 : 20 <= analyze_response_time df target_sender).
  { unfold analyze_response_time. destruct (response_times df target_sender).
    - lra.
    - apply response_time_curve_floor. }
  assert (H2 : 30 <= analyze_conversation_initiation df target_sender).
  { unfold analyze_conversation_initiation. cbv zeta.
    destruct (_ <? 2)%nat; [lra|]. destruct (_ =? 0)%nat; [lra|].
    apply initiation_curve_floor. }
  assert (H3 : 30 <= analyze_consistency X df target_sender).
  { unfold analyze_consistency. cbv zeta.
    destruct (_ <? 5)%nat; [lra|]. destruct (_ <? 2)%nat; [lra|].
    apply consistency_curve_floor. }
  assert (H4 : 20 <= analyze_reciprocity df target_sender).
  { unfold analyze_reciprocity. cbv zeta.
    destruct (length df <? 2)%nat eqn:E2; [lra|].
    destruct (_ =? 0)%nat eqn:E0.
    - destruct (0 <? _)%nat eqn:Ep; [lra|].
      apply Nat.ltb_ge in E2, Ep. apply Nat.eqb_eq in E0. lia.
    - apply reciprocity_curve_floor. }
  repeat apply conj; try assumption.
  - intros Hne.
    assert (Hlen : (length (map text (their_rows df target_sender)) =? 0)%nat = false).
    { apply Nat.eqb_neq. rewrite length_map.
      destruct (their_rows df target_sender); [congruence | cbn; lia]. }
    repeat apply conj.
    + unfold analyze_message_length. cbv zeta. rewrite Hlen.
      match goal with |- context [?a / Qmax ?b 1] => generalize (a / Qmax b 1) end.
      intros r. repeat qcase.
      * qmin 100 100; lra.
      * qmin 100 (70 + (r - 0.5) * 100); lra.
      * qmax 30 (r * 140); qmin 100 (Qmax 30 (r * 140)); lra.
    + unfold analyze_emoji_usage. cbv zeta. rewrite Hlen.
      destruct (count_emojis X _) as [emoji_count positive].
      assert (Hb : 0 <= of_nat positive / of_nat (Nat.max emoji_count 1)).
      { apply Qdiv_nonneg; [apply of_nat_nonneg | apply of_nat_pos; lia]. }
      revert Hb. generalize (of_nat positive / of_nat (Nat.max emoji_count 1)).
      intros r Hr.
      match goal with |- context [Qmin 100 ?s] => qmin 100 s end;
        repeat qcase; lra.
    + unfold analyze_question_asking. cbv zeta. rewrite Hlen.
      match goal with |- context [0.2 <=? ?r] => generalize r end.
      intros r.
      match goal with |- context [Qmin 100 ?s] => qmin 100 s end;
        repeat (qcase; cbn [andb] in * );
        try match goal with |- context [Qmax ?a ?b] => qmax a b end;
        lra.
  - intros HX.
    destruct (engagement_signals_range X df target_sender HX)
      as (_ & [L2 _] & [L3 _] & [L4 _] & _ & [L6 _] & _ & _).
    unfold engagement_signals in *. unfold overall_score.
    cbn [Qsum weights response_time message_length emoji_usage question_asking
         conversation_initiation enthusiasm consistency reciprocity] in *.
    lra.
Qed.

Lemma signal_floors_witness :
  (30 <= analyze_message_length Samples.three_days "B" /\
   30 <= analyze_emoji_usage Samples.externals Samples.three_days "B" /\
   20 <= analyze_question_asking Samples.three_days "B") /\
  13.1 <= overall_score (engagement_signals Samples.externals Samples.only_other "B").
Proof.
  split.
  - apply (signal_floors Samples.externals Samples.three_days "B"). discriminate.
  - apply (signal_floors Samples.externals Samples.only_other "B").
    exact sample_polarity_in_range.
Defined.

Lemma no_their_rows (df : list Message) (t : string) :
  their_rows df t = [] -> Forall (fun m => is_their t m = false) df.
Proof.
  unfold their_rows. induction df as [|m df IH]; intros H; [constructor|].
  cbn [List.filter] in H. destruct (is_their t m) eqn:E; [discriminate|].
  constructor; [exact E | apply IH, H].
Qed.

Lemma elapsed_minutes_no_target (df : list Message) (t : string) :
  Forall (fun m => is_their t m = false) df -> Design.elapsed_minutes df t = [].
Proof.
  induction 1 as [|a df Ha Hdf IH]; [reflexivity|].
  destruct df as [|b df']; [reflexivity|].
  change (Design.elapsed_minutes (a :: b :: df') t) with
    ((if negb (is_their t a) && is_their t b
      then [total_seconds (timestamp b - timestamp a) / 60] else [])
     ++ Design.elapsed_minutes (b :: df') t).
  rewrite IH. inversion Hdf as [|? ? Hb _]; subst. rewrite Hb, andb_false_r.
  reflexivity.
Qed.

Lemma rows_with_gap_over_subset (P : Message -> Prop) (gaps : list (option Q))
  (df : list Message) :
  Forall P df -> Forall P (rows_with_gap_over gaps df).
Proof.
  unfold rows_with_gap_over. intros H. revert gaps.
  induction H as [|m df Hm _ IH]; intros gaps; [constructor|].
  destruct gaps as [|g gaps]; [constructor|].
  cbn [combine List.filter]. destruct (match snd (m, g) with Some _ => _ | None => _ end).
  - cbn [map fst]. constructor; [exact Hm | apply IH].
  - apply IH.
Qed.

Lemma filter_none {A : Type} (f : A -> bool) (l : list A) :
  Forall (fun x => f x = false) l -> List.filter f l = [].
Proof.
  induction 1 as [|x l Hx _ IH]; [reflexivity|].
  cbn [List.filter]. rewrite Hx. exact IH.
Qed.

Lemma filter_all {A : Type} (f : A -> bool) (l : list A) :
  Forall (fun x => f x = true) l -> List.filter f l = l.
Proof.
  induction 1 as [|x l Hx _ IH]; [reflexivity|].
  cbn [List.filter]. rewrite Hx, IH. reflexivity.
Qed.

Lemma initiation_curve_zero (r : Q) : r == 0 -> initiation_curve r == 30.
Proof.
  intros H. unfold initiation_curve.
  repeat (qcase; cbn [andb] in * ); try lra.
  qmax 30 (r * 150); qmin 100 (Qmax 30 (r * 150)); lra.
Qed.

Lemma initiation_curve_one (r : Q) : r == 1 -> initiation_curve r == 100.
Proof.
  intros H. unfold initiation_curve.
  repeat (qcase; cbn [andb] in * ); try lra.
  qmax 30 (r * 150); qmin 100 (Qmax 30 (r * 150)); lra.
Qed.

(** A target who wrote nothing: the response time and the consistency
    keep their default 50; the message length, the emoji usage, the
    question asking and the enthusiasm are 0; the reciprocity is 50 for
    fewer than two messages and 20 from two on; the initiation is 50
    when no gap opens a conversation and 30 when one does. *)
Theorem target_absent (X : Externals) (df : list Message) (target_sender : string) :
  their_rows df target_sender = [] ->
  analyze_response_time df target_sender = 50 /\
  analyze_message_length df target_sender = 0 /\
  analyze_emoji_usage X df target_sender = 0 /\
  analyze_question_asking df target_sender = 0 /\
  analyze_enthusiasm X df target_sender = 0 /\
  analyze_consistency X df target_sender = 50 /\
  analyze_reciprocity df target_sender
  == (if (length df <? 2)%nat then 50 else 20) /\
  analyze_conversation_initiation df target_sender
  == (if (length df <? 2)%nat then 50
      else if (length (rows_with_gap_over (time_gaps df) df) =? 0)%nat then 50
      else 30).
Proof.
  intros H. pose proof (no_their_rows df target_sender H) as Hall.
  repeat apply conj.
  - unfold analyze_response_time. cbv zeta.
    rewrite response_times_elapsed, (elapsed_minutes_no_target _ _ Hall).
    reflexivity.
  - unfold analyze_message_length. rewrite H. reflexivity.
  - unfold analyze_emoji_usage. rewrite H. reflexivity.
  - unfold analyze_question_asking. rewrite H. reflexivity.
  - unfold analyze_enthusiasm. rewrite H. reflexivity.
  - unfold analyze_consistency. rewrite H. reflexivity.
  - unfold analyze_reciprocity. cbv zeta. rewrite H. cbn [length].
    destruct (length df <? 2)%nat eqn:E2; [reflexivity|].
    apply Nat.ltb_ge in E2.
    destruct (length df - 0 =? 0)%nat eqn:E0.
    + apply Nat.eqb_eq in E0. lia.
    + apply reciprocity_curve_zero, of_nat_zero_div.
  - unfold analyze_conversation_initiation. cbv zeta.
    destruct (length df <? 2)%nat; [reflexivity|].
    destruct (length _ =? 0)%nat; [reflexivity|].
    rewrite (filter_none _ _ (rows_with_gap_over_subset _ _ _ Hall)).
    apply initiation_curve_zero, of_nat_zero_div.
Qed.

Lemma target_absent_witness :
  analyze_response_time Samples.only_other "B" = 50 /\
  analyze_message_length Samples.only_other "B" = 0 /\
  analyze_emoji_usage Samples.externals Samples.only_other "B" = 0 /\
  analyze_question_asking Samples.only_other "B" = 0 /\
  analyze_enthusiasm Samples.externals Samples.only_other "B" = 0 /\
  analyze_consistency Samples.externals Samples.only_other "B" = 50 /\
  analyze_reciprocity Samples.only_other "B" == 20 /\
  analyze_conversation_initiation Samples.only_other "B" == 50.
Proof.
  apply (target_absent Samples.externals Samples.only_other "B"). reflexivity.
Defined.

End Floors.

(* ===================================================================== *)
(** ** Beyond the ideal bands, the interpretation and the rounding *)
(* ===================================================================== *)

Section Bands.
Local Open Scope Q_scope.

Lemma reciprocity_curve_above (r : Q) : 1.5 < r -> reciprocity_curve r == 100.
Proof.
  intros H. unfold reciprocity_curve.
  repeat (qcase; cbn [andb] in * ); try lra.
  all: qmin 100 (r * 70); qmax 20 (Qmin 100 (r * 70)); lra.
Qed.

Lemma reciprocity_curve_slope (r : Q) :
  1.2 < r -> r <= 1.5 -> reciprocity_curve r == 100 - (r - 1.2) * 50.
Proof.
  intros H1 H2. unfold reciprocity_curve.
  repeat (qcase; cbn [andb] in * ); lra.
Qed.

Lemma of_nat_ratio_gt (a b n d : nat) :
  (0 < b)%nat -> (0 < d)%nat -> (n * b < d * a)%nat ->
  of_nat n / of_nat d < of_nat a / of_nat b.
Proof.
  intros Hb Hd H.
  apply Qlt_shift_div_l; [apply of_nat_pos, Hb|].
  unfold Qdiv. rewrite <- Qmult_assoc, (Qmult_comm (/ of_nat d)), Qmult_assoc.
  apply Qlt_shift_div_r; [apply of_nat_pos, Hd|].
  unfold of_nat. rewrite <- !inject_Z_mult, <- Zlt_Qlt. lia.
Qed.

(** From two messages on, a target who sent more than one and a half
    times as many messages as the other party scores 100 on reciprocity,
    like the ideal band, although the ratios from 1.2 to 1.5 score
    less: exactly six to four scores 85. *)
Theorem reciprocity_above_ideal (df : list Message) (target_sender : string) :
  (2 <= length df)%nat ->
  (0 < length df - length (their_rows df target_sender))%nat ->
  (3 * (length df - length (their_rows df target_sender))
   < 2 * length (their_rows df target_sender))%nat ->
  analyze_reciprocity df target_sender == 100 /\
  reciprocity_curve (of_nat 6 / of_nat 4) == 85.
Proof.
  intros H2 Hy Hr. split; [|reflexivity].
  unfold analyze_reciprocity. cbv zeta.
  apply Nat.ltb_ge in H2. rewrite H2.
  destruct (_ =? 0)%nat eqn:E0; [apply Nat.eqb_eq in E0; lia|].
  apply reciprocity_curve_above.
  assert (Hq : of_nat 3 / of_nat 2
               < of_nat (length (their_rows df target_sender))
                 / of_nat (length df - length (their_rows df target_sender)))
    by (apply of_nat_ratio_gt; lia).
  assert (H15 : of_nat 3 / of_nat 2 == 1.5) by reflexivity.
  lra.
Qed.

Lemma reciprocity_above_ideal_witness :
  analyze_reciprocity Samples.three_to_one "B" == 100 /\
  reciprocity_curve (of_nat 6 / of_nat 4) == 85.
Proof.
  apply (reciprocity_above_ideal Samples.three_to_one "B"); vm_compute; lia.
Defined.

(** When gaps of more than four hours open conversations, a target who
    opened every one of them scores 100 on initiation, and a target who
    opened none scores 30. *)
Theorem initiation_all_or_none (df : list Message) (target_sender : string) :
  (2 <= length df)%nat ->
  rows_with_gap_over (time_gaps df) df <> [] ->
  (Forall (fun m => is_their target_sender m = true)
          (rows_with_gap_over (time_gaps df) df) ->
   analyze_conversation_initiation df target_sender == 100) /\
  (Forall (fun m => is_their target_sender m = false)
          (rows_with_gap_over (time_gaps df) df) ->
   analyze_conversation_initiation df target_sender == 30).
Proof.
  intros H2 Hne. unfold analyze_conversation_initiation. cbv zeta.
  apply Nat.ltb_ge in H2. rewrite H2.
  set (starts := rows_with_gap_over (time_gaps df) df) in *.
  assert (Hlen : (length starts =? 0)%nat = false).
  { apply Nat.eqb_neq. destruct starts; [congruence | cbn; lia]. }
  rewrite Hlen. apply Nat.eqb_neq in Hlen.
  split; intros Hall.
  - rewrite (filter_all _ _ Hall). apply initiation_curve_one.
    apply Qmult_inv_r.
    assert (0 < of_nat (length starts)) by (apply of_nat_pos; lia). lra.
  - rewrite (filter_none _ _ Hall).
    apply initiation_curve_zero, of_nat_zero_div.
Qed.

Lemma initiation_all_or_none_witness :
  analyze_conversation_initiation Samples.three_days "B" == 100 /\
  analyze_conversation_initiation Samples.three_days "A" == 30.
Proof.
  assert (H2 : (2 <= length Samples.three_days)%nat) by (vm_compute; lia).
  assert (Hne : rows_with_gap_over (time_gaps Samples.three_days)
                  Samples.three_days <> []) by discriminate.
  split.
  - apply (proj1 (initiation_all_or_none Samples.three_days "B" H2 Hne)).
    repeat constructor.
  - apply (proj2 (initiation_all_or_none Samples.three_days "A" H2 Hne)).
    repeat constructor.
Defined.

(** The five interpretations are the five intervals cut at 80, 65, 50
    and 35, each with its lower bound. *)
Theorem interpretation_bands (x : Q) :
  (interpret x = "Strong interest - Very positive signs!"%string <-> 80 <= x) /\
  (interpret x = "Good interest - Looking promising"%string <-> 65 <= x /\ x < 80) /\
  (interpret x = "Moderate interest - Could go either way"%string
   <-> 50 <= x /\ x < 65) /\
  (interpret x = "Low interest - Not looking great"%string <-> 35 <= x /\ x < 50) /\
  (interpret x = "Minimal interest - Might want to move on"%string <-> x < 35).
Proof.
  unfold interpret.
  repeat apply conj; repeat qcase; intros H;
    try discriminate H; try reflexivity; try lra;
    try (split; lra); exfalso; lra.
Qed.

(** Rounding to one decimal moves a score by at most 0.05. *)
Theorem round1_error (x : Q) : x - 0.05 <= round1 x /\ round1 x <= x + 0.05.
Proof.
  unfold round1, round_half_even. cbv zeta.
  pose proof (Qfloor_le (x * 10)) as Hlo.
  pose proof (Qlt_floor (x * 10)) as Hhi.
  rewrite inject_Z_plus in Hhi. change (inject_Z 1) with 1 in Hhi.
  unfold Qdiv. change (/ 10) with (1 # 10).
  repeat qcase.
  - lra.
  - rewrite inject_Z_plus. change (inject_Z 1) with 1. lra.
  - destruct (Z.even (Qfloor (x * 10))).
    + lra.
    + rewrite inject_Z_plus. change (inject_Z 1) with 1. lra.
Qed.

Lemma score_just_below_80 (x : Q) :
  79.95 <= x -> x < 80 ->
  round1 x == 80 /\ interpret x = "Good interest - Looking promising"%string.
Proof.
  intros H1 H2. split.
  - unfold round1, round_half_even. cbv zeta.
    assert (Hf : Qfloor (x * 10) = 799%Z).
    { pose proof (Qfloor_le (x * 10)) as Hlo.
      pose proof (Qlt_floor (x * 10)) as Hhi.
      assert (A : inject_Z (Qfloor (x * 10)) < inject_Z 800).
      { change (inject_Z 800) with 800. lra. }
      assert (B : inject_Z 799 < inject_Z (Qfloor (x * 10) + 1)).
      { change (inject_Z 799) with 799. lra. }
      rewrite <- Zlt_Qlt in A, B. lia. }
    rewrite Hf. change (inject_Z 799) with 799.
    repeat qcase; try lra; reflexivity.
  - unfold interpret. repeat qcase; try reflexivity; lra.
Qed.

(** The aggregator reads the interpretation off the weighted sum before
    it rounds it: a conversation whose weighted sum lies from 79.95 up
    to 80 gets the overall percentage 80.0 together with the
    interpretation of the band below 80. *)
Theorem interpretation_before_rounding (E : Externals) (df : list Message)
  (target_sender : string) :
  79.95 <= overall_score (engagement_signals E df target_sender) ->
  overall_score (engagement_signals E df target_sender) < 80 ->
  overall_percentage (calculate_overall_interest E df target_sender) == 80 /\
  interpretation (calculate_overall_interest E df target_sender)
  = "Good interest - Looking promising"%string /\
  interpret (overall_percentage (calculate_overall_interest E df target_sender))
  = "Strong interest - Very positive signs!"%string.
Proof.
  intros H1 H2.
  destruct (score_just_below_80 _ H1 H2) as [Hr Hi].
  unfold calculate_overall_interest. cbv zeta.
  cbn [overall_percentage interpretation].
  split; [exact Hr|]. split; [exact Hi|].
  unfold interpret.
  destruct (80 <=? round1 (overall_score (engagement_signals E df target_sender)))
    eqn:Hc; [reflexivity|].
  exfalso. unfold Qleb in Hc.
  assert (Hle : Qle_bool 80 (round1 (overall_score (engagement_signals E df target_sender)))
                = true).
  { apply Qle_bool_iff. rewrite Hr. lra. }
  congruence.
Qed.

Lemma interpretation_before_rounding_witness :
  overall_percentage
    (calculate_overall_interest Samples.externals Samples.near_eighty "B") == 80 /\
  interpretation
    (calculate_overall_interest Samples.externals Samples.near_eighty "B")
  = "Good interest - Looking promising"%string.
Proof.
  pose proof (interpretation_before_rounding Samples.externals
                Samples.near_eighty "B") as H.
  destruct H as (Ha & Hb & _); [vm_compute; discriminate | vm_compute; reflexivity |].
  split; [exact Ha | exact Hb].
Defined.

End Bands.

(* ===================================================================== *)
(** ** Signals that do not depend on the order of the rows *)
(* ===================================================================== *)

(** Name every innermost [Qmax] and [Qmin] of the goal, keeping what
    defines it as a hypothesis. *)
Ltac qabs :=
  repeat match goal with
  | |- context [Qmax ?a ?b] =>
      lazymatch a with
      | context [Qmax _ _] => fail | context [Qmin _ _] => fail | _ => idtac end;
      lazymatch b with
      | context [Qmax _ _] => fail | context [Qmin _ _] => fail | _ => idtac end;
      let H := fresh "Hm" in
      destruct (Q.max_spec a b) as [[? H]|[? H]];
      revert H; generalize (Qmax a b); intros ? H
  | |- context [Qmin ?a ?b] =>
      lazymatch a with
      | context [Qmax _ _] => fail | context [Qmin _ _] => fail | _ => idtac end;
      lazymatch b with
      | context [Qmax _ _] => fail | context [Qmin _ _] => fail | _ => idtac end;
      let H := fresh "Hm" in
      destruct (Q.min_spec a b) as [[? H]|[? H]];
      revert H; generalize (Qmin a b); intros ? H
  end.

Section OrderIndependence.
Local Open Scope Q_scope.
Variable X : Externals.

Lemma filter_permutation {A : Type} (f : A -> bool) (l l' : list A) :
  Permutation l l' -> Permutation (List.filter f l) (List.filter f l').
Proof.
  induction 1 as [|x l l' _ IH|x y l|l l' l'' _ IH1 _ IH2]; cbn [List.filter].
  - apply perm_nil.
  - destruct (f x); [apply perm_skip|]; exact IH.
  - destruct (f x), (f y); try apply Permutation_refl. apply perm_swap.
  - eapply Permutation_trans; eassumption.
Qed.

Lemma Qsum_permutation (l l' : list Q) :
  Permutation l l' -> Qsum l == Qsum l'.
Proof.
  induction 1 as [|x l l' _ IH|x y l|l l' l'' _ IH1 _ IH2]; cbn [Qsum].
  - reflexivity.
  - rewrite IH. reflexivity.
  - lra.
  - rewrite IH1. exact IH2.
Qed.

Lemma mean_permutation (l l' : list Q) :
  Permutation l l' -> mean l == mean l'.
Proof.
  intros H. unfold mean.
  rewrite (Permutation_length H), (Qsum_permutation l l' H). reflexivity.
Qed.

Lemma count_emojis_permutation (l l' : list string) :
  Permutation l l' -> count_emojis X l = count_emojis X l'.
Proof.
  induction 1 as [|x l l' _ IH|x y l|l l' l'' _ IH1 _ IH2]; cbn [count_emojis].
  - reflexivity.
  - rewrite IH. reflexivity.
  - destruct (count_emojis X l) as [a b]. f_equal; lia.
  - rewrite IH1. exact IH2.
Qed.

Lemma enthusiasm_count_permutation (l l' : list string) :
  Permutation l l' -> enthusiasm_count l = enthusiasm_count l'.
Proof.
  unfold enthusiasm_count.
  induction 1 as [|x l l' _ IH|x y l|l l' l'' _ IH1 _ IH2]; cbn [flat_map].
  - reflexivity.
  - rewrite !length_app, IH. reflexivity.
  - rewrite !length_app. lia.
  - rewrite IH1. exact IH2.
Qed.

(** Counting the rows of each day does not depend on their order. *)
Lemma daily_counts_permutation (l l' : list Z) :
  Permutation l l' -> daily_counts l = daily_counts l'.
Proof.
  induction 1 as [|x l l' _ IH|x y l|l l' l'' _ IH1 _ IH2]; cbn [daily_counts].
  - reflexivity.
  - rewrite IH. reflexivity.
  - destruct (decide (x = y)) as [->|Hne]; [reflexivity|].
    rewrite (lookup_insert_ne _ x y) by exact Hne.
    rewrite (lookup_insert_ne _ y x) by congruence.
    apply insert_insert_ne. congruence.
  - rewrite IH1. exact IH2.
Qed.

(** The message-length score as a function of the two averages. *)
Lemma message_length_score_compat (a a' b b' : Q) :
  a == a' -> b == b' ->
  Qmin 100
    (if 0.8 <=? a / Qmax b 1 then 100
     else if 0.5 <=? a / Qmax b 1 then 70 + (a / Qmax b 1 - 0.5) * 100
     else Qmax 30 (a / Qmax b 1 * 140))
  == Qmin 100
       (if 0.8 <=? a' / Qmax b' 1 then 100
        else if 0.5 <=? a' / Qmax b' 1 then 70 + (a' / Qmax b' 1 - 0.5) * 100
        else Qmax 30 (a' / Qmax b' 1 * 140)).
Proof.
  intros Ha Hb.
  assert (Hr : a / Qmax b 1 == a' / Qmax b' 1) by (rewrite Ha, Hb; reflexivity).
  revert Hr. generalize (a / Qmax b 1) (a' / Qmax b' 1). intros r r' Hr.
  repeat qcase; qabs; lra.
Qed.

(** Five signals see the conversation as a bag of messages and compute
    on whole numbers of messages, characters, emojis and days: they
    give the same score to every reordering of the rows, so no order of
    same-instant messages, and no sort at all, can change them.  (The
    response time and the conversation initiation read neighbours, and
    the enthusiasm averages polarities, whose floating-point sum may
    depend on the order in its last bit: they are not in the list.) *)
Theorem order_independent_signals (df df' : list Message) (target_sender : string) :
  Permutation df df' ->
  analyze_reciprocity df target_sender = analyze_reciprocity df' target_sender /\
  analyze_question_asking df target_sender
  = analyze_question_asking df' target_sender /\
  analyze_emoji_usage X df target_sender = analyze_emoji_usage X df' target_sender /\
  analyze_consistency X df target_sender = analyze_consistency X df' target_sender /\
  analyze_message_length df target_sender
  == analyze_message_length df' target_sender.
Proof.
  intros H.
  assert (Pt : Permutation (their_rows df target_sender) (their_rows df' target_sender))
    by (apply filter_permutation, H).
  assert (Py : Permutation (your_rows df target_sender) (your_rows df' target_sender))
    by (apply filter_permutation, H).
  assert (Ptx : Permutation (map text (their_rows df target_sender))
                            (map text (their_rows df' target_sender)))
    by (apply Permutation_map, Pt).
  assert (Pyx : Permutation (map text (your_rows df target_sender))
                            (map text (your_rows df' target_sender)))
    by (apply Permutation_map, Py).
  pose proof (Permutation_length H) as Ldf.
  pose proof (Permutation_length Pt) as Lt.
  pose proof (Permutation_length Ptx) as Ltx.
  pose proof (Permutation_length Pyx) as Lyx.
  repeat apply conj.
  - unfold analyze_reciprocity. cbv zeta. rewrite Ldf, Lt. reflexivity.
  - unfold analyze_question_asking. cbv zeta.
    rewrite Ltx, (Permutation_length (filter_permutation (Str.contains "?") _ _ Ptx)).
    reflexivity.
  - unfold analyze_emoji_usage. cbv zeta.
    rewrite Ltx, (count_emojis_permutation _ _ Ptx). reflexivity.
  - unfold analyze_consistency. cbv zeta.
    rewrite Lt,
      (daily_counts_permutation _ _
         (Permutation_map (fun m => date (timestamp m)) Pt)).
    reflexivity.
  - unfold analyze_message_length. cbv zeta. rewrite Ltx, Lyx.
    destruct (_ =? 0)%nat; [reflexivity|].
    apply message_length_score_compat.
    + apply mean_permutation, Permutation_map, Ptx.
    + destruct (0 <? _)%nat; [|reflexivity].
      apply mean_permutation, Permutation_map, Pyx.
Qed.

End OrderIndependence.

(** The order theorem on the three-day sample and its reverse. *)
Lemma order_independent_signals_witness :
  analyze_reciprocity Samples.three_days "B"
  = analyze_reciprocity (rev Samples.three_days) "B" /\
  analyze_question_asking Samples.three_days "B"
  = analyze_question_asking (rev Samples.three_days) "B" /\
  analyze_emoji_usage Samples.externals Samples.three_days "B"
  = analyze_emoji_usage Samples.externals (rev Samples.three_days) "B" /\
  analyze_consistency Samples.externals Samples.three_days "B"
  = analyze_consistency Samples.externals (rev Samples.three_days) "B" /\
  (analyze_message_length Samples.three_days "B"
   == analyze_message_length (rev Samples.three_days) "B")%Q.
Proof.
  apply (order_independent_signals Samples.externals Samples.three_days
           (rev Samples.three_days) "B").
  apply Permutation_rev.
Defined.

(* ===================================================================== *)
(** ** Response times and gaps of a loaded sequence *)
(* ===================================================================== *)

Section Ascending.
Local Open Scope Q_scope.

Lemma total_seconds_nonneg (delta : Z) : (0 <= delta)%Z -> 0 <= total_seconds delta.
Proof.
  intros H. unfold total_seconds. apply Qdiv_nonneg; [|reflexivity].
  change 0 with (inject_Z 0). rewrite <- Zle_Qle. exact H.
Qed.

Lemma elapsed_minutes_nonneg (df : list Message) (t : string) :
  Loading.ascending df -> Forall (fun x => 0 <= x) (Design.elapsed_minutes df t).
Proof.
  unfold Loading.ascending.
  induction 1 as [|a df Hs IH Ha]; [constructor|].
  destruct df as [|b df']; [constructor|].
  change (Design.elapsed_minutes (a :: b :: df') t) with
    ((if negb (is_their t a) && is_their t b
      then [total_seconds (timestamp b - timestamp a) / 60] else [])
     ++ Design.elapsed_minutes (b :: df') t).
  apply Forall_app. split; [|exact IH].
  destruct (_ && _); [|constructor].
  constructor; [|constructor].
  inversion Ha as [|? ? Hab _]; subst.
  apply Qdiv_nonneg; [|reflexivity].
  apply total_seconds_nonneg. lia.
Qed.

Lemma time_gaps_nonneg (df : list Message) :
  Loading.ascending df ->
  Forall (fun g => match g with Some x => 0 <= x | None => True end) (time_gaps df).
Proof.
  unfold Loading.ascending, time_gaps.
  intros H. destruct df as [|m rest]; [constructor|].
  constructor; [exact I|].
  revert m H. induction rest as [|b rest IH]; intros a H; [constructor|].
  cbn [combine map fst snd].
  inversion H as [|? ? Hs Ha]; subst.
  inversion Ha as [|? ? Hab _]; subst.
  constructor.
  - apply Qdiv_nonneg; [|reflexivity]. apply total_seconds_nonneg. lia.
  - destruct rest as [|c rest']; [constructor|].
    apply (IH b Hs).
Qed.

Lemma ascending_times_nonneg (df : list Message) (target_sender : string) :
  Loading.ascending df ->
  Forall (fun x => 0 <= x) (response_times df target_sender) /\
  Forall (fun g => match g with Some x => 0 <= x | None => True end)
         (time_gaps df) /\
  (response_times df target_sender <> [] ->
   0 <= mean (response_times df target_sender)).
Proof.
  intros Ha.
  assert (Hr : Forall (fun x => 0 <= x) (response_times df target_sender)).
  { rewrite response_times_elapsed. apply elapsed_minutes_nonneg, Ha. }
  repeat apply conj.
  - exact Hr.
  - apply time_gaps_nonneg, Ha.
  - intros Hne.
    set (l := response_times _ _) in *.
    assert (Hs : 0 * of_nat (length l) <= Qsum l).
    { clear Hne. induction Hr as [|x l' Hx _ IH]; cbn [Qsum length].
      - change (of_nat 0) with 0. lra.
      - rewrite of_nat_S. lra. }
    unfold mean. apply Qdiv_nonneg; [lra|].
    apply of_nat_pos. destruct l; [congruence | cbn; lia].
Qed.

(** Every response time and every gap computed on a sequence that is
    ascending by timestamp is non-negative, and so is the average
    response time the curve receives; every sequence that
    [load_messages] returns is such a sequence, whatever sort gave the
    order of its rows. *)
Theorem loaded_times_nonneg (df : list Message) (target_sender : string) :
  (Loading.ascending df ->
   Forall (fun x => 0 <= x) (response_times df target_sender) /\
   Forall (fun g => match g with Some x => 0 <= x | None => True end)
          (time_gaps df) /\
   (response_times df target_sender <> [] ->
    0 <= mean (response_times df target_sender))) /\
  (forall (P : Loading.Pandas) (messages : list Loading.Input),
     Loading.load_messages P messages = Parsers.Ok df ->
     Forall (fun x => 0 <= x) (response_times df target_sender) /\
     Forall (fun g => match g with Some x => 0 <= x | None => True end)
            (time_gaps df) /\
     (response_times df target_sender <> [] ->
      0 <= mean (response_times df target_sender))).
Proof.
  split; [apply ascending_times_nonneg|].
  intros P messages Hl. apply ascending_times_nonneg.
  destruct (load_messages_ok P messages df Hl) as (rows & -> & _).
  apply sort_values_ascending. exact P.
Qed.

End Ascending.

Lemma loaded_times_nonneg_witness :
  Forall (fun x => 0 <= x)%Q (response_times Samples.three_days "B") /\
  Forall (fun g => match g with Some x => (0 <= x)%Q | None => True end)
         (time_gaps Samples.three_days) /\
  (response_times Samples.three_days "B" <> [] ->
   (0 <= mean (response_times Samples.three_days "B"))%Q).
Proof.
  apply (proj2 (loaded_times_nonneg Samples.three_days "B") Samples.pandas
           (map Loading.of_message (rev Samples.three_days))).
  reflexivity.
Defined.

(* ===================================================================== *)
(** ** Calling the aggregator again *)
(* ===================================================================== *)

Section Again.
Variable X : Externals.

Lemma assign_again (col : string) (v : list Frames.Cell)
  (columns : list (string * list Frames.Cell)) :
  Frames.assign col v (Frames.assign col v columns) = Frames.assign col v columns.
Proof.
  induction columns as [|[name old] rest IH]; cbn [Frames.assign].
  - rewrite String.eqb_refl. reflexivity.
  - destruct (String.eqb name col) eqn:E; cbn [Frames.assign].
    + rewrite String.eqb_refl. reflexivity.
    + rewrite E, IH. reflexivity.
Qed.

Lemma with_time_gap_again (d : Frames.DataFrame) :
  Frames.with_time_gap (Frames.with_time_gap d) = Frames.with_time_gap d.
Proof.
  unfold Frames.with_time_gap. cbn [Frames.rows Frames.derived].
  rewrite assign_again. reflexivity.
Qed.

(** A second call of the aggregator on the same frame returns the same
    result as the first and leaves the caller's frame as the first call
    left it: the column of the first call is replaced, not added again,
    and no score reads it from before. *)
Theorem aggregator_twice (df : Frames.ref) (t : string) (h : Frames.Store)
  (d : Frames.DataFrame) :
  h !! df = Some d ->
  exists r h1 h2,
    Frames.calculate_overall_interest X df t h = Some (r, h1) /\
    Frames.calculate_overall_interest X df t h1 = Some (r, h2) /\
    r = calculate_overall_interest X (Frames.rows d) t /\
    h2 !! df = h1 !! df.
Proof.
  intros H.
  destruct (aggregator_effect X df t h d H) as (h1 & R1 & L1 & _).
  destruct (aggregator_effect X df t h1 _ L1) as (h2 & R2 & L2 & _).
  assert (Hrows : Frames.rows (if (length (Frames.rows d) <? 2)%nat then d
                               else Frames.with_time_gap d) = Frames.rows d).
  { destruct (length (Frames.rows d) <? 2)%nat; reflexivity. }
  rewrite Hrows in R2, L2.
  exists (calculate_overall_interest X (Frames.rows d) t), h1, h2.
  repeat apply conj; try assumption; try reflexivity.
  rewrite L1, L2.
  destruct (length (Frames.rows d) <? 2)%nat; [reflexivity|].
  rewrite with_time_gap_again. reflexivity.
Qed.

End Again.

Lemma aggregator_twice_witness :
  exists r h1 h2,
    Frames.calculate_overall_interest Samples.externals 0 "B"
      [Frames.of_messages Samples.three_days] = Some (r, h1) /\
    Frames.calculate_overall_interest Samples.externals 0 "B" h1 = Some (r, h2) /\
    r = calculate_overall_interest Samples.externals Samples.three_days "B" /\
    h2 !! 0%nat = h1 !! 0%nat.
Proof.
  apply (aggregator_twice Samples.externals 0 "B"
           [Frames.of_messages Samples.three_days]
           (Frames.of_messages Samples.three_days)).
  reflexivity.
Defined.

(* ===================================================================== *)
(** ** What the parsers keep *)
(* ===================================================================== *)

Section Kept.
Import Parsers.
Variable W : World.

Lemma facebook_entry_result (e : pyobj) (r : option Parsed) :
  FacebookMessengerParser.entry W e = Ok r ->
  (has_key "content" e = true /\ exists p, r = Some p) \/
  (has_key "content" e = false /\ r = None).
Proof.
  unfold FacebookMessengerParser.entry, has_key.
  destruct (py_in "content" e) as [[|]|err]; cbn.
  - intros H. left. split; [reflexivity|].
    destruct (getitem e "content"); cbn in H; [|discriminate].
    destruct (getitem e "timestamp_ms"); cbn in H; [|discriminate].
    destruct (div1000 _); cbn in H; [|discriminate].
    destruct (fromtimestamp W _); cbn in H; [|discriminate].
    destruct (getitem e "sender_name"); cbn in H; [|discriminate].
    injection H as <-. eauto.
  - intros H. right. split; [reflexivity|]. injection H as <-. reflexivity.
  - discriminate.
Qed.

Lemma for_each_all_ok {A B : Type} (f : nat -> A -> result (option B))
  (i : nat) (l : list A) :
  (forall j a, In a l -> exists r, f j a = Ok r) ->
  exists out,
    for_each f i l = Ok out /\
    (forall test : A -> bool,
       (forall j a r, In a l -> f j a = Ok r -> test a = bool_decide (is_Some r)) ->
       length out = length (List.filter test l)).
Proof.
  revert i. induction l as [|a l IH]; intros i Hall.
  - exists []. split; [reflexivity|]. intros; reflexivity.
  - destruct (Hall i a (or_introl eq_refl)) as [r Hr].
    destruct (IH (S i) (fun j b Hb => Hall j b (or_intror Hb))) as (out & Ho & Hlen).
    exists (match r with Some b => b :: out | None => out end).
    split.
    + cbn [for_each]. rewrite Hr. cbn. rewrite Ho. reflexivity.
    + intros test Ht. cbn [List.filter].
      rewrite (Ht i a r (or_introl eq_refl) Hr).
      specialize (Hlen test (fun j b r' Hb => Ht j b r' (or_intror Hb))).
      destruct r; cbn; [rewrite Hlen|]; [reflexivity | exact Hlen].
Qed.

(** When every entry of a Facebook export goes through, the parse
    succeeds with one message for each entry that has a [content] field,
    and none for the others. *)
Theorem facebook_parse_counts_content (path : string) (data : gmap string pyobj)
  (entries : list pyobj) :
  load_json W path = Ok (PyDict data) ->
  data !! "messages"%string = Some (PyList entries) ->
  (forall e, In e entries -> exists r, FacebookMessengerParser.entry W e = Ok r) ->
  exists out,
    FacebookMessengerParser.parse W path = Ok out /\
    length out = length (List.filter (has_key "content") entries).
Proof.
  intros Hl Hm Hall.
  rewrite (facebook_parse_messages W path data entries Hl Hm).
  destruct (for_each_all_ok (fun _ => FacebookMessengerParser.entry W) 0 entries
              (fun _ a Ha => Hall a Ha)) as (out & Ho & Hlen).
  exists out. split; [exact Ho|].
  apply Hlen. intros j a r Ha Hr.
  destruct (facebook_entry_result a r Hr) as [[Hk [p ->]]|[Hk ->]];
    rewrite Hk; reflexivity.
Qed.

(** The iMessage parser drops nothing and raises on no dictionary: a
    JSON array of objects gives one message for each object, and a CSV
    file one message for each row. *)
Theorem imessage_parse_keeps_all (path : string) :
  (forall entries,
     Str.endswith path ".json" = true ->
     load_json W path = Ok (PyList entries) ->
     forallb is_dict entries = true ->
     exists out,
       iMessageParser.parse W path = Ok out /\ length out = length entries) /\
  (forall rows,
     Str.endswith path ".json" = false ->
     Str.endswith path ".csv" = true ->
     read_csv W path = Ok rows ->
     exists out,
       iMessageParser.parse W path = Ok out /\ length out = length rows).
Proof.
  split.
  - intros entries He Hl Hd. unfold iMessageParser.parse. rewrite He, Hl. cbn.
    clear Hl. generalize 0%nat. induction entries as [|e entries IH]; intros i.
    + exists []. split; reflexivity.
    + cbn [forallb] in Hd. apply andb_true_iff in Hd. destruct Hd as [He1 Hd].
      destruct (IH Hd (S i)) as (out & Ho & Hlen).
      destruct e; try discriminate He1.
      cbn [for_each]. cbn. rewrite Ho. cbn.
      eexists. split; [reflexivity|]. cbn [length]. rewrite Hlen. reflexivity.
  - intros rows Hj Hc Hr. unfold iMessageParser.parse. rewrite Hj, Hc, Hr. cbn.
    clear Hr. generalize 0%nat. induction rows as [|e rows IH]; intros i.
    + exists []. split; reflexivity.
    + destruct (IH (S i)) as (out & Ho & Hlen).
      cbn [for_each]. cbn. rewrite Ho. cbn.
      eexists. split; [reflexivity|]. cbn [length]. rewrite Hlen. reflexivity.
Qed.

(** The generic parser walks the keys of a top-level object as if they
    were messages: on the empty object it returns no message, on any
    other it raises [AttributeError].  Auto-detection sends it every
    .json object that has no [messages] key. *)
Theorem generic_parse_of_object (path : string) (data : gmap string pyobj) :
  load_json W path = Ok (PyDict data) ->
  GenericJSONParser.parse W path
  = (if decide (data = ∅) then Ok [] else Raise AttributeError) /\
  (Str.endswith path ".json" = true ->
   data !! "messages"%string = None ->
   data <> ∅ ->
   parse (get_parser W path None) W path = Raise AttributeError).
Proof.
  intros Hl.
  assert (Hp : GenericJSONParser.parse W path
               = if decide (data = ∅) then Ok [] else Raise AttributeError).
  { unfold GenericJSONParser.parse. rewrite Hl. cbn.
    destruct (decide (data = ∅)) as [->|Hne].
    - rewrite map_to_list_empty. reflexivity.
    - destruct (map_to_list data) as [|[k v] l] eqn:E.
      + apply map_to_list_empty_iff in E. contradiction.
      + reflexivity. }
  split; [exact Hp|].
  intros He Hm Hne.
  cbn [get_parser]. rewrite (by_file_json W path He), Hl.
  unfold Design.has_messages_object. rewrite Hm.
  rewrite bool_decide_false by (intros [x Hx]; discriminate).
  cbn [parse]. rewrite Hp. destruct (decide (data = ∅)); [contradiction|reflexivity].
Qed.

(** With an iMessage hint and a path that ends neither in .json nor in
    .csv, selection and parsing succeed with no message at all, and no
    file is read. *)
Theorem imessage_hint_other_extension (path hint : string) :
  by_platform hint = Some IMessage ->
  Str.endswith path ".json" = false ->
  Str.endswith path ".csv" = false ->
  parse (get_parser W path (Some hint)) W path = Ok [].
Proof.
  intros Hp Hj Hc.
  destruct hint as [|c p]; [discriminate Hp|].
  cbn [get_parser]. rewrite Hp. cbn [parse].
  unfold iMessageParser.parse. rewrite Hj, Hc. reflexivity.
Qed.

End Kept.

Lemma facebook_parse_counts_content_witness :
  exists out,
    Parsers.FacebookMessengerParser.parse Files.world "facebook.json"
    = Parsers.Ok out /\
    length out = 2%nat.
Proof.
  apply (facebook_parse_counts_content Files.world "facebook.json"
           Files.facebook_export
           [Parsers.PyDict Files.first_message; Parsers.PyDict Files.photo;
            Parsers.PyDict Files.last_message]); try reflexivity.
  intros e [<-|[<-|[<-|[]]]]; eexists; reflexivity.
Defined.

Lemma imessage_parse_keeps_all_witness :
  (exists out,
     Parsers.iMessageParser.parse Files.world "imessage.json" = Parsers.Ok out /\
     length out = 2%nat) /\
  (exists out,
     Parsers.iMessageParser.parse Files.world "imessage.csv" = Parsers.Ok out /\
     length out = 2%nat).
Proof.
  split.
  - apply (proj1 (imessage_parse_keeps_all Files.world "imessage.json")
             [Parsers.PyDict Files.aliased_entry; Parsers.PyDict Files.anonymous_entry]);
      reflexivity.
  - apply (proj2 (imessage_parse_keeps_all Files.world "imessage.csv")
             [Files.aliased_entry; Files.anonymous_entry]);
      reflexivity.
Defined.

Lemma generic_parse_of_object_witness :
  Parsers.GenericJSONParser.parse Hosts.world "settings.json"
  = Parsers.Raise Parsers.AttributeError /\
  Parsers.parse (Parsers.get_parser Hosts.world "settings.json" None)
    Hosts.world "settings.json"
  = Parsers.Raise Parsers.AttributeError.
Proof.
  assert (Hl : Parsers.load_json Hosts.world "settings.json"
               = Parsers.Ok (Parsers.PyDict Hosts.settings)) by reflexivity.
  destruct (generic_parse_of_object Hosts.world "settings.json" Hosts.settings Hl)
    as [H1 H2].
  split.
  - rewrite H1. reflexivity.
  - apply H2; [reflexivity | reflexivity | discriminate].
Defined.

Lemma imessage_hint_other_extension_witness :
  Parsers.parse (Parsers.get_parser Files.world "chat.txt" (Some "iMessage"%string))
    Files.world "chat.txt"
  = Parsers.Ok [].
Proof.
  apply (imessage_hint_other_extension Files.world "chat.txt" "iMessage");
    reflexivity.
Defined.

(* ===================================================================== *)
(** ** Hints in any case, fields without blanks *)
(* ===================================================================== *)

Section Text.
Import Parsers.

Lemma lower_ascii_again (c : ascii) :
  Str.lower_ascii (Str.lower_ascii c) = Str.lower_ascii c.
Proof.
  destruct c as [[|] [|] [|] [|] [|] [|] [|] [|]]; reflexivity.
Qed.

Lemma lower_again (s : string) : Str.lower (Str.lower s) = Str.lower s.
Proof.
  induction s as [|c s IH]; [reflexivity|].
  cbn [Str.lower]. rewrite lower_ascii_again, IH. reflexivity.
Qed.

(** The hint is matched without regard to case: a hint and its
    lowercase form select the same parser for every file. *)
Theorem hint_case_insensitive (W : World) (path hint : string) :
  by_platform (Str.lower hint) = by_platform hint /\
  get_parser W path (Some (Str.lower hint)) = get_parser W path (Some hint).
Proof.
  assert (Hb : by_platform (Str.lower hint) = by_platform hint).
  { unfold by_platform. rewrite lower_again. reflexivity. }
  split; [exact Hb|].
  destruct hint as [|c p]; [reflexivity|].
  cbn [Str.lower get_parser].
  change (String (Str.lower_ascii c) (Str.lower p)) with (Str.lower (String c p)).
  rewrite Hb. reflexivity.
Qed.

Lemma lstrip_first_char (s : string) :
  match Str.first_char (Str.lstrip s) with
  | Some c => Str.is_space c = false
  | None => True
  end.
Proof.
  induction s as [|c s IH]; [exact I|].
  cbn [Str.lstrip]. destruct (Str.is_space c) eqn:E; [exact IH|].
  cbn [Str.first_char]. exact E.
Qed.

Lemma rstrip_last_char (s : string) :
  match Str.last_char (Str.rstrip s) with
  | Some c => Str.is_space c = false
  | None => True
  end.
Proof.
  induction s as [|c s IH]; [exact I|].
  cbn [Str.rstrip]. destruct (Str.rstrip s) as [|c' r] eqn:E.
  - destruct (Str.is_space c) eqn:Ec; [exact I|].
    cbn [Str.last_char]. exact Ec.
  - change (Str.last_char (String c (String c' r)))
      with (Str.last_char (String c' r)).
    exact IH.
Qed.

Lemma rstrip_first_char (s : string) :
  match Str.first_char s with
  | Some c => Str.is_space c = false
  | None => True
  end ->
  match Str.first_char (Str.rstrip s) with
  | Some c => Str.is_space c = false
  | None => True
  end.
Proof.
  destruct s as [|c s]; [intros; exact I|].
  cbn [Str.first_char Str.rstrip]. intros Hc.
  destruct (Str.rstrip s); [rewrite Hc|]; cbn [Str.first_char]; exact Hc.
Qed.

Lemma strip_trimmed (s : string) : Str.trimmed (Str.strip s).
Proof.
  unfold Str.trimmed, Str.strip. split.
  - apply rstrip_first_char, lstrip_first_char.
  - apply rstrip_last_char.
Qed.

Lemma whatsapp_strings (W : World) (line : string) (p : Parsed) :
  WhatsAppParser.line_entry W line = Some p ->
  exists s t, sender p = PyStr s /\ text p = PyStr t.
Proof.
  unfold WhatsAppParser.line_entry.
  destruct (re_match W line) as [[[[d tm] sd] tx]|]; [|discriminate].
  cbv zeta.
  match goal with |- context [match ?found with Some _ => _ | None => None end] =>
    destruct found as [ts|] end; [|discriminate].
  intros H. injection H as <-. eauto.
Qed.

(** The sender and the text of every message the WhatsApp parser keeps
    are strings that neither begin nor end with a blank. *)
Theorem whatsapp_fields_trimmed (W : World) (line : string) (p : Parsed) :
  WhatsAppParser.line_entry W line = Some p ->
  exists s t,
    sender p = PyStr s /\ text p = PyStr t /\ Str.trimmed s /\ Str.trimmed t.
Proof.
  unfold WhatsAppParser.line_entry.
  destruct (re_match W line) as [[[[d tm] sd] tx]|]; [|discriminate].
  cbv zeta.
  match goal with |- context [match ?found with Some _ => _ | None => None end] =>
    destruct found as [ts|] end; [|discriminate].
  intros H. injection H as <-.
  exists (Str.strip sd), (Str.strip tx).
  repeat split; apply strip_trimmed.
Qed.

End Text.

Lemma whatsapp_fields_trimmed_witness :
  exists s t,
    Parsers.WhatsAppParser.line_entry Files.world Files.line3
    = Some (Parsers.mkParsed (Parsers.PyStr t) (Files.t0 + 120000000)%Z
                             (Parsers.PyStr s)) /\
    Str.trimmed s /\ Str.trimmed t.
Proof.
  destruct (whatsapp_fields_trimmed Files.world Files.line3
              (Parsers.mkParsed (Parsers.PyStr "hello") (Files.t0 + 120000000)%Z
                                (Parsers.PyStr "Bob")) eq_refl)
    as (s & t & Hs & Ht & Ts & Tt).
  cbn in Hs, Ht. injection Hs as <-. injection Ht as <-.
  exists "Bob"%string, "hello"%string.
  split; [reflexivity|]. split; assumption.
Defined.

(* ===================================================================== *)
(** ** The command line *)
(* ===================================================================== *)

Section CommandLine.
Local Abbreviation message_timestamp := timestamp.
Import Parsers.
Variable H : App.Host.

(** With fewer than three words on the command line the run fails for
    lack of arguments, whatever the words: the help flag alone does not
    show the help as a success.  From three words on, a help flag in
    first place shows the help and no file is looked at. *)
Theorem main_arguments (argv : list string) :
  ((length argv < 3)%nat -> App.main H argv = App.Failed App.NotEnoughArguments) /\
  (forall prog flag word rest,
     argv = prog :: flag :: word :: rest ->
     In flag ["-h"; "--help"; "help"]%string ->
     App.main H argv = App.HelpShown).
Proof.
  split.
  - intros Hlen. unfold App.main. apply Nat.ltb_lt in Hlen. rewrite Hlen.
    reflexivity.
  - intros prog flag word rest -> Hin. unfold App.main.
    cbn [length Nat.ltb Nat.leb].
    destruct Hin as [<-|[<-|[<-|[]]]]; reflexivity.
Qed.

Lemma line_entries_typed (lines : list string) :
  exists typed : list Message,
    mapM App.to_input (omap (WhatsAppParser.line_entry (App.world H)) lines)
    = Some (map Loading.of_message typed) /\
    length typed = length (omap (WhatsAppParser.line_entry (App.world H)) lines) /\
    forallb (fun m => Loading.in_timestamp_range (message_timestamp m)) typed
    = forallb (fun p => Loading.in_timestamp_range (timestamp p))
              (omap (WhatsAppParser.line_entry (App.world H)) lines).
Proof.
  induction lines as [|line lines IH]; [exists []; repeat split|].
  assert (Hc : omap (WhatsAppParser.line_entry (App.world H)) (line :: lines)
               = match WhatsAppParser.line_entry (App.world H) line with
                 | Some p => p :: omap (WhatsAppParser.line_entry (App.world H)) lines
                 | None => omap (WhatsAppParser.line_entry (App.world H)) lines
                 end) by reflexivity.
  rewrite Hc. clear Hc.
  destruct (WhatsAppParser.line_entry (App.world H) line) as [p|] eqn:E;
    [|exact IH].
  destruct IH as (typed & Hm & Hl & Ht).
  destruct (whatsapp_strings (App.world H) line p E) as (s & t & Hs & Htx).
  exists (mkMessage t (timestamp p) s :: typed).
  split; [|split].
  - assert (Hp : App.to_input p
                 = Some (Loading.of_message (mkMessage t (timestamp p) s))).
    { unfold App.to_input. rewrite Hs, Htx. reflexivity. }
    cbn [mapM map]. rewrite Hp, Hm. reflexivity.
  - cbn [length]. rewrite Hl. reflexivity.
  - cbn [forallb]. rewrite Ht. reflexivity.
Qed.

Lemma txt_is_no_help_flag (file_path : string) :
  Str.endswith file_path ".txt" = true ->
  existsb (String.eqb file_path) ["-h"; "--help"; "help"]%string = false.
Proof.
  intros He. cbn [existsb].
  destruct (String.eqb file_path "-h") eqn:E1;
    [apply String.eqb_eq in E1; subst; discriminate He|].
  destruct (String.eqb file_path "--help") eqn:E2;
    [apply String.eqb_eq in E2; subst; discriminate He|].
  destruct (String.eqb file_path "help") eqn:E3;
    [apply String.eqb_eq in E3; subst; discriminate He|].
  reflexivity.
Qed.

(** A WhatsApp export on the command line, a .txt path with no platform
    named: when the file exists and can be read and the dates of the
    lines the parser keeps are ones [pd.to_datetime] can hold, the run
    never ends in an analysis error.  It fails for lack of messages
    when the parser keeps no line, and otherwise reports a result that
    counts one message for every line kept. *)
Theorem main_on_whatsapp_export (prog file_path target_sender : string)
  (lines : list string) :
  Str.endswith file_path ".txt" = true ->
  App.path_exists H file_path = true ->
  read_lines (App.world H) file_path = Ok lines ->
  forallb (fun p => Loading.in_timestamp_range (timestamp p))
          (omap (WhatsAppParser.line_entry (App.world H)) lines) = true ->
  (omap (WhatsAppParser.line_entry (App.world H)) lines = [] ->
   App.main H [prog; file_path; target_sender] = App.Failed App.NoMessages) /\
  (omap (WhatsAppParser.line_entry (App.world H)) lines <> [] ->
   exists r,
     App.main H [prog; file_path; target_sender] = App.Reported r /\
     message_count r
     = length (omap (WhatsAppParser.line_entry (App.world H)) lines)).
Proof.
  intros He Hex Hl Hrange.
  assert (Hp : parse (get_parser (App.world H) file_path None) (App.world H) file_path
               = Ok (omap (WhatsAppParser.line_entry (App.world H)) lines)).
  { cbn [get_parser]. unfold by_file. rewrite He. cbn [parse].
    apply whatsapp_parse_total, Hl. }
  unfold App.main. cbn [length Nat.ltb Nat.leb].
  rewrite (txt_is_no_help_flag file_path He), Hex. cbn [negb]. cbv zeta.
  rewrite Hp.
  destruct (line_entries_typed lines) as (typed & Hm & Hlen & Hts).
  set (msgs := omap (WhatsAppParser.line_entry (App.world H)) lines) in *.
  split.
  - intros ->. reflexivity.
  - intros Hne.
    assert (Hr : forallb (fun m => Loading.in_timestamp_range (message_timestamp m))
                         typed = true).
    { rewrite Hts. exact Hrange. }
    assert (Hty : typed <> []).
    { intros ->. destruct msgs; [congruence | discriminate Hlen]. }
    destruct msgs as [|m msgs']; [congruence|].
    unfold App.analyze. rewrite Hm.
    rewrite (load_messages_typed (App.pandas H) typed Hty Hr). cbn.
    eexists. split; [reflexivity|].
    unfold calculate_overall_interest. cbn [message_count].
    rewrite (Permutation_length (sort_values_permutation (App.pandas H) typed)).
    exact Hlen.
Qed.

End CommandLine.

Lemma main_arguments_witness :
  App.main Hosts.host ["app.py"; "--help"]%string
  = App.Failed App.NotEnoughArguments /\
  App.main Hosts.host ["app.py"; "--help"; "now"]%string = App.HelpShown.
Proof.
  split.
  - apply (proj1 (main_arguments Hosts.host ["app.py"; "--help"]%string)).
    vm_compute. lia.
  - apply (proj2 (main_arguments Hosts.host ["app.py"; "--help"; "now"]%string)
             "app.py"%string "--help"%string "now"%string []);
      [reflexivity | right; left; reflexivity].
Defined.

Lemma main_on_whatsapp_export_witness :
  exists r,
    App.main Hosts.host ["app.py"; "chat.txt"; "Bob"]%string = App.Reported r /\
    message_count r = 2%nat.
Proof.
  apply (proj2 (main_on_whatsapp_export Hosts.host "app.py" "chat.txt" "Bob"
                  [Files.line1; Files.line2; Files.line3]
                  eq_refl eq_refl eq_refl eq_refl)).
  discriminate.
Defined.

(* ===================================================================== *)
(** ** The generic parser on an array of objects *)
(* ===================================================================== *)

Section GenericKept.
Import Parsers.
Variable W : World.

Lemma generic_entry_ok (i : nat) (m : gmap string pyobj) :
  is_number (stamp_source m) = false ->
  exists p, GenericJSONParser.entry W i (PyDict m) = Ok (Some p).
Proof.
  intros Hn. unfold GenericJSONParser.entry. cbn.
  fold (stamp_source m).
  destruct (stamp_source m); try discriminate Hn; cbn; eauto.
Qed.

(** The generic parser keeps every object of a JSON array whose
    timestamp is no number: it returns one message for each of them
    and raises nothing, whatever keys are missing. *)
Theorem generic_parse_keeps_all (path : string) (objects : list (gmap string pyobj)) :
  load_json W path = Ok (PyList (map PyDict objects)) ->
  forallb (fun m => negb (is_number (stamp_source m))) objects = true ->
  exists out,
    GenericJSONParser.parse W path = Ok out /\ length out = length objects.
Proof.
  intros Hl Hn. unfold GenericJSONParser.parse. rewrite Hl. cbn. clear Hl.
  generalize 0%nat. induction objects as [|m objects IH]; intros i.
  - exists []. split; reflexivity.
  - cbn [forallb] in Hn. apply andb_true_iff in Hn. destruct Hn as [Hm Hn].
    apply negb_true_iff in Hm.
    destruct (generic_entry_ok i m Hm) as [p Hp].
    destruct (IH Hn (S i)) as (out & Ho & Hlen).
    exists (p :: out). split.
    + cbn [map for_each]. rewrite Hp. cbn. rewrite Ho. reflexivity.
    + cbn [length]. rewrite Hlen. reflexivity.
Qed.

End GenericKept.

Lemma generic_parse_keeps_all_witness :
  exists out,
    Parsers.GenericJSONParser.parse Files.world "generic.json" = Parsers.Ok out /\
    length out = 1%nat.
Proof.
  apply (generic_parse_keeps_all Files.world "generic.json" [Files.anonymous_entry]);
    reflexivity.
Defined.

(* ===================================================================== *)
(** ** The first message and the conversation starts *)
(* ===================================================================== *)

(** The first row has no gap before it and is never a conversation
    start: the initiation score does not depend on who sent the first
    message of the sequence, nor on its text. *)
Theorem initiation_ignores_first_sender (first first' : Message)
  (rest : list Message) (target_sender : string) :
  timestamp first = timestamp first' ->
  rows_with_gap_over (time_gaps (first :: rest)) (first :: rest)
  = rows_with_gap_over (time_gaps (first' :: rest)) (first' :: rest) /\
  analyze_conversation_initiation (first :: rest) target_sender
  = analyze_conversation_initiation (first' :: rest) target_sender.
Proof.
  intros Ht.
  assert (Hs : rows_with_gap_over (time_gaps (first :: rest)) (first :: rest)
               = rows_with_gap_over (time_gaps (first' :: rest)) (first' :: rest)).
  { unfold rows_with_gap_over, time_gaps.
    cbn [combine List.filter snd]. 
    destruct rest as [|b rest']; [reflexivity|].
    cbn [combine map fst snd]. rewrite Ht. reflexivity. }
  split; [exact Hs|].
  unfold analyze_conversation_initiation. cbv zeta.
  rewrite Hs. reflexivity.
Qed.

Lemma initiation_ignores_first_sender_witness :
  analyze_conversation_initiation
    (Samples.msg "A" 0 "good morning" :: List.tl Samples.three_days) "B"
  = analyze_conversation_initiation
      (Samples.msg "B" 0 "hello" :: List.tl Samples.three_days) "B".
Proof.
  apply (initiation_ignores_first_sender
           (Samples.msg "A" 0 "good morning") (Samples.msg "B" 0 "hello")
           (List.tl Samples.three_days) "B").
  reflexivity.
Defined.
